(** * OrthoBenchmark: the orthologous-cluster membership comparison pipeline

    A shallow embedding of [Scripts/og_membership_test.py] (version 2.5) and
    of the parts of Python's standard library it calls
    ([difflib.SequenceMatcher], [statistics.mean], insertion-ordered [dict]),
    followed by the properties of the pipeline stages.

    Conventions of the embedding
    - Python [str] is [string]; Python [list] is [list].
    - Python [dict] is an insertion-ordered association list ([dict K V]):
      [d[k] = v] is [dict_set] (the value is replaced in place when the key
      is present, the pair is appended otherwise), [d[k]] is [py_getitem]
      (raises [KeyError]), [d.get(k, dflt)] is [dict_get_default].
    - Raised exceptions are the left summand of [result]; code that writes
      files runs in the monad [IO] over the file store.
    - A JSON file is kept in the store as the value it holds; [json_dumps]
      and [json_loads] give and read its text.
    - Python floats are represented by the exact rational they round
      ([Q], kept in lowest terms by [Qred] so that Leibniz equality is the
      equality of scores).
    - Sequence indices are [nat]; where Python computes [j-1] or [i-k+1] on
      possibly small values the embedding spells out the case that would go
      below zero. *)

From Stdlib Require Import String Ascii List Bool Arith Lia ZArith QArith Qreduction.
From Stdlib Require Import DecimalString Permutation.
Import ListNotations.

Set Implicit Arguments.
Local Open Scope nat_scope.

(* ===================================================================== *)
(** * Part I. Definitions *)
(* ===================================================================== *)

(** ** Keys with decidable equality *)

Class EqDecB (K : Type) := {
  keqb : K -> K -> bool;
  keqb_spec : forall x y, reflect (x = y) (keqb x y)
}.

#[export] Instance EqDecB_string : EqDecB string :=
  {| keqb := String.eqb; keqb_spec := String.eqb_spec |}.

#[export] Instance EqDecB_nat : EqDecB nat :=
  {| keqb := Nat.eqb; keqb_spec := Nat.eqb_spec |}.

(** ** Python dictionaries (insertion ordered) *)

Section Dict.
Context {K V : Type} `{EqDecB K}.

Definition dict := list (K * V).

Fixpoint dict_get (d : dict) (k : K) : option V :=
  match d with
  | [] => None
  | (k', v) :: d' => if keqb k k' then Some v else dict_get d' k
  end.

(** [d[k] = v] *)
Fixpoint dict_set (d : dict) (k : K) (v : V) : dict :=
  match d with
  | [] => [(k, v)]
  | (k', v') :: d' =>
      if keqb k k' then (k', v) :: d' else (k', v') :: dict_set d' k v
  end.

(** [del d[k]] for a key that is present *)
Fixpoint dict_del (d : dict) (k : K) : dict :=
  match d with
  | [] => []
  | (k', v') :: d' => if keqb k k' then d' else (k', v') :: dict_del d' k
  end.

Definition dict_keys (d : dict) : list K := map fst d.
Definition dict_values (d : dict) : list V := map snd d.

(** [k in d] *)
Definition dict_mem (d : dict) (k : K) : bool :=
  match dict_get d k with Some _ => true | None => false end.

(** [d.get(k, dflt)] *)
Definition dict_get_default (d : dict) (k : K) (dflt : V) : V :=
  match dict_get d k with Some v => v | None => dflt end.

(** A Python [dict] never holds a key twice. *)
Definition dict_wf (d : dict) : Prop := NoDup (dict_keys d).
End Dict.

Arguments dict : clear implicits.

(** [x in l] for a Python list *)
Definition py_in {K} `{EqDecB K} (x : K) (l : list K) : bool :=
  existsb (keqb x) l.

(** ** Exceptions *)

Inductive exn : Type :=
| KeyError (key : string)
| IndexError
| StatisticsError
| FileNotFoundError (name : string)
| JSONDecodeError (name : string)
| TypeError
| AttributeError
| NameError
| SystemExit (message : string).

Definition result (A : Type) : Type := (exn + A)%type.

Definition ret {A} (x : A) : result A := inr x.
Definition raise {A} (e : exn) : result A := inl e.
Definition bind {A B} (m : result A) (f : A -> result B) : result B :=
  match m with inl e => inl e | inr x => f x end.

Declare Scope py_scope.
Delimit Scope py_scope with py.
Notation "x <- m ;; k" := (bind m (fun x => k))
  (at level 61, m at next level, right associativity) : py_scope.

(** [d[k]] on a dictionary keyed by strings *)
Definition py_getitem {V} (d : dict string V) (k : string) : result V :=
  match dict_get d k with Some v => ret v | None => raise (KeyError k) end.

(* ===================================================================== *)
(** ** difflib.SequenceMatcher(None, a, b)

    The matcher is always built with [isjunk = None] and the default
    [autojunk = True]; hence [bjunk] is empty, [isbjunk] is constantly
    false, and the two final "junk" extension loops of
    [find_longest_match] never iterate. *)
(* ===================================================================== *)

Section SequenceMatcher.
Context {T : Type} `{EqDecB T}.
Variable dflt : T.
Variables a b : list T.

(** [Match(a, b, size)] *)
Definition Match : Type := (nat * nat * nat)%type.
Definition msize (m : Match) : nat := snd m.

(** [indices = b2j.setdefault(elt, []); indices.append(i)] *)
Definition setdefault_append (b2j : dict T (list nat)) (elt : T) (i : nat)
  : dict T (list nat) :=
  match dict_get b2j elt with
  | Some idxs => dict_set b2j elt (idxs ++ [i])
  | None => dict_set b2j elt [i]
  end.

(** [for i, elt in enumerate(b): ...] *)
Fixpoint chain_b_loop (i : nat) (l : list T) (b2j : dict T (list nat))
  : dict T (list nat) :=
  match l with
  | [] => b2j
  | elt :: l' => chain_b_loop (S i) l' (setdefault_append b2j elt i)
  end.

(** The set [popular]: with [autojunk] and [n >= 200], the elements
    occurring more than [n // 100 + 1] times. *)
Definition bpopular (b2j : dict T (list nat)) (n : nat) : list T :=
  if 200 <=? n then
    let ntest := n / 100 + 1 in
    dict_keys (filter (fun e => ntest <? length (snd e)) b2j)
  else [].

(** [__chain_b]: the final [b2j] *)
Definition chain_b : dict T (list nat) :=
  let b2j := chain_b_loop 0 b [] in
  fold_left dict_del (bpopular b2j (length b)) b2j.

(** [j2lenget(j-1, 0)]: for [j = 0] the key [-1] is never present. *)
Definition j2lenget_pred (j2len : dict nat nat) (j : nat) : nat :=
  match j with
  | O => 0
  | S j' => dict_get_default j2len j' 0
  end.

(** The loop [for j in b2j.get(a[i], nothing)] of [find_longest_match];
    [best] is [(besti, bestj, bestsize)]. *)
Fixpoint flm_inner (i blo bhi : nat) (j2len : dict nat nat) (js : list nat)
    (newj2len : dict nat nat) (best : Match) : dict nat nat * Match :=
  match js with
  | [] => (newj2len, best)
  | j :: js' =>
      if j <? blo then flm_inner i blo bhi j2len js' newj2len best
      else if bhi <=? j then (newj2len, best)
      else
        let k := j2lenget_pred j2len j + 1 in
        let newj2len' := dict_set newj2len j k in
        let best' := if msize best <? k then (i + 1 - k, j + 1 - k, k)
                     else best in
        flm_inner i blo bhi j2len js' newj2len' best'
  end.

(** The loop [for i in range(alo, ahi)]; [rows] is the range. *)
Fixpoint flm_outer (b2j : dict T (list nat)) (blo bhi : nat)
    (rows : list nat) (j2len : dict nat nat) (best : Match) : Match :=
  match rows with
  | [] => best
  | i :: rows' =>
      let '(newj2len, best') :=
        flm_inner i blo bhi j2len
          (dict_get_default b2j (nth i a dflt) []) [] best in
      flm_outer b2j blo bhi rows' newj2len best'
  end.

(** [while besti > alo and bestj > blo and a[besti-1] == b[bestj-1]] *)
Fixpoint extend_left (alo blo besti bestj bestsize : nat) : Match :=
  match besti, bestj with
  | S i', S j' =>
      if (alo <? besti) && (blo <? bestj)
         && keqb (nth i' a dflt) (nth j' b dflt)
      then extend_left alo blo i' j' (S bestsize)
      else (besti, bestj, bestsize)
  | _, _ => (besti, bestj, bestsize)
  end.

(** [while besti+bestsize < ahi and bestj+bestsize < bhi and
    a[besti+bestsize] == b[bestj+bestsize]]; [n] bounds the number of
    iterations and is instantiated with [ahi - (besti + bestsize)]. *)
Fixpoint extend_right (n ahi bhi besti bestj bestsize : nat) : nat :=
  match n with
  | O => bestsize
  | S n' =>
      if (besti + bestsize <? ahi) && (bestj + bestsize <? bhi)
         && keqb (nth (besti + bestsize) a dflt) (nth (bestj + bestsize) b dflt)
      then extend_right n' ahi bhi besti bestj (S bestsize)
      else bestsize
  end.

Definition find_longest_match_with (b2j : dict T (list nat))
    (alo ahi blo bhi : nat) : Match :=
  let '(besti, bestj, bestsize) :=
    flm_outer b2j blo bhi (seq alo (ahi - alo)) [] (alo, blo, 0) in
  let '(besti, bestj, bestsize) :=
    extend_left alo blo besti bestj bestsize in
  let bestsize :=
    extend_right (ahi - (besti + bestsize)) ahi bhi besti bestj bestsize in
  (besti, bestj, bestsize).

Definition find_longest_match : nat -> nat -> nat -> nat -> Match :=
  find_longest_match_with chain_b.

(** The [while queue:] loop of [get_matching_blocks].  The Python list
    [queue] is used as a stack ([append] / [pop] at its end); the head of
    [queue] here is the end of the Python list.  [fuel] bounds the number
    of iterations; [None] means the bound was reached. *)
Fixpoint blocks_loop (fuel : nat) (queue : list (nat * nat * nat * nat))
    (matching_blocks : list Match) : option (list Match) :=
  match fuel with
  | O => None
  | S fuel' =>
      match queue with
      | [] => Some matching_blocks
      | (alo, ahi, blo, bhi) :: queue =>
          let '(i, j, k) := find_longest_match alo ahi blo bhi in
          if k =? 0 then blocks_loop fuel' queue matching_blocks
          else
            let matching_blocks := matching_blocks ++ [(i, j, k)] in
            let queue :=
              if (alo <? i) && (blo <? j) then (alo, i, blo, j) :: queue
              else queue in
            let queue :=
              if (i + k <? ahi) && (j + k <? bhi)
              then (i + k, ahi, j + k, bhi) :: queue
              else queue in
            blocks_loop fuel' queue matching_blocks
      end
  end.

(** Tuple comparison [x <= y] on triples, as used by [list.sort]. *)
Definition match_leb (x y : Match) : bool :=
  let '(i1, j1, k1) := x in
  let '(i2, j2, k2) := y in
  (i1 <? i2) || ((i1 =? i2) && ((j1 <? j2) || ((j1 =? j2) && (k1 <=? k2)))).

Fixpoint sort_insert (x : Match) (l : list Match) : list Match :=
  match l with
  | [] => [x]
  | y :: l' => if match_leb x y then x :: l else y :: sort_insert x l'
  end.

(** [matching_blocks.sort()] *)
Fixpoint sort_blocks (l : list Match) : list Match :=
  match l with
  | [] => []
  | x :: l' => sort_insert x (sort_blocks l')
  end.

(** The loop collapsing adjacent equal blocks; the state is
    [((i1, j1, k1), non_adjacent)]. *)
Fixpoint collapse_loop (blocks : list Match) (cur : Match)
    (non_adjacent : list Match) : Match * list Match :=
  match blocks with
  | [] => (cur, non_adjacent)
  | (i2, j2, k2) :: blocks' =>
      let '(i1, j1, k1) := cur in
      if (i1 + k1 =? i2) && (j1 + k1 =? j2)
      then collapse_loop blocks' (i1, j1, k1 + k2) non_adjacent
      else
        let non_adjacent :=
          if k1 =? 0 then non_adjacent else non_adjacent ++ [(i1, j1, k1)] in
        collapse_loop blocks' (i2, j2, k2) non_adjacent
  end.

Definition blocks_fuel : nat := 2 * length a + 2.

(** The blocks found by the queue loop, before sorting. *)
Definition raw_matching_blocks : list Match :=
  match blocks_loop blocks_fuel [(0, length a, 0, length b)] [] with
  | Some m => m
  | None => []
  end.

Definition get_matching_blocks : list Match :=
  let matching_blocks := sort_blocks raw_matching_blocks in
  let '((i1, j1, k1), non_adjacent) :=
    collapse_loop matching_blocks (0, 0, 0) [] in
  let non_adjacent :=
    if k1 =? 0 then non_adjacent else non_adjacent ++ [(i1, j1, k1)] in
  non_adjacent ++ [(length a, length b, 0)].

(** [sum(triple[-1] for triple in self.get_matching_blocks())] *)
Definition matches : nat := list_sum (map msize get_matching_blocks).
End SequenceMatcher.

(** [_calculate_ratio(matches, length)] *)
Definition calculate_ratio (matches length : nat) : Q :=
  if length =? 0 then 1%Q
  else Qred (Z.of_nat (2 * matches) # Pos.of_nat length).

(** [SequenceMatcher(None, a, b).ratio()] on lists of strings *)
Definition ratio (a b : list string) : Q :=
  calculate_ratio (matches EmptyString a b) (length a + length b).

(* ===================================================================== *)
(** ** statistics.mean *)
(* ===================================================================== *)

Definition Qsum (l : list Q) : Q := fold_right Qplus 0%Q l.

(** [statistics.mean(data)]: the exact mean of the data, and
    [StatisticsError] when [data] is empty. *)
Definition mean (data : list Q) : result Q :=
  match data with
  | [] => raise StatisticsError
  | _ :: _ => ret (Qred (Qsum data / inject_Z (Z.of_nat (length data))))
  end.

(* ===================================================================== *)
(** ** Files

    A JSON file is kept in the store as the JSON value it holds:
    [json.dump] stores the value of a Python object and [json.load] gives it
    back as dictionaries and lists.  The text of such a file is given by
    [json_dumps] and read by [json_loads] further down.  The final report is
    a text file. *)
(* ===================================================================== *)

#[local] Set Warnings "-register-all".
Inductive json : Type :=
| JNull
| JBool (b : bool)
| JString (s : string)
| JNumber (q : Q)
| JArray (items : list json)
| JObject (members : list (string * json)).

Inductive file : Type :=
| JsonFile (j : json)
| TextFile (s : string).

Definition files : Type := dict string file.

(** Code with file effects: a state monad over the file store that keeps
    the store as it is at the point where an exception is raised. *)
Definition IO (A : Type) : Type := files -> result A * files.

Definition io_ret {A} (x : A) : IO A := fun fs => (inr x, fs).
Definition io_raise {A} (e : exn) : IO A := fun fs => (inl e, fs).
Definition io_bind {A B} (m : IO A) (f : A -> IO B) : IO B :=
  fun fs => match m fs with
            | (inl e, fs') => (inl e, fs')
            | (inr x, fs') => f x fs'
            end.
Definition lift {A} (r : result A) : IO A := fun fs => (r, fs).

Notation "x <~ m ;; k" := (io_bind m (fun x => k))
  (at level 61, m at next level, right associativity) : py_scope.

(** [with open(name, 'w') as f: json.dump(obj, f)] *)
Definition json_dump (name : string) (j : json) : IO unit :=
  fun fs => (inr tt, dict_set fs name (JsonFile j)).

(** [with open(name, 'w') as f: f.write(text)] *)
Definition write_text (name : string) (text : string) : IO unit :=
  fun fs => (inr tt, dict_set fs name (TextFile text)).

(** [with open(name) as f: json.load(f)], followed by [conv], the shape the
    caller relies on (a file of another shape is malformed input). *)
Definition json_load {A} (conv : json -> option A) (name : string) : IO A :=
  fun fs => match dict_get fs name with
            | None => (inl (FileNotFoundError name), fs)
            | Some (TextFile _) => (inl (JSONDecodeError name), fs)
            | Some (JsonFile j) =>
                match conv j with
                | Some x => (inr x, fs)
                | None => (inl (JSONDecodeError name), fs)
                end
            end.

(** *** Python values as JSON values and back *)

(** A membership record: the list [[prog1_og, prog2_og, prog3_og, prog4_og]]. *)
Record slots : Type := mk_slots {
  slot0 : string; slot1 : string; slot2 : string; slot3 : string
}.

Definition slots_list (r : slots) : list string :=
  [slot0 r; slot1 r; slot2 r; slot3 r].

Definition json_of_slots (r : slots) : json :=
  JArray [JString (slot0 r); JString (slot1 r);
          JString (slot2 r); JString (slot3 r)].

Definition slots_of_json (j : json) : option slots :=
  match j with
  | JArray [JString s0; JString s1; JString s2; JString s3] =>
      Some (mk_slots s0 s1 s2 s3)
  | _ => None
  end.

Fixpoint strings_of_items (items : list json) : option (list string) :=
  match items with
  | [] => Some []
  | JString s :: items' =>
      match strings_of_items items' with
      | Some l => Some (s :: l)
      | None => None
      end
  | _ => None
  end.

Definition strings_of_json (j : json) : option (list string) :=
  match j with JArray items => strings_of_items items | _ => None end.

Fixpoint numbers_of_items (items : list json) : option (list Q) :=
  match items with
  | [] => Some []
  | JNumber q :: items' =>
      match numbers_of_items items' with
      | Some l => Some (q :: l)
      | None => None
      end
  | _ => None
  end.

Definition numbers_of_json (j : json) : option (list Q) :=
  match j with JArray items => numbers_of_items items | _ => None end.

Definition number_of_json (j : json) : option Q :=
  match j with JNumber q => Some q | _ => None end.

(** The members of a JSON object enter the Python dictionary one after the
    other: a repeated key keeps its first position and its last value. *)
Fixpoint load_members {V} (conv : json -> option V)
    (members : list (string * json)) (acc : dict string V)
  : option (dict string V) :=
  match members with
  | [] => Some acc
  | (k, j) :: members' =>
      match conv j with
      | Some v => load_members conv members' (dict_set acc k v)
      | None => None
      end
  end.

Definition dict_of_json {V} (conv : json -> option V) (j : json)
  : option (dict string V) :=
  match j with
  | JObject members => load_members conv members []
  | _ => None
  end.

Definition json_of_dict {V} (enc : V -> json) (d : dict string V) : json :=
  JObject (map (fun e => (fst e, enc (snd e))) d).

Definition json_of_prot_dict : dict string slots -> json :=
  json_of_dict json_of_slots.
Definition prot_dict_of_json : json -> option (dict string slots) :=
  dict_of_json slots_of_json.
Definition clusters_of_json : json -> option (dict string (list string)) :=
  dict_of_json strings_of_json.
Definition json_of_comparison_dict : dict string (list Q) -> json :=
  json_of_dict (fun l => JArray (map JNumber l)).
Definition comparison_dict_of_json : json -> option (dict string (list Q)) :=
  dict_of_json numbers_of_json.
Definition json_of_score_dict : dict string Q -> json :=
  json_of_dict JNumber.
Definition score_dict_of_json : json -> option (dict string Q) :=
  dict_of_json number_of_json.

(* ===================================================================== *)
(** ** The text of a JSON file

    [json.dump] writes a value with the default settings of the [json]
    library (ASCII output, separators [", "] and [": "]) and [json.load]
    reads it with the library's decoder.  A character of a string stands for
    the code point of the same number, so strings are over the code points
    below 256. *)
(* ===================================================================== *)

Definition hex_digit (n : nat) : ascii :=
  nth n ["0"; "1"; "2"; "3"; "4"; "5"; "6"; "7";
         "8"; "9"; "a"; "b"; "c"; "d"; "e"; "f"]%char "0"%char.

(** [int(c, 16)] for one character *)
Definition hex_value (c : ascii) : option nat :=
  let n := nat_of_ascii c in
  if (48 <=? n) && (n <=? 57) then Some (n - 48)
  else if (97 <=? n) && (n <=? 102) then Some (n - 87)
  else if (65 <=? n) && (n <=? 70) then Some (n - 55)
  else None.

(** [ESCAPE_DCT] and the [\uXXXX] form of [py_encode_basestring_ascii]: one
    character as it is written inside a JSON string *)
Definition escape_char (c : ascii) : string :=
  let n := nat_of_ascii c in
  if n =? 34 then String "\" (String "034" EmptyString)
  else if n =? 92 then String "\" (String "\" EmptyString)
  else if n =? 10 then String "\" (String "n" EmptyString)
  else if n =? 13 then String "\" (String "r" EmptyString)
  else if n =? 9 then String "\" (String "t" EmptyString)
  else if n =? 8 then String "\" (String "b" EmptyString)
  else if n =? 12 then String "\" (String "f" EmptyString)
  else if (n <? 32) || (126 <? n)
       then String "\" (String "u" (String "0" (String "0"
              (String (hex_digit (n / 16))
                 (String (hex_digit (n mod 16)) EmptyString)))))
  else String c EmptyString.

Fixpoint escape (s : string) : string :=
  match s with
  | EmptyString => EmptyString
  | String c s' => (escape_char c ++ escape s')%string
  end.

(** [py_encode_basestring_ascii(s)] *)
Definition dumps_string (s : string) : string :=
  String "034" (escape s ++ String "034" EmptyString)%string.

(** [sep.join(f(x) for x in l)] with the item separator [", "] *)
Definition comma_join {A} (f : A -> string) : list A -> string :=
  fix go (l : list A) : string :=
    match l with
    | [] => EmptyString
    | x :: l' =>
        match l' with
        | [] => f x
        | _ :: _ => (f x ++ String "," (String " " (go l')))%string
        end
    end.

Section JsonText.
Variable float_repr : Q -> string.
Variable float_of_string : string -> Q.

(** [json.dumps(obj)] *)
Fixpoint json_dumps (j : json) : string :=
  match j with
  | JNull => "null"%string
  | JBool true => "true"%string
  | JBool false => "false"%string
  | JString s => dumps_string s
  | JNumber q => float_repr q
  | JArray items =>
      String "[" (comma_join json_dumps items ++ String "]" EmptyString)%string
  | JObject members =>
      String "{"
        (comma_join
           (fun m => let '(k, v) := m in
                     (dumps_string k ++ String ":" (String " " (json_dumps v)))%string)
           members ++ String "}" EmptyString)%string
  end.

(** [WHITESPACE.match(s, idx).end()] *)
Definition is_ws (c : ascii) : bool :=
  let n := nat_of_ascii c in
  (n =? 32) || (n =? 9) || (n =? 10) || (n =? 13).

Fixpoint skip_ws (s : string) : string :=
  match s with
  | EmptyString => s
  | String c s' => if is_ws c then skip_ws s' else s
  end.

(** [py_scanstring(s, end)] in strict mode, on the text after the opening
    quote: the string and the text after the closing quote.  An escape
    [\uXXXX] of a code point from 256 on has no character here. *)
Fixpoint scanstring (s : string) : option (string * string) :=
  match s with
  | EmptyString => None
  | String c rest =>
      if Ascii.eqb c "034" then Some (EmptyString, rest)
      else if Ascii.eqb c "\" then
        match rest with
        | EmptyString => None
        | String esc rest1 =>
            if Ascii.eqb esc "u" then
              match rest1 with
              | String h1 (String h2 (String h3 (String h4 rest2))) =>
                  match hex_value h1, hex_value h2, hex_value h3, hex_value h4 with
                  | Some 0, Some 0, Some v3, Some v4 =>
                      match scanstring rest2 with
                      | Some (str, rest') =>
                          Some (String (ascii_of_nat (16 * v3 + v4)) str, rest')
                      | None => None
                      end
                  | _, _, _, _ => None
                  end
              | _ => None
              end
            else
              let decoded :=
                if Ascii.eqb esc "034" then Some "034"%char
                else if Ascii.eqb esc "\" then Some "\"%char
                else if Ascii.eqb esc "/" then Some "/"%char
                else if Ascii.eqb esc "b" then Some (ascii_of_nat 8)
                else if Ascii.eqb esc "f" then Some (ascii_of_nat 12)
                else if Ascii.eqb esc "n" then Some (ascii_of_nat 10)
                else if Ascii.eqb esc "r" then Some (ascii_of_nat 13)
                else if Ascii.eqb esc "t" then Some (ascii_of_nat 9)
                else None in
              match decoded, scanstring rest1 with
              | Some ch, Some (str, rest') => Some (String ch str, rest')
              | _, _ => None
              end
        end
      else if nat_of_ascii c <? 32 then None
      else
        match scanstring rest with
        | Some (str, rest') => Some (String c str, rest')
        | None => None
        end
  end.

(** [s[idx:idx + len(p)] == p]: the text after the prefix [p] *)
Fixpoint strip_prefix (p s : string) : option string :=
  match p with
  | EmptyString => Some s
  | String c p' =>
      match s with
      | EmptyString => None
      | String c' s' => if Ascii.eqb c c' then strip_prefix p' s' else None
      end
  end.

Definition is_digit (c : ascii) : bool :=
  let n := nat_of_ascii c in (48 <=? n) && (n <=? 57).

(** The longest run of digits at the head of [s], and the text after it *)
Fixpoint take_digits (s : string) : string * string :=
  match s with
  | EmptyString => (EmptyString, s)
  | String c s' =>
      if is_digit c
      then let '(ds, rest) := take_digits s' in (String c ds, rest)
      else (EmptyString, s)
  end.

(** [NUMBER_RE.match(s, idx)]: an optional minus sign, then either [0] or
    a digit from 1 to 9 followed by digits, then optionally a point with at
    least one digit, then optionally an exponent ([e] or [E], an optional
    sign, at least one digit); the text matched and the text after it *)
Definition match_number (s : string) : option (string * string) :=
  let '(sign, s1) :=
    match s with
    | String c s' =>
        if Ascii.eqb c "-" then (String c EmptyString, s') else (EmptyString, s)
    | EmptyString => (EmptyString, s)
    end in
  match s1 with
  | EmptyString => None
  | String c s2 =>
      if negb (is_digit c) then None
      else
        let '(int_digits, s3) :=
          if Ascii.eqb c "0" then (String c EmptyString, s2)
          else let '(ds, rest) := take_digits s2 in (String c ds, rest) in
        let '(frac, s4) :=
          match s3 with
          | String d s3' =>
              if Ascii.eqb d "." then
                match take_digits s3' with
                | (EmptyString, _) => (EmptyString, s3)
                | (ds, rest) => (String d ds, rest)
                end
              else (EmptyString, s3)
          | EmptyString => (EmptyString, s3)
          end in
        let '(exp, s5) :=
          match s4 with
          | String e s4' =>
              if Ascii.eqb e "e" || Ascii.eqb e "E" then
                let '(esign, s4'') :=
                  match s4' with
                  | String g t =>
                      if Ascii.eqb g "-" || Ascii.eqb g "+"
                      then (String g EmptyString, t) else (EmptyString, s4')
                  | EmptyString => (EmptyString, s4')
                  end in
                match take_digits s4'' with
                | (EmptyString, _) => (EmptyString, s4)
                | (ds, rest) => (String e (esign ++ ds), rest)
                end
              else (EmptyString, s4)
          | EmptyString => (EmptyString, s4)
          end in
        Some ((sign ++ int_digits ++ frac ++ exp)%string, s5)
  end.

(** [scan_once(s, idx)] of [json.scanner], with [JSONArray] and [JSONObject]
    of [json.decoder]: the value at the head of the text and the text after
    it.  The recursion is on [fuel], which [json_loads] takes large enough
    for the whole text.  The values [NaN], [Infinity] and [-Infinity] have
    no rational and are not read. *)
Fixpoint scan_once (fuel : nat) (s : string) {struct fuel}
  : option (json * string) :=
  match fuel with
  | O => None
  | S fuel' =>
      match s with
      | EmptyString => None
      | String c rest =>
          if Ascii.eqb c "034" then
            match scanstring rest with
            | Some (str, rest') => Some (JString str, rest')
            | None => None
            end
          else if Ascii.eqb c "{" then
            match skip_ws rest with
            | EmptyString => None
            | String c1 rest1 =>
                if Ascii.eqb c1 "}" then Some (JObject [], rest1)
                else if Ascii.eqb c1 "034" then parse_members fuel' rest1 []
                else None
            end
          else if Ascii.eqb c "[" then
            match skip_ws rest with
            | EmptyString => None
            | String c1 rest1 =>
                if Ascii.eqb c1 "]" then Some (JArray [], rest1)
                else parse_items fuel' (skip_ws rest) []
            end
          else
            match strip_prefix "null" s, strip_prefix "true" s,
                  strip_prefix "false" s with
            | Some rest', _, _ => Some (JNull, rest')
            | None, Some rest', _ => Some (JBool true, rest')
            | None, None, Some rest' => Some (JBool false, rest')
            | None, None, None =>
                match match_number s with
                | Some (text, rest') => Some (JNumber (float_of_string text), rest')
                | None => None
                end
            end
      end
  end
with parse_items (fuel : nat) (s : string) (acc : list json) {struct fuel}
  : option (json * string) :=
  match fuel with
  | O => None
  | S fuel' =>
      match scan_once fuel' s with
      | None => None
      | Some (v, rest) =>
          match skip_ws rest with
          | EmptyString => None
          | String c rest1 =>
              if Ascii.eqb c "]" then Some (JArray (rev (v :: acc)), rest1)
              else if Ascii.eqb c ","
                   then parse_items fuel' (skip_ws rest1) (v :: acc)
              else None
          end
      end
  end
with parse_members (fuel : nat) (s : string) (acc : list (string * json))
    {struct fuel} : option (json * string) :=
  match fuel with
  | O => None
  | S fuel' =>
      match scanstring s with
      | None => None
      | Some (key, rest) =>
          match skip_ws rest with
          | EmptyString => None
          | String c rest1 =>
              if negb (Ascii.eqb c ":") then None
              else
                match scan_once fuel' (skip_ws rest1) with
                | None => None
                | Some (v, rest2) =>
                    match skip_ws rest2 with
                    | EmptyString => None
                    | String c2 rest3 =>
                        if Ascii.eqb c2 "}"
                        then Some (JObject (rev ((key, v) :: acc)), rest3)
                        else if Ascii.eqb c2 "," then
                          match skip_ws rest3 with
                          | EmptyString => None
                          | String c3 rest4 =>
                              if Ascii.eqb c3 "034"
                              then parse_members fuel' rest4 ((key, v) :: acc)
                              else None
                          end
                        else None
                    end
                end
          end
      end
  end.

(** [json.loads(s)]: the value of the text, [None] where the decoder raises
    [JSONDecodeError] *)
Definition json_loads (s : string) : option json :=
  match scan_once (2 * String.length s + 1) (skip_ws s) with
  | None => None
  | Some (j, rest) =>
      match skip_ws rest with
      | EmptyString => Some j
      | String _ _ => None
      end
  end.

End JsonText.

(** A value without numbers *)
Fixpoint number_free (j : json) : bool :=
  match j with
  | JNumber _ => false
  | JArray items => forallb number_free items
  | JObject members =>
      forallb (fun m => let '(_, v) := m in number_free v) members
  | _ => true
  end.

(** The text that [json.dump(prot_dict, f)] writes at checkpoint 2 *)
Definition prot_dict_text (float_repr : Q -> string)
    (prot_dict : dict string slots) : string :=
  json_dumps float_repr (json_of_prot_dict prot_dict).

(** [json.load(f)] on the text of a checkpoint-2 file: the index it holds *)
Definition prot_dict_of_text (float_of_string : string -> Q) (text : string)
  : option (dict string slots) :=
  match json_loads float_of_string text with
  | Some j => prot_dict_of_json j
  | None => None
  end.

(* ===================================================================== *)
(** ** Built-ins used by the script *)
(* ===================================================================== *)

(** The order in which a Python [set] built from a list is iterated is not
    specified; every instance lists each element of the list once. *)
Class SetOrder : Type := {
  set_iter : list string -> list string;
  set_iter_NoDup : forall l, NoDup (set_iter l);
  set_iter_In : forall l x, In x (set_iter l) <-> In x l
}.

(** [len(set(l))] *)
Definition py_set_len (l : list string) : nat :=
  length (nodup string_dec l).

(** [str(n)] for an integer *)
Definition str_of_int (n : Z) : string :=
  DecimalString.NilZero.string_of_int (Z.to_int n).

(** [s.replace("_", " ")] *)
Fixpoint replace_underscores (s : string) : string :=
  match s with
  | EmptyString => EmptyString
  | String c s' =>
      String (if Ascii.eqb c "_"%char then " "%char else c)
             (replace_underscores s')
  end.

(** [s.split(sep)] for a separator of one character: the pieces between the
    occurrences of [sep], at least one piece *)
Fixpoint split_on (sep : ascii) (s : string) : list string :=
  match s with
  | EmptyString => [EmptyString]
  | String c s' =>
      if Ascii.eqb c sep then EmptyString :: split_on sep s'
      else match split_on sep s' with
           | piece :: pieces => String c piece :: pieces
           | [] => [String c EmptyString]
           end
  end.

(** [list_of_strings(arg)], the type of the arguments [-d] and [-n] *)
Definition list_of_strings (arg : string) : list string :=
  split_on ","%char arg.

Local Open Scope string_scope.

(** The sentinel of an unassigned slot *)
Definition sentinel : string := "-".

(* ===================================================================== *)
(** ** The script: global variables *)
(* ===================================================================== *)

(** The parsed command line *)
Record Args : Type := {
  run_all : bool;
  checkpoint_num : option nat;
  input_json : option string;
  test_identifier : option string;
  membership_percent : Z;
  out_name : string;
  input_files : option (list string);
  program_names : option (list string)
}.

(** The global variables set in Part 1 of the script *)
Record Globals : Type := {
  run_identifier : string;
  program_list : list string;
  percent : Z;
  membership_results : string
}.

(** [program_list[i]]; the script reads indices 0 to 3 at start-up, so the
    list has at least four names whenever a stage runs. *)
Definition program_name (G : Globals) (i : nat) : string :=
  nth i (program_list G) "".

(** A [pandas.DataFrame] with the two columns ['Query', <program>_OG]: its
    rows in order. *)
Definition DataFrame : Type := list (string * string).

(* ===================================================================== *)
(** ** The script: Part 2, the functions *)
(* ===================================================================== *)

Section Stages.
Context {SO : SetOrder}.
Variable float_repr : Q -> string.
Variable G : Globals.

Local Open Scope py_scope.

(** [pd.DataFrame([(key, var) for (key, L) in prog_dict.items() for var in L],
    columns=[colname, 'Query'])], with the columns then swapped *)
Definition dataframe_of (prog_dict : dict string (list string)) : DataFrame :=
  flat_map (fun e => map (fun var => (var, fst e)) (snd e)) prog_dict.

Definition data_2_pandas (prog1_input prog2_input prog3_input prog4_input : string)
  : IO (DataFrame * dict string (list string) *
        (DataFrame * dict string (list string)) *
        (DataFrame * dict string (list string)) *
        (DataFrame * dict string (list string))) :=
  prog1_dict <~ json_load clusters_of_json prog1_input ;;
  prog2_dict <~ json_load clusters_of_json prog2_input ;;
  prog3_dict <~ json_load clusters_of_json prog3_input ;;
  prog4_dict <~ json_load clusters_of_json prog4_input ;;
  io_ret (dataframe_of prog1_dict, prog1_dict,
          (dataframe_of prog2_dict, prog2_dict),
          (dataframe_of prog3_dict, prog3_dict),
          (dataframe_of prog4_dict, prog4_dict)).

(** [df['Query'].to_list()] *)
Definition queries (df : DataFrame) : list string := map fst df.

(** [df.loc[df['Query'] == prot, colname]]: the OG column of the rows whose
    query is [prot] *)
Definition loc_query (df : DataFrame) (prot : string) : list string :=
  map snd (filter (fun row => String.eqb (fst row) prot) df).

(** [series.iloc[0]] *)
Definition iloc0 (series : list string) : result string :=
  match series with
  | x :: _ => ret x
  | [] => raise IndexError
  end.

(** [prog_og = "-"; if prot in prog_queries: prog_og = df.loc[...].iloc[0]] *)
Definition og_of (df : DataFrame) (prog_queries : list string) (prot : string)
  : result string :=
  if py_in prot prog_queries then iloc0 (loc_query df prot)
  else ret sentinel.

(** The loop [for prot in tqdm(prot_queries)] of [create_prot_dict] *)
Fixpoint prot_dict_loop (prog1_df prog2_df prog3_df prog4_df : DataFrame)
    (prot_queries : list string) (prot_dict : dict string slots)
  : result (dict string slots) :=
  match prot_queries with
  | [] => ret prot_dict
  | prot :: rest =>
      prog1_og <- og_of prog1_df (queries prog1_df) prot ;;
      prog2_og <- og_of prog2_df (queries prog2_df) prot ;;
      prog3_og <- og_of prog3_df (queries prog3_df) prot ;;
      prog4_og <- og_of prog4_df (queries prog4_df) prot ;;
      prot_dict_loop prog1_df prog2_df prog3_df prog4_df rest
        (dict_set prot_dict prot
           (mk_slots prog1_og prog2_og prog3_og prog4_og))
  end.

Definition create_prot_dict (prog1_df prog2_df prog3_df prog4_df : DataFrame)
  : IO (dict string slots) :=
  let prot_queries :=
    set_iter (queries prog1_df ++ queries prog2_df ++
              queries prog3_df ++ queries prog4_df)%list in
  prot_dict <~ lift (prot_dict_loop prog1_df prog2_df prog3_df prog4_df
                       prot_queries []) ;;
  _ <~ json_dump ("prot_dict_" ++ run_identifier G ++ ".json")
         (json_of_prot_dict prot_dict) ;;
  io_ret prot_dict.

(** The first loop of [filter_prot_dict]; [prot_dict[key]] for a key taken
    from [prot_dict.keys()] is the value paired with the key. *)
Definition remove_list_of (prot_dict : dict string slots) : list string :=
  dict_keys
    (filter (fun e => Nat.eqb (py_set_len (slots_list (snd e))) 2) prot_dict).

(** The second loop of [filter_prot_dict] *)
Fixpoint filt_loop (remove_list : list string) (items : dict string slots)
    (filt_prot_dict : dict string slots) : dict string slots :=
  match items with
  | [] => filt_prot_dict
  | (key, v) :: items' =>
      filt_loop remove_list items'
        (if negb (py_in key remove_list) then dict_set filt_prot_dict key v
         else filt_prot_dict)
  end.

Definition filter_loops (prot_dict : dict string slots) : dict string slots :=
  filt_loop (remove_list_of prot_dict) prot_dict [].

Definition filter_prot_dict (prot_dict : dict string slots)
  : IO (dict string slots) :=
  let filt_prot_dict := filter_loops prot_dict in
  _ <~ json_dump ("filt_prot_dict_" ++ run_identifier G ++ ".json")
         (json_of_prot_dict filt_prot_dict) ;;
  io_ret filt_prot_dict.

(** [program_list[i] + '_vs_' + program_list[j]] *)
Definition comparison_name (i j : nat) : string :=
  program_name G i ++ "_vs_" ++ program_name G j.

Definition comparison_1_name := comparison_name 0 1.
Definition comparison_2_name := comparison_name 0 2.
Definition comparison_3_name := comparison_name 0 3.
Definition comparison_4_name := comparison_name 1 2.
Definition comparison_5_name := comparison_name 1 3.
Definition comparison_6_name := comparison_name 2 3.

(** The six keys with empty lists, set in this order *)
Definition empty_comparison_dict : dict string (list Q) :=
  fold_left (fun d name => dict_set d name [])
    [comparison_1_name; comparison_2_name; comparison_3_name;
     comparison_4_name; comparison_5_name; comparison_6_name] [].

(** [comparison_dict[name].append(x)] *)
Definition dict_append (comparison_dict : dict string (list Q))
    (name : string) (x : Q) : result (dict string (list Q)) :=
  l <- py_getitem comparison_dict name ;;
  ret (dict_set comparison_dict name (l ++ [x])%list).

(** One [if] block of the comparison loop, once its test has passed:
    the cluster [first_og] is resolved in [first_dict], then [second_og]
    in [second_dict], and the matcher is built with the two member lists
    in this order. *)
Definition compare_block (name : string)
    (first_og : string) (first_dict : dict string (list string))
    (second_og : string) (second_dict : dict string (list string))
    (comparison_dict : dict string (list Q))
  : result (dict string (list Q)) :=
  first_compare <- py_getitem first_dict first_og ;;
  second_compare <- py_getitem second_dict second_og ;;
  dict_append comparison_dict name (ratio first_compare second_compare).

(** [x != "-"] *)
Definition assigned (og : string) : bool := negb (String.eqb og sentinel).

(** The body of the loop [for key in tqdm(filt_prot_dict.keys())] *)
Definition membership_body
    (prog1_dict prog2_dict prog3_dict prog4_dict : dict string (list string))
    (r : slots) (cd : dict string (list Q)) : result (dict string (list Q)) :=
  cd <- (if assigned (slot0 r) && assigned (slot1 r)
         then compare_block comparison_1_name
                (slot0 r) prog1_dict (slot1 r) prog2_dict cd
         else ret cd) ;;
  cd <- (if assigned (slot0 r) && assigned (slot2 r)
         then compare_block comparison_2_name
                (slot0 r) prog1_dict (slot2 r) prog3_dict cd
         else ret cd) ;;
  cd <- (if assigned (slot0 r) && assigned (slot3 r)
         then compare_block comparison_3_name
                (slot0 r) prog1_dict (slot3 r) prog4_dict cd
         else ret cd) ;;
  cd <- (if assigned (slot1 r) && assigned (slot2 r)
         then compare_block comparison_4_name
                (slot2 r) prog3_dict (slot1 r) prog2_dict cd
         else ret cd) ;;
  cd <- (if assigned (slot1 r) && assigned (slot3 r)
         then compare_block comparison_5_name
                (slot3 r) prog4_dict (slot1 r) prog2_dict cd
         else ret cd) ;;
  (if assigned (slot2 r) && assigned (slot3 r)
   then compare_block comparison_6_name
          (slot2 r) prog3_dict (slot3 r) prog4_dict cd
   else ret cd).

Fixpoint membership_loop
    (prog1_dict prog2_dict prog3_dict prog4_dict : dict string (list string))
    (items : dict string slots) (cd : dict string (list Q))
  : result (dict string (list Q)) :=
  match items with
  | [] => ret cd
  | (_, r) :: items' =>
      cd <- membership_body prog1_dict prog2_dict prog3_dict prog4_dict r cd ;;
      membership_loop prog1_dict prog2_dict prog3_dict prog4_dict items' cd
  end.

Definition membership_test (filt_prot_dict : dict string slots)
    (prog1_dict prog2_dict prog3_dict prog4_dict : dict string (list string))
  : IO (dict string (list Q)) :=
  comparison_dict <~ lift (membership_loop prog1_dict prog2_dict prog3_dict
                             prog4_dict filt_prot_dict empty_comparison_dict) ;;
  _ <~ json_dump ("compare_OG_dict_" ++ run_identifier G ++ ".json")
         (json_of_comparison_dict comparison_dict) ;;
  io_ret comparison_dict.

(** The loop of [avg_membership_scores] *)
Fixpoint avg_loop (items : dict string (list Q)) (og_score_dict : dict string Q)
  : result (dict string Q) :=
  match items with
  | [] => ret og_score_dict
  | (key, scores) :: items' =>
      og_score_avg <- mean scores ;;
      avg_loop items' (dict_set og_score_dict key og_score_avg)
  end.

Definition avg_membership_scores (comparison_dict : dict string (list Q))
  : IO (dict string Q) :=
  og_score_dict <~ lift (avg_loop comparison_dict []) ;;
  _ <~ json_dump ("og_score_dict_" ++ run_identifier G ++ ".json")
         (json_of_score_dict og_score_dict) ;;
  io_ret og_score_dict.

(** [float(args.membership_percent)/100] *)
Definition membership_decimal : Q := Qred (percent G # 100).

Fixpoint threshold_loop (items : dict string Q) (threshold_dict : dict string Q)
  : dict string Q :=
  match items with
  | [] => threshold_dict
  | (key, v) :: items' =>
      threshold_loop items'
        (if Qle_bool membership_decimal v then dict_set threshold_dict key v
         else threshold_dict)
  end.

Definition threshold_test (og_score_dict : dict string Q) : dict string Q :=
  threshold_loop og_score_dict [].

(** *** Part 4: the final report *)

Definition too_high_line : string :=
  "The given threshold value of " ++ str_of_int (percent G) ++
  "% is too high. No OG comparisons met this criteria.".

Definition header_line : string :=
  "The orthologous clustering similarity comparisons that met the desired threshold value of "
  ++ str_of_int (percent G) ++ "% are listed below:" ++ String "010" (String "010" "").

Definition report_line (key : string) (v : Q) : string :=
  let key_clean := replace_underscores key in
  "For the " ++ key_clean ++ " comparison, the average score value is: "
  ++ float_repr v ++ String "010" "".

(** Everything written to [outfile] *)
Definition report_text (threshold_dict : dict string Q) : string :=
  match threshold_dict with
  | [] => too_high_line
  | _ :: _ =>
      header_line ++
      String.concat "" (map (fun e => report_line (fst e) (snd e)) threshold_dict)
  end.

Definition write_report (threshold_dict : dict string Q) : IO unit :=
  write_text (membership_results G) (report_text threshold_dict).
End Stages.

(* ===================================================================== *)
(** ** The script: start-up and Part 3, execution *)
(* ===================================================================== *)

Section Main.
Context {SO : SetOrder}.
Variable float_repr : Q -> string.
(** [datetime.now().strftime("%d-%m-%Y--%H%M%S")] *)
Variable now : string.

Local Open Scope py_scope.

(** Truth values of the optional arguments *)
Definition given_list (o : option (list string)) : bool :=
  match o with Some (_ :: _) => true | _ => false end.
Definition given_str (o : option string) : bool :=
  match o with Some (String _ _) => true | _ => false end.
Definition given_num (o : option nat) : bool :=
  match o with Some (S _) => true | _ => false end.
Definition given_file (o : option string) : bool :=
  match o with Some _ => true | None => false end.

(** "Sanity Check Provided Arguments" *)
Definition sanity_checks (args : Args) : result unit :=
  if run_all args && negb (given_list (input_files args))
  then raise (SystemExit "-d is required when -a is set")
  else if given_num (checkpoint_num args) then
    if match checkpoint_num args with Some 2 => true | _ => false end
       && negb (given_list (input_files args))
    then raise (SystemExit "-d is required when running -c 2 or -c 3")
    else if negb (given_file (input_json args))
    then raise (SystemExit "-j is required when -c is set")
    else if negb (given_str (test_identifier args))
    then raise (SystemExit "-i is required when -c is set")
    else ret tt
  else ret tt.

Definition default_program_list : list string :=
  ["Program_1"; "Program_2"; "Program_3"; "Program_4"].

(** Part 1: the identifier, the program names (indices 0 to 3 are read
    for the column names), and the name of the final output file. *)
Definition set_globals (args : Args) : result Globals :=
  let run_identifier :=
    match test_identifier args with
    | Some (String c s) => String c s
    | _ => now
    end in
  let program_list :=
    match program_names args with
    | Some (n :: l) => n :: l
    | _ => default_program_list
    end in
  if Nat.ltb (length program_list) 4 then raise IndexError
  else ret {| run_identifier := run_identifier;
              program_list := program_list;
              percent := membership_percent args;
              membership_results :=
                out_name args ++ "__" ++ str_of_int (membership_percent args)
                ++ ".txt" |}.

(** [db_list = args.input_files; progN_input = db_list[N-1]] *)
Definition db_inputs (args : Args) : result (string * string * string * string) :=
  match input_files args with
  | None => raise TypeError
  | Some (p1 :: p2 :: p3 :: p4 :: _) => ret (p1, p2, p3, p4)
  | Some _ => raise IndexError
  end.

(** [args.input_json.name] *)
Definition input_json_name (args : Args) : result string :=
  match input_json args with
  | Some name => ret name
  | None => raise AttributeError
  end.

(** Part 3A *)
Definition run_all_branch (G : Globals) (args : Args) : IO (dict string Q) :=
  inputs <~ lift (db_inputs args) ;;
  let '(prog1_input, prog2_input, prog3_input, prog4_input) := inputs in
  loaded <~ data_2_pandas prog1_input prog2_input prog3_input prog4_input ;;
  let '(prog1_df, prog1_dict, (prog2_df, prog2_dict),
        (prog3_df, prog3_dict), (prog4_df, prog4_dict)) := loaded in
  prot_dict <~ create_prot_dict G prog1_df prog2_df prog3_df prog4_df ;;
  filt_prot_dict <~ filter_prot_dict G prot_dict ;;
  comparison_dict <~ membership_test G filt_prot_dict
                       prog1_dict prog2_dict prog3_dict prog4_dict ;;
  og_score_dict <~ avg_membership_scores G comparison_dict ;;
  io_ret (threshold_test G og_score_dict).

(** Part 3B, [args.checkpoint_num == 2] *)
Definition checkpoint_2_branch (G : Globals) (args : Args) : IO (dict string Q) :=
  inputs <~ lift (db_inputs args) ;;
  let '(prog1_input, prog2_input, prog3_input, prog4_input) := inputs in
  name <~ lift (input_json_name args) ;;
  prot_dict <~ json_load prot_dict_of_json name ;;
  prog1_dict <~ json_load clusters_of_json prog1_input ;;
  prog2_dict <~ json_load clusters_of_json prog2_input ;;
  prog3_dict <~ json_load clusters_of_json prog3_input ;;
  prog4_dict <~ json_load clusters_of_json prog4_input ;;
  filt_prot_dict <~ filter_prot_dict G prot_dict ;;
  comparison_dict <~ membership_test G filt_prot_dict
                       prog1_dict prog2_dict prog3_dict prog4_dict ;;
  og_score_dict <~ avg_membership_scores G comparison_dict ;;
  io_ret (threshold_test G og_score_dict).

(** Part 3B, [args.checkpoint_num == 3] *)
Definition checkpoint_3_branch (G : Globals) (args : Args) : IO (dict string Q) :=
  inputs <~ lift (db_inputs args) ;;
  let '(prog1_input, prog2_input, prog3_input, prog4_input) := inputs in
  name <~ lift (input_json_name args) ;;
  filt_prot_dict <~ json_load prot_dict_of_json name ;;
  prog1_dict <~ json_load clusters_of_json prog1_input ;;
  prog2_dict <~ json_load clusters_of_json prog2_input ;;
  prog3_dict <~ json_load clusters_of_json prog3_input ;;
  prog4_dict <~ json_load clusters_of_json prog4_input ;;
  comparison_dict <~ membership_test G filt_prot_dict
                       prog1_dict prog2_dict prog3_dict prog4_dict ;;
  og_score_dict <~ avg_membership_scores G comparison_dict ;;
  io_ret (threshold_test G og_score_dict).

(** Part 3B, [args.checkpoint_num == 4] *)
Definition checkpoint_4_branch (G : Globals) (args : Args) : IO (dict string Q) :=
  name <~ lift (input_json_name args) ;;
  comparison_dict <~ json_load comparison_dict_of_json name ;;
  og_score_dict <~ avg_membership_scores G comparison_dict ;;
  io_ret (threshold_test G og_score_dict).

(** Part 3B, [args.checkpoint_num == 5] *)
Definition checkpoint_5_branch (G : Globals) (args : Args) : IO (dict string Q) :=
  name <~ lift (input_json_name args) ;;
  og_score_dict <~ json_load score_dict_of_json name ;;
  io_ret (threshold_test G og_score_dict).

(** Parts 3 and 4.  The argument parser makes [--run_all] and
    [--checkpoint] mutually exclusive and admits the checkpoints 2 to 5
    only; with neither branch taken [threshold_dict] is unbound. *)
Definition execute (G : Globals) (args : Args) : IO (dict string Q) :=
  if run_all args then run_all_branch G args
  else match checkpoint_num args with
       | Some 2 => checkpoint_2_branch G args
       | Some 3 => checkpoint_3_branch G args
       | Some 4 => checkpoint_4_branch G args
       | Some 5 => checkpoint_5_branch G args
       | _ => io_raise NameError
       end.

Definition main (args : Args) : IO unit :=
  _ <~ lift (sanity_checks args) ;;
  G <~ lift (set_globals args) ;;
  threshold_dict <~ execute G args ;;
  write_report float_repr G threshold_dict.
End Main.

(** The iteration order that lists the elements by first occurrence *)
#[export] Instance first_occurrence_order : SetOrder := {|
  set_iter := fun l => rev (nodup string_dec (rev l));
  set_iter_NoDup := fun l => NoDup_rev (NoDup_nodup string_dec (rev l));
  set_iter_In := fun l x =>
    iff_trans (iff_sym (in_rev (nodup string_dec (rev l)) x))
      (iff_trans (nodup_In string_dec (rev l) x) (iff_sym (in_rev l x)))
|}.

(* ===================================================================== *)
(** * The scripts of [PublicationSupplement]

    [checkFASTA_dupes.py] and [subsample_list.py] read and write text
    files.  The store maps the name of a file to its text; a character
    stands for the code point of the same number. *)
(* ===================================================================== *)

Definition texts : Type := dict string string.

Inductive py_error : Type :=
| FileNotFound (name : string)
| ValueError
| StopIteration
| ArgvIndexError.

Definition TIO (A : Type) : Type := texts -> (py_error + A) * texts.

Definition tio_ret {A} (x : A) : TIO A := fun fs => (inr x, fs).
Definition tio_raise {A} (e : py_error) : TIO A := fun fs => (inl e, fs).
Definition tio_bind {A B} (m : TIO A) (f : A -> TIO B) : TIO B :=
  fun fs => match m fs with
            | (inl e, fs') => (inl e, fs')
            | (inr x, fs') => f x fs'
            end.
Definition tio_lift {A} (r : py_error + A) : TIO A := fun fs => (r, fs).

Notation "x <~~ m ;; k" := (tio_bind m (fun x => k))
  (at level 61, m at next level, right associativity) : py_scope.

(** [open(name, "r")] followed by reading the file: its text *)
Definition open_read (name : string) : TIO string :=
  fun fs => match dict_get fs name with
            | Some text => (inr text, fs)
            | None => (inl (FileNotFound name), fs)
            end.

(** [open(name, "w")]: the file is created or emptied *)
Definition open_write (name : string) : TIO unit :=
  fun fs => (inr tt, dict_set fs name "").

(** [outfile.write(text)] on a file opened for writing *)
Definition file_write (name : string) (text : string) : TIO unit :=
  fun fs => (inr tt, dict_set fs name (dict_get_default fs name "" ++ text)).

(** [c.isspace()] for the code points below 256 *)
Definition is_space (c : ascii) : bool :=
  let n := nat_of_ascii c in
  (Nat.leb 9 n && Nat.leb n 13) || (Nat.leb 28 n && Nat.leb n 32)
  || Nat.eqb n 133 || Nat.eqb n 160.

Fixpoint lstrip (s : string) : string :=
  match s with
  | EmptyString => EmptyString
  | String c s' => if is_space c then lstrip s' else s
  end.

Fixpoint rstrip (s : string) : string :=
  match s with
  | EmptyString => EmptyString
  | String c s' =>
      match rstrip s' with
      | EmptyString => if is_space c then EmptyString else String c EmptyString
      | String c' t => String c (String c' t)
      end
  end.

(** [s.strip()] *)
Definition py_strip (s : string) : string := rstrip (lstrip s).

(** The newlines of a file read in text mode: [\r\n] and [\r] become
    [\n]. *)
Fixpoint universal_newlines (s : string) : string :=
  match s with
  | EmptyString => EmptyString
  | String c s' =>
      if Ascii.eqb c "013" then
        match s' with
        | String c' s'' =>
            if Ascii.eqb c' "010" then String "010" (universal_newlines s'')
            else String "010" (universal_newlines s')
        | EmptyString => String "010" EmptyString
        end
      else String c (universal_newlines s')
  end.

(** The lines of a text, each with its newline, the last one possibly
    without *)
Fixpoint split_lines (s : string) : list string :=
  match s with
  | EmptyString => []
  | String c s' =>
      if Ascii.eqb c "010" then String c EmptyString :: split_lines s'
      else match split_lines s' with
           | [] => [String c EmptyString]
           | line :: lines => String c line :: lines
           end
  end.

(** [for line in infile], for a file opened in text mode *)
Definition lines_of (text : string) : list string :=
  split_lines (universal_newlines text).

(* ===================================================================== *)
(** ** checkFASTA_dupes.py *)
(* ===================================================================== *)

(** [".".join(input_file.split('.')[:-1]) + suffix] *)
Definition output_file (input_file suffix : string) : string :=
  String.concat "." (removelast (split_on "."%char input_file)) ++ suffix.

(** [line.startswith(">")] *)
Definition is_header (line : string) : bool :=
  match line with
  | String c _ => Ascii.eqb c ">"
  | EmptyString => false
  end.

(** The loop [for line in search_file] over the lines that are left:
    [next(search_file)] takes the line after a matching header, and
    raises [StopIteration] when there is none. *)
Fixpoint scan_file (lines : list string) (dupe_header : string)
    (seq_list : list string) : py_error + list string :=
  match lines with
  | [] => inr seq_list
  | line :: rest =>
      if is_header line then
        let header := py_strip line in
        if String.eqb header dupe_header then
          match rest with
          | [] => inl StopIteration
          | next_line :: rest' =>
              let sequence := py_strip next_line in
              scan_file rest' dupe_header (seq_list ++ [sequence])%list
          end
        else scan_file rest dupe_header seq_list
      else scan_file rest dupe_header seq_list
  end.

Section CheckFASTA.
Local Open Scope py_scope.

(** The body of the loop over the rows of [ref_df], for the row with the
    cells [seq_header] and [origin_file] *)
Definition check_row (output_file_dupes output_file_diffs : string)
    (row : string * string) : TIO unit :=
  let '(seq_header, source_file) := row in
  let dupe_header := String ">" seq_header in
  text <~~ open_read source_file ;;
  seq_list <~~ tio_lift (scan_file (lines_of text) dupe_header []) ;;
  let uniq_dupes := py_set_len seq_list in
  if Nat.eqb uniq_dupes 1
  then file_write output_file_dupes (seq_header ++ String "010" "")
  else if Nat.ltb 1 uniq_dupes
  then file_write output_file_diffs (seq_header ++ String "010" "")
  else tio_ret tt.

Fixpoint check_rows (output_file_dupes output_file_diffs : string)
    (rows : list (string * string)) : TIO unit :=
  match rows with
  | [] => tio_ret tt
  | row :: rows' =>
      _ <~~ check_row output_file_dupes output_file_diffs row ;;
      check_rows output_file_dupes output_file_diffs rows'
  end.

(** The script, for the table [ref_df] that [pd.read_csv] returns for the
    input file: its rows, both cells being strings.  A file named in the
    table is read as it was before the run; the model follows the script as
    long as no such file is one of the two output files. *)
Definition checkFASTA_dupes (input_file : string)
    (ref_df : list (string * string)) : TIO unit :=
  let output_file_dupes := output_file input_file "_True.txt" in
  let output_file_diffs := output_file input_file "_False.txt" in
  _ <~~ open_read input_file ;;
  _ <~~ open_write output_file_dupes ;;
  _ <~~ open_write output_file_diffs ;;
  check_rows output_file_dupes output_file_diffs ref_df.
End CheckFASTA.

(* ===================================================================== *)
(** ** subsample_list.py *)
(* ===================================================================== *)

(** [random.seed(seed); random.sample(population, k)] for [k] between 0 and
    the size of the population: the elements at [k] different positions of
    the population, in some order that the seed determines. *)
Class Sampler : Type := {
  sample : Z -> list string -> nat -> list string;
  sample_positions : forall seed population k,
    (k <= length population)%nat ->
    exists positions,
      NoDup positions /\
      Forall (fun i => (i < length population)%nat) positions /\
      length positions = k /\
      sample seed population k = map (fun i => nth i population "") positions
}.

Section Subsample.
Context {SA : Sampler}.
(** [int(s)], [None] where it raises [ValueError] *)
Variable py_int : string -> option Z.
Local Open Scope py_scope.

(** [sys.argv[i]] *)
Definition argv_get (argv : list string) (i : nat) : TIO string :=
  match nth_error argv i with
  | Some arg => tio_ret arg
  | None => tio_raise ArgvIndexError
  end.

(** [int(sys.argv[i])] *)
Definition argv_int (argv : list string) (i : nat) : TIO Z :=
  arg <~~ argv_get argv i ;;
  match py_int arg with
  | Some n => tio_ret n
  | None => tio_raise ValueError
  end.

(** [random.seed(seed_no); random.sample(file_list, out_count)] *)
Definition random_sample (seed_no : Z) (file_list : list string) (out_count : Z)
  : py_error + list string :=
  if (out_count <? 0)%Z || (Z.of_nat (length file_list) <? out_count)%Z
  then inl ValueError
  else inr (sample seed_no file_list (Z.to_nat out_count)).

Definition subsample_list (argv : list string) : TIO unit :=
  input_list <~~ argv_get argv 1 ;;
  output_name <~~ argv_get argv 2 ;;
  seed_no <~~ argv_int argv 3 ;;
  out_count <~~ argv_int argv 4 ;;
  let required_file :=
    if Nat.eqb (length argv) 6 then nth_error argv 5 else None in
  text <~~ open_read input_list ;;
  let file_list := map py_strip (lines_of text) in
  let file_list :=
    match required_file with
    | Some required => filter (fun i => negb (String.eqb i required)) file_list
    | None => file_list
    end in
  let out_count :=
    match required_file with
    | Some _ => (out_count - 1)%Z
    | None => out_count
    end in
  out_list <~~ tio_lift (random_sample seed_no file_list out_count) ;;
  _ <~~ open_write output_name ;;
  _ <~~ (match required_file with
          | Some required => file_write output_name (required ++ String "010" "")
          | None => tio_ret tt
          end) ;;
  fold_left
    (fun (m : TIO unit) (j : string) =>
       _ <~~ m ;; file_write output_name (j ++ String "010" ""))
    out_list (tio_ret tt).
End Subsample.

(** The sampler that takes the first [k] elements *)
#[export] Instance first_elements_sampler : Sampler.
Proof.
  refine {| sample := fun _ population k => firstn k population |}.
  intros seed population k Hk. exists (seq 0 k).
  split; [apply seq_NoDup|]. split; [|split; [apply length_seq|]].
  - apply Forall_forall. intros i Hi. apply in_seq in Hi.
    apply Nat.lt_le_trans with (m := k); [apply Hi|exact Hk].
  - revert k Hk. induction population as [|x l IH]; intros k Hk.
    + simpl in Hk. destruct k; [reflexivity|inversion Hk].
    + destruct k as [|k]; [reflexivity|].
      simpl. rewrite <- seq_shift, map_map. f_equal.
      apply IH. simpl in Hk. now apply le_S_n.
Defined.

(* ===================================================================== *)
(** * Part II. Properties *)
(* ===================================================================== *)

Local Open Scope list_scope.
Local Open Scope nat_scope.

(** ** Dictionaries *)

Section DictFacts.
Context {K V : Type} `{EqDecB K}.
Implicit Types (d : dict K V) (k : K) (v : V).

Lemma keqb_refl k : keqb k k = true.
Proof. destruct (keqb_spec k k); congruence. Qed.

Lemma keqb_neq k k' : k <> k' -> keqb k k' = false.
Proof. destruct (keqb_spec k k'); congruence. Qed.

Lemma dict_get_set_same d k v : dict_get (dict_set d k v) k = Some v.
Proof.
  induction d as [|[k' v'] d IH]; simpl.
  - now rewrite keqb_refl.
  - destruct (keqb_spec k k') as [->|Hne]; simpl.
    + now rewrite keqb_refl.
    + now rewrite keqb_neq.
Qed.

Lemma dict_get_set_other d k k' v :
  k <> k' -> dict_get (dict_set d k v) k' = dict_get d k'.
Proof.
  intros Hne. induction d as [|[k0 v0] d IH]; simpl.
  - rewrite keqb_neq; congruence.
  - destruct (keqb_spec k k0) as [->|Hne0]; simpl.
    + rewrite keqb_neq; congruence.
    + now rewrite IH.
Qed.

Lemma dict_get_None d k : dict_get d k = None <-> ~ In k (dict_keys d).
Proof.
  induction d as [|[k' v'] d IH]; simpl.
  - tauto.
  - destruct (keqb_spec k k') as [->|Hne].
    + split; [discriminate | tauto].
    + rewrite IH. intuition congruence.
Qed.

Lemma dict_get_Some_In d k v : dict_get d k = Some v -> In (k, v) d.
Proof.
  induction d as [|[k' v'] d IH]; simpl; [discriminate|].
  destruct (keqb_spec k k') as [->|Hne]; intros E.
  - left. congruence.
  - right. auto.
Qed.

Lemma dict_get_Some_key d k v : dict_get d k = Some v -> In k (dict_keys d).
Proof.
  intros E. apply dict_get_Some_In in E.
  apply (in_map fst) in E. exact E.
Qed.

Lemma dict_get_In d k v : dict_wf d -> In (k, v) d -> dict_get d k = Some v.
Proof.
  unfold dict_wf. induction d as [|[k' v'] d IH]; simpl; [tauto|].
  intros Hnd [E|Hin].
  - inversion E; subst. now rewrite keqb_refl.
  - inversion Hnd; subst.
    destruct (keqb_spec k k') as [->|Hne]; [|auto].
    exfalso. apply H2. apply (in_map fst) in Hin. exact Hin.
Qed.

Lemma dict_set_fresh d k v :
  ~ In k (dict_keys d) -> dict_set d k v = d ++ [(k, v)].
Proof.
  induction d as [|[k' v'] d IH]; simpl; [reflexivity|].
  intros Hn. rewrite keqb_neq by intuition congruence.
  rewrite IH; tauto.
Qed.

Lemma dict_keys_set_present d k v :
  In k (dict_keys d) -> dict_keys (dict_set d k v) = dict_keys d.
Proof.
  induction d as [|[k' v'] d IH]; simpl; [tauto|].
  intros Hin. destruct (keqb_spec k k') as [->|Hne]; simpl; [reflexivity|].
  f_equal. apply IH. intuition congruence.
Qed.

Lemma dict_keys_set_In d k v k' :
  In k' (dict_keys (dict_set d k v)) <-> k' = k \/ In k' (dict_keys d).
Proof.
  induction d as [|[k0 v0] d IH]; simpl.
  - intuition.
  - destruct (keqb_spec k k0) as [->|Hne]; simpl.
    + intuition.
    + rewrite IH. intuition.
Qed.

Lemma dict_wf_set d k v : dict_wf d -> dict_wf (dict_set d k v).
Proof.
  unfold dict_wf. induction d as [|[k' v'] d IH]; simpl; intros Hnd.
  - constructor; [simpl; tauto | constructor].
  - inversion Hnd; subst.
    destruct (keqb_spec k k') as [->|Hne]; simpl.
    + constructor; assumption.
    + constructor; [|auto].
      intros Hin. apply dict_keys_set_In in Hin. intuition congruence.
Qed.

Lemma dict_set_same_value d k v :
  dict_get d k = Some v -> dict_set d k v = d.
Proof.
  induction d as [|[k' v'] d IH]; simpl; [discriminate|].
  destruct (keqb_spec k k') as [->|Hne]; intros E.
  - congruence.
  - now rewrite IH.
Qed.

(** Two dictionaries with the same keys in the same order and the same
    values are equal. *)
Lemma dict_ext d1 d2 :
  dict_wf d1 -> dict_keys d1 = dict_keys d2 ->
  (forall k, dict_get d1 k = dict_get d2 k) -> d1 = d2.
Proof.
  unfold dict_wf. revert d2.
  induction d1 as [|[k1 v1] d1 IH]; intros [|[k2 v2] d2]; simpl;
    try discriminate; [reflexivity|].
  intros Hnd Hk Hg. injection Hk as Ek Hk'. subst k2.
  apply NoDup_cons_iff in Hnd. destruct Hnd as [Hnot Hnd].
  pose proof (Hg k1) as E. rewrite keqb_refl in E. inversion E; subst.
  f_equal. apply IH; [assumption|assumption|].
  intros k0. specialize (Hg k0).
  destruct (keqb_spec k0 k1) as [E0|Hne]; [subst k0|exact Hg].
  transitivity (@None V).
  - apply dict_get_None. assumption.
  - symmetry. apply dict_get_None. rewrite <- Hk'. assumption.
Qed.

Lemma dict_set_In d k v k' v' :
  In (k', v') (dict_set d k v) -> (k' = k /\ v' = v) \/ In (k', v') d.
Proof.
  induction d as [|[k0 v0] d IH]; simpl.
  - intros [E|[]]. inversion E. now left.
  - destruct (keqb_spec k k0) as [E0|Hne]; simpl.
    + subst k0. intros [E|Hin]; [inversion E; now left | right; now right].
    + intros [E|Hin]; [right; now left|].
      destruct (IH Hin) as [Hl|Hr]; [now left | right; now right].
Qed.

Lemma dict_wf_filter (f : K * V -> bool) d : dict_wf d -> dict_wf (filter f d).
Proof.
  unfold dict_wf. induction d as [|e d IH]; simpl; intros Hnd; [constructor|].
  inversion Hnd; subst. destruct (f e); simpl; [|auto].
  constructor; [|auto].
  intros Hin. apply H2. unfold dict_keys in *.
  apply in_map_iff in Hin. destruct Hin as [x [Ex Hx]].
  apply filter_In in Hx. apply in_map_iff. exists x. tauto.
Qed.

Lemma py_in_In (x : K) (l : list K) : py_in x l = true <-> In x l.
Proof.
  unfold py_in. rewrite existsb_exists. split.
  - intros [y [Hy E]]. destruct (keqb_spec x y); congruence.
  - intros Hin. exists x. split; [assumption | apply keqb_refl].
Qed.

Lemma py_in_false (x : K) (l : list K) : py_in x l = false <-> ~ In x l.
Proof.
  rewrite <- py_in_In. destruct (py_in x l); intuition congruence.
Qed.
End DictFacts.

(** ** The Index Filter *)

Section FilterFacts.
Context {SO : SetOrder}.

(** The test the filter applies to a record: [len(set(record)) == 2] *)
Definition two_distinct (r : slots) : bool :=
  Nat.eqb (py_set_len (slots_list r)) 2.

(** The number of slots that differ from the sentinel *)
Definition non_sentinel_count (r : slots) : nat :=
  length (filter assigned (slots_list r)).

Lemma filt_loop_fresh remove_list items acc :
  dict_wf (acc ++ items) ->
  filt_loop remove_list items acc =
  acc ++ filter (fun e => negb (py_in (fst e) remove_list)) items.
Proof.
  revert acc. induction items as [|[key v] items IH]; intros acc Hwf; simpl.
  - now rewrite app_nil_r.
  - assert (Hfresh : ~ In key (dict_keys acc)).
    { unfold dict_wf, dict_keys in *. rewrite map_app in Hwf. simpl in Hwf.
      apply NoDup_remove_2 in Hwf. intros Hin. apply Hwf.
      apply in_or_app. now left. }
    destruct (py_in key remove_list); simpl.
    + apply IH. unfold dict_wf, dict_keys in *.
      rewrite map_app in *. simpl in Hwf.
      apply NoDup_remove_1 in Hwf. exact Hwf.
    + rewrite dict_set_fresh by assumption.
      rewrite IH.
      * now rewrite <- app_assoc.
      * now rewrite <- app_assoc.
Qed.

Lemma remove_list_of_In (prot_dict : dict string slots) key :
  In key (remove_list_of prot_dict) <->
  exists r, In (key, r) prot_dict /\ two_distinct r = true.
Proof.
  unfold remove_list_of, dict_keys. rewrite in_map_iff. split.
  - intros [[k r] [E Hin]]. simpl in E. subst k.
    apply filter_In in Hin. exists r. exact Hin.
  - intros [r [Hin Ht]]. exists (key, r). split; [reflexivity|].
    apply filter_In. split; assumption.
Qed.

(** On a dictionary the two loops keep exactly the records that do not
    have two distinct values, in their order. *)
Lemma filter_loops_spec (prot_dict : dict string slots) :
  dict_wf prot_dict ->
  filter_loops prot_dict =
  filter (fun e => negb (two_distinct (snd e))) prot_dict.
Proof.
  intros Hwf. unfold filter_loops.
  rewrite filt_loop_fresh by exact Hwf. simpl.
  apply filter_ext_in. intros [key r] Hin. simpl. f_equal.
  destruct (two_distinct r) eqn:Ht.
  - apply py_in_In. apply remove_list_of_In. exists r. tauto.
  - apply py_in_false. intros Hrem.
    apply remove_list_of_In in Hrem. destruct Hrem as [r' [Hin' Ht']].
    assert (E : Some r = Some r').
    { transitivity (dict_get prot_dict key); [symmetry|];
        apply dict_get_In; assumption. }
    congruence.
Qed.

Lemma filt_loop_wf remove_list items acc :
  dict_wf acc -> dict_wf (filt_loop remove_list items acc).
Proof.
  revert acc. induction items as [|[key v] items IH]; intros acc Hwf; simpl.
  - exact Hwf.
  - apply IH. destruct (negb _); [apply dict_wf_set|]; exact Hwf.
Qed.

Lemma filter_loops_wf (prot_dict : dict string slots) :
  dict_wf (filter_loops prot_dict).
Proof. apply filt_loop_wf. constructor. Qed.

Lemma filt_loop_values (P : slots -> Prop) remove_list items acc :
  (forall key r, In (key, r) items -> ~ In key remove_list -> P r) ->
  (forall key r, In (key, r) acc -> P r) ->
  forall key r, In (key, r) (filt_loop remove_list items acc) -> P r.
Proof.
  revert acc. induction items as [|[k v] items IH]; intros acc Hitems Hacc; simpl.
  - exact Hacc.
  - apply IH.
    + intros key r Hin. apply Hitems. now right.
    + intros key r Hin.
      destruct (py_in k remove_list) eqn:Hrem; simpl in Hin.
      * eauto.
      * apply dict_set_In in Hin. destruct Hin as [[_ ->]|Hin]; [|eauto].
        apply (Hitems k); [now left | now apply py_in_false].
Qed.

(** No record kept by the filter has two distinct values, whatever list
    of pairs the loops are run on. *)
Lemma filter_loops_kept (prot_dict : dict string slots) key r :
  In (key, r) (filter_loops prot_dict) -> two_distinct r = false.
Proof.
  unfold filter_loops.
  apply (filt_loop_values (fun r => two_distinct r = false)).
  - intros k r0 Hin Hnot. destruct (two_distinct r0) eqn:Ht; [|reflexivity].
    exfalso. apply Hnot. apply remove_list_of_In. exists r0. tauto.
  - intros k r0 [].
Qed.
End FilterFacts.

(** ** difflib: the index [b2j] *)

Section ChainFacts.
Context {T : Type} `{EqDecB T}.
Variable b : list T.

(** The positions of [x] in [l], counted from [i0], in increasing order *)
Fixpoint positions (x : T) (l : list T) (i0 : nat) : list nat :=
  match l with
  | [] => []
  | y :: l' => (if keqb x y then [i0] else []) ++ positions x l' (S i0)
  end.

Lemma dict_wf_setdefault_append (b2j : dict T (list nat)) elt i :
  dict_wf b2j -> dict_wf (setdefault_append b2j elt i).
Proof.
  intros Hwf. unfold setdefault_append.
  destruct (dict_get b2j elt); apply dict_wf_set; exact Hwf.
Qed.

Lemma chain_b_loop_wf l : forall i0 (b2j : dict T (list nat)),
  dict_wf b2j -> dict_wf (chain_b_loop i0 l b2j).
Proof.
  induction l as [|y l IH]; intros i0 b2j Hwf; simpl; [exact Hwf|].
  apply IH. apply dict_wf_setdefault_append. exact Hwf.
Qed.

Lemma dict_get_setdefault_append (b2j : dict T (list nat)) elt i x :
  dict_get (setdefault_append b2j elt i) x =
  if keqb x elt then Some (dict_get_default b2j elt [] ++ [i])
  else dict_get b2j x.
Proof.
  unfold setdefault_append, dict_get_default.
  destruct (keqb_spec x elt) as [E|Hne].
  - subst x. destruct (dict_get b2j elt); now rewrite dict_get_set_same.
  - destruct (dict_get b2j elt); rewrite dict_get_set_other; congruence.
Qed.

(** After the enumeration, every key holds the positions of its element
    appended to what it held before. *)
Lemma chain_b_loop_get l : forall i0 (b2j : dict T (list nat)) x,
  dict_get (chain_b_loop i0 l b2j) x =
  match dict_get b2j x, positions x l i0 with
  | None, [] => None
  | o, ps => Some (match o with Some idxs => idxs | None => [] end ++ ps)
  end.
Proof.
  induction l as [|y l IH]; intros i0 b2j x; simpl.
  - destruct (dict_get b2j x); [now rewrite app_nil_r | reflexivity].
  - rewrite IH, dict_get_setdefault_append. unfold dict_get_default.
    destruct (keqb_spec x y) as [E|Hne].
    + subst y. destruct (dict_get b2j x); simpl.
      * now rewrite <- app_assoc.
      * reflexivity.
    + simpl. reflexivity.
Qed.

Lemma dict_get_del (d : dict T (list nat)) k x :
  dict_wf d ->
  dict_get (dict_del d k) x = if keqb x k then None else dict_get d x.
Proof.
  unfold dict_wf. induction d as [|[k0 v0] d IH]; simpl; intros Hnd.
  - now destruct (keqb x k).
  - apply NoDup_cons_iff in Hnd. destruct Hnd as [Hnot Hnd].
    destruct (keqb_spec k k0) as [E|Hne].
    + subst k0. destruct (keqb_spec x k) as [E|Hne]; [|reflexivity].
      subst x. now apply dict_get_None.
    + simpl. destruct (keqb_spec x k0) as [E|Hne0].
      * subst x. now rewrite keqb_neq by congruence.
      * now apply IH.
Qed.

Lemma dict_wf_del (d : dict T (list nat)) k : dict_wf d -> dict_wf (dict_del d k).
Proof.
  unfold dict_wf. induction d as [|[k0 v0] d IH]; simpl; intros Hnd; [constructor|].
  apply NoDup_cons_iff in Hnd. destruct Hnd as [Hnot Hnd].
  destruct (keqb k k0); [exact Hnd|]. simpl.
  constructor; [|auto].
  intros Hin. apply Hnot. clear -Hin.
  induction d as [|[k1 v1] d IHd]; simpl in *; [tauto|].
  destruct (keqb k k1); simpl in *; tauto.
Qed.

Lemma dict_get_purge ks : forall (d : dict T (list nat)) x,
  dict_wf d ->
  dict_get (fold_left dict_del ks d) x = None \/
  dict_get (fold_left dict_del ks d) x = dict_get d x.
Proof.
  induction ks as [|k ks IH]; intros d x Hwf; simpl; [now right|].
  destruct (IH (dict_del d k) x (dict_wf_del k Hwf)) as [E|E]; [now left|].
  rewrite E, dict_get_del by exact Hwf.
  destruct (keqb x k); [now left | now right].
Qed.

(** What [find_longest_match] relies on: a key of [b2j] that is present
    holds all positions of its element in [b], in increasing order. *)
Definition b2j_ok (b2j : dict T (list nat)) : Prop :=
  forall x, dict_get_default b2j x [] = [] \/
            dict_get_default b2j x [] = positions x b 0.

Lemma chain_b_ok : b2j_ok (chain_b b).
Proof.
  intros x. unfold chain_b, dict_get_default.
  destruct (dict_get_purge (bpopular (chain_b_loop 0 b []) (length b)) x
              (d := chain_b_loop 0 b [])) as [E|E].
  - apply chain_b_loop_wf. constructor.
  - rewrite E. now left.
  - rewrite E, chain_b_loop_get. simpl.
    destruct (positions x b 0); [now left | now right].
Qed.

Lemma positions_spec x l : forall i0 j,
  In j (positions x l i0) <-> i0 <= j /\ j < i0 + length l /\
                               nth_error l (j - i0) = Some x.
Proof.
  induction l as [|y l IH]; intros i0 j; simpl.
  - split; [tauto | intros (?&?&?); lia].
  - rewrite in_app_iff, IH. split.
    + intros [Hin|(Hle & Hlt & Hn)].
      * destruct (keqb_spec x y) as [E|Hne]; [|destruct Hin].
        destruct Hin as [<-|[]]. subst y.
        rewrite Nat.sub_diag. simpl. split; [lia|split; [lia|reflexivity]].
      * split; [lia|split; [lia|]].
        replace (j - i0) with (S (j - S i0)) by lia. exact Hn.
    + intros (Hle & Hlt & Hn).
      destruct (Nat.eq_dec j i0) as [E|Hne].
      * subst j. rewrite Nat.sub_diag in Hn. simpl in Hn. inversion Hn; subst.
        left. rewrite keqb_refl. now left.
      * right. split; [lia|split; [lia|]].
        replace (j - i0) with (S (j - S i0)) in Hn by lia. exact Hn.
Qed.

Lemma positions_app x l1 l2 i0 :
  positions x (l1 ++ l2) i0 = positions x l1 i0 ++ positions x l2 (i0 + length l1).
Proof.
  revert i0. induction l1 as [|y l1 IH]; intros i0; simpl.
  - now rewrite Nat.add_0_r.
  - rewrite IH, <- app_assoc. do 3 f_equal. lia.
Qed.
End ChainFacts.

(** ** difflib: [find_longest_match] returns a common block inside its ranges *)

Section MatchFacts.
Context {T : Type} `{EqDecB T}.
Variable dflt : T.
Variables a b : list T.

(** [a[i:i+k] == b[j:j+k]] *)
Definition is_match (i j k : nat) : Prop :=
  forall x, x < k -> nth (i + x) a dflt = nth (j + x) b dflt.

Definition b2j_sound (b2j : dict T (list nat)) : Prop :=
  forall x j, In j (dict_get_default b2j x []) -> nth j b dflt = x.

Lemma b2j_ok_sound b2j : b2j_ok b b2j -> b2j_sound b2j.
Proof.
  intros Hok x j Hin. destruct (Hok x) as [E|E]; rewrite E in Hin; [destruct Hin|].
  apply positions_spec in Hin. destruct Hin as (_ & _ & Hn).
  rewrite Nat.sub_0_r in Hn. now apply nth_error_nth.
Qed.

(** [j2len], read while row [i] is processed: a value [v] under [j] is the
    length of a common block that ends with [a[i-1]] and [b[j]]. *)
Definition row_ok (alo blo bhi i : nat) (j2len : dict nat nat) : Prop :=
  forall j v, dict_get j2len j = Some v ->
    1 <= v /\ v + alo <= i /\ v + blo <= j + 1 /\ j < bhi /\
    is_match (i - v) (j + 1 - v) v.

Definition best_ok (alo blo bhi i : nat) (best : Match) : Prop :=
  let '(bi, bj, bk) := best in
  alo <= bi /\ bi + bk <= i /\ blo <= bj /\ bj + bk <= bhi /\ is_match bi bj bk.

Lemma is_match_extend i j v :
  v <= i -> v <= j ->
  is_match (i - v) (j - v) v -> nth i a dflt = nth j b dflt ->
  is_match (i - v) (j - v) (S v).
Proof.
  intros Hi Hj Hm Hlast x Hx.
  destruct (Nat.eq_dec x v) as [E|Hne].
  - subst x. replace (i - v + v) with i by lia.
    replace (j - v + v) with j by lia. exact Hlast.
  - apply Hm. lia.
Qed.

Lemma j2lenget_pred_ok alo blo bhi i j2len j :
  alo <= i -> row_ok alo blo bhi i j2len -> blo <= j ->
  j2lenget_pred j2len j + alo <= i /\
  j2lenget_pred j2len j + blo <= j /\
  is_match (i - j2lenget_pred j2len j) (j - j2lenget_pred j2len j)
           (j2lenget_pred j2len j).
Proof.
  intros Hi Hrow Hj. unfold j2lenget_pred, dict_get_default.
  assert (Hzero : 0 + alo <= i /\ 0 + blo <= j /\ is_match (i - 0) (j - 0) 0).
  { split; [lia|split; [lia|]]. intros x Hx. lia. }
  destruct j as [|j']; [exact Hzero|].
  destruct (dict_get j2len j') as [v|] eqn:E; [|exact Hzero].
  destruct (Hrow _ _ E) as (H1 & H2 & H3 & H4 & H5).
  split; [lia|split; [lia|]].
  replace (S j' - v) with (j' + 1 - v) by lia. exact H5.
Qed.

Lemma row_ok_set alo blo bhi i (newj2len : dict nat nat) j k :
  row_ok alo blo bhi i newj2len ->
  1 <= k -> k + alo <= i -> k + blo <= j + 1 -> j < bhi ->
  is_match (i - k) (j + 1 - k) k ->
  row_ok alo blo bhi i (dict_set newj2len j k).
Proof.
  intros Hrow H1 H2 H3 H4 H5 j0 v E.
  destruct (Nat.eq_dec j j0) as [E0|Hne].
  - subst j0. rewrite dict_get_set_same in E. inversion E; subst. tauto.
  - rewrite dict_get_set_other in E by exact Hne. now apply Hrow.
Qed.

Lemma flm_inner_ok alo blo bhi i j2len :
  alo <= i -> row_ok alo blo bhi i j2len ->
  forall js newj2len best,
    Forall (fun j => nth j b dflt = nth i a dflt) js ->
    row_ok alo blo bhi (S i) newj2len -> best_ok alo blo bhi (S i) best ->
    row_ok alo blo bhi (S i) (fst (flm_inner i blo bhi j2len js newj2len best)) /\
    best_ok alo blo bhi (S i) (snd (flm_inner i blo bhi j2len js newj2len best)).
Proof.
  intros Hi Hrow. induction js as [|j js IH]; intros newj2len best Hjs Hnew Hbest.
  - simpl. tauto.
  - simpl. inversion Hjs as [|? ? Hj Hjs']; subst.
    destruct (Nat.ltb_spec j blo) as [Hlt|Hge]; [now apply IH|].
    destruct (Nat.leb_spec bhi j) as [Hle|Hlt]; [simpl; tauto|].
    destruct (@j2lenget_pred_ok alo blo bhi i j2len j Hi Hrow Hge) as (P1 & P2 & P3).
    set (v := j2lenget_pred j2len j) in *.
    assert (Hm : is_match (S i - (v + 1)) (j + 1 - (v + 1)) (v + 1)).
    { replace (S i - (v + 1)) with (i - v) by lia.
      replace (j + 1 - (v + 1)) with (j - v) by lia.
      replace (v + 1) with (S v) by lia.
      apply is_match_extend; [lia|lia|exact P3|now symmetry]. }
    apply IH; [exact Hjs'| |].
    + apply row_ok_set; [exact Hnew|lia|lia|lia|lia|exact Hm].
    + destruct (Nat.ltb_spec (msize best) (v + 1)); [|exact Hbest].
      unfold best_ok.
      replace (i + 1 - (v + 1)) with (S i - (v + 1)) by lia.
      split; [lia|split; [lia|split; [lia|split; [lia|exact Hm]]]].
Qed.

Lemma best_ok_mono alo blo bhi i i' best :
  i <= i' -> best_ok alo blo bhi i best -> best_ok alo blo bhi i' best.
Proof.
  destruct best as [[bi bj] bk]. unfold best_ok. intros Hle (H1&H2&H3&H4&H5).
  split; [lia|split; [lia|split; [lia|split; [lia|exact H5]]]].
Qed.

Lemma flm_outer_ok b2j alo blo bhi :
  b2j_sound b2j ->
  forall n i j2len best,
    alo <= i -> row_ok alo blo bhi i j2len -> best_ok alo blo bhi i best ->
    best_ok alo blo bhi (i + n) (flm_outer dflt a b2j blo bhi (seq i n) j2len best).
Proof.
  intros Hb2j. induction n as [|n IH]; intros i j2len best Hi Hrow Hbest; simpl.
  - now rewrite Nat.add_0_r.
  - pose proof (@flm_inner_ok alo blo bhi i j2len Hi Hrow
                  (dict_get_default b2j (nth i a dflt) []) [] best) as Hin.
    destruct (flm_inner i blo bhi j2len
                (dict_get_default b2j (nth i a dflt) []) [] best)
      as [newj2len best'] eqn:E.
    simpl in Hin. destruct Hin as [Hrow' Hbest'].
    + apply Forall_forall. intros j Hj. now apply Hb2j.
    + intros j v Ev. discriminate.
    + apply best_ok_mono with i; [lia|exact Hbest].
    + replace (i + S n) with (S i + n) by lia.
      apply IH; [lia|exact Hrow'|exact Hbest'].
Qed.

Lemma extend_left_ok alo blo bhi ahi : forall besti bestj bestsize,
  best_ok alo blo bhi ahi (besti, bestj, bestsize) ->
  best_ok alo blo bhi ahi (extend_left dflt a b alo blo besti bestj bestsize).
Proof.
  induction besti as [|i' IH]; intros bestj bestsize Hbest; simpl; [exact Hbest|].
  destruct bestj as [|j']; [exact Hbest|].
  destruct (Nat.ltb_spec alo (S i')) as [Hi|Hi]; simpl; [|exact Hbest].
  destruct (Nat.ltb_spec blo (S j')) as [Hj|Hj]; simpl; [|exact Hbest].
  destruct (keqb_spec (nth i' a dflt) (nth j' b dflt)) as [E|Hne]; [|exact Hbest].
  apply IH. unfold best_ok in *. destruct Hbest as (H1&H2&H3&H4&H5).
  split; [lia|split; [lia|split; [lia|split; [lia|]]]].
  intros x Hx. destruct x as [|x].
  - now rewrite !Nat.add_0_r.
  - replace (i' + S x) with (S i' + x) by lia.
    replace (j' + S x) with (S j' + x) by lia. apply H5. lia.
Qed.

Lemma extend_right_ok alo blo bhi ahi besti bestj : forall n bestsize,
  best_ok alo blo bhi ahi (besti, bestj, bestsize) ->
  best_ok alo blo bhi ahi
    (besti, bestj, extend_right dflt a b n ahi bhi besti bestj bestsize).
Proof.
  induction n as [|n IH]; intros bestsize Hbest; simpl; [exact Hbest|].
  destruct (Nat.ltb_spec (besti + bestsize) ahi) as [Hi|Hi]; simpl; [|exact Hbest].
  destruct (Nat.ltb_spec (bestj + bestsize) bhi) as [Hj|Hj]; simpl; [|exact Hbest].
  destruct (keqb_spec (nth (besti + bestsize) a dflt) (nth (bestj + bestsize) b dflt))
    as [E|Hne]; [|exact Hbest].
  apply IH. unfold best_ok in *. destruct Hbest as (H1&H2&H3&H4&H5).
  split; [lia|split; [lia|split; [lia|split; [lia|]]]].
  intros x Hx. destruct (Nat.eq_dec x bestsize) as [Ex|Hne].
  - subst x. exact E.
  - apply H5. lia.
Qed.

(** The block returned for the ranges [a[alo:ahi]] and [b[blo:bhi]] lies
    inside them and is common to both sequences. *)
Lemma find_longest_match_with_ok b2j alo ahi blo bhi :
  b2j_sound b2j -> alo <= ahi -> blo <= bhi ->
  best_ok alo blo bhi ahi (find_longest_match_with dflt a b b2j alo ahi blo bhi).
Proof.
  intros Hb2j Ha Hb. unfold find_longest_match_with.
  pose proof (@flm_outer_ok b2j alo blo bhi Hb2j (ahi - alo) alo [] (alo, blo, 0)) as Hout.
  replace (alo + (ahi - alo)) with ahi in Hout by lia.
  destruct (flm_outer dflt a b2j blo bhi (seq alo (ahi - alo)) [] (alo, blo, 0))
    as [[bi bj] bk].
  assert (Hbest : best_ok alo blo bhi ahi (bi, bj, bk)).
  { apply Hout; [lia| |].
    - intros j v Ev. discriminate.
    - unfold best_ok. split; [lia|split; [lia|split; [lia|split; [lia|]]]].
      intros x Hx. lia. }
  apply extend_left_ok in Hbest.
  destruct (extend_left dflt a b alo blo bi bj bk) as [[bi' bj'] bk'].
  now apply extend_right_ok.
Qed.
End MatchFacts.

(** ** difflib: generic facts on the inner loop *)

Section InnerFacts.
Variables (i blo bhi : nat) (j2len : dict nat nat).

(** Without [break], the loop over a concatenation is the loop over the
    second list started from the state left by the first. *)
Lemma flm_inner_app l1 l2 : forall newj2len best,
  Forall (fun j => j < bhi) l1 ->
  flm_inner i blo bhi j2len (l1 ++ l2) newj2len best =
  flm_inner i blo bhi j2len l2
    (fst (flm_inner i blo bhi j2len l1 newj2len best))
    (snd (flm_inner i blo bhi j2len l1 newj2len best)).
Proof.
  induction l1 as [|j l1 IH]; intros newj2len best Hl; simpl; [reflexivity|].
  inversion Hl as [|? ? Hj Hl']; subst.
  destruct (j <? blo); [now apply IH|].
  destruct (Nat.leb_spec bhi j) as [Hle|Hlt]; [lia|].
  now apply IH.
Qed.

Lemma flm_inner_entries js : forall newj2len best j v,
  dict_get (fst (flm_inner i blo bhi j2len js newj2len best)) j = Some v ->
  dict_get newj2len j = Some v \/
  (In j js /\ v = j2lenget_pred j2len j + 1).
Proof.
  induction js as [|j0 js IH]; intros newj2len best j v; simpl; [tauto|].
  destruct (j0 <? blo).
  - intros E. apply IH in E. tauto.
  - destruct (bhi <=? j0); [simpl; tauto|].
    intros E. apply IH in E. destruct E as [E|E]; [|tauto].
    destruct (Nat.eq_dec j0 j) as [E0|Hne].
    + subst j0. rewrite dict_get_set_same in E. inversion E. tauto.
    + rewrite dict_get_set_other in E by exact Hne. tauto.
Qed.

Lemma flm_inner_get_other js : forall newj2len best j,
  ~ In j js ->
  dict_get (fst (flm_inner i blo bhi j2len js newj2len best)) j =
  dict_get newj2len j.
Proof.
  induction js as [|j0 js IH]; intros newj2len best j Hnot; simpl; [reflexivity|].
  simpl in Hnot.
  destruct (j0 <? blo); [apply IH; tauto|].
  destruct (bhi <=? j0); [reflexivity|].
  rewrite IH by tauto. apply dict_get_set_other. tauto.
Qed.

Lemma flm_inner_noupdate best js : forall newj2len,
  Forall (fun j => j2lenget_pred j2len j + 1 <= msize best) js ->
  snd (flm_inner i blo bhi j2len js newj2len best) = best.
Proof.
  induction js as [|j js IH]; intros newj2len Hjs; simpl; [reflexivity|].
  inversion Hjs as [|? ? Hj Hjs']; subst.
  destruct (j <? blo); [now apply IH|].
  destruct (bhi <=? j); [reflexivity|].
  destruct (Nat.ltb_spec (msize best) (j2lenget_pred j2len j + 1)); [lia|].
  now apply IH.
Qed.
End InnerFacts.

(** ** difflib: a sequence compared with itself *)

Section IdenticalFacts.
Context {T : Type} `{EqDecB T}.
Variable dflt : T.
Variable a : list T.
Variable b2j : dict T (list nat).
Hypothesis Hok : b2j_ok a b2j.

(** Whether the element at position [i] is still a key of [b2j] *)
Definition live (i : nat) : bool :=
  match dict_get_default b2j (nth i a dflt) [] with
  | [] => false
  | _ :: _ => true
  end.

(** The number of consecutive live positions that end just before [i] *)
Fixpoint run (i : nat) : nat :=
  match i with
  | O => 0
  | S i' => if live i' then S (run i') else 0
  end.

Definition diag_inv (i : nat) (j2len : dict nat nat) (best : Match) : Prop :=
  fst (fst best) = snd (fst best) /\
  (forall j v, dict_get j2len j = Some v -> v <= run (S j) /\ v <= run i) /\
  (forall j, j <= i -> run j <= msize best) /\
  j2lenget_pred j2len i = run i.

Lemma live_same i j : nth j a dflt = nth i a dflt -> live j = live i.
Proof. unfold live. now intros ->. Qed.

Lemma j2lenget_pred_le i j2len best j :
  diag_inv i j2len best -> j2lenget_pred j2len j <= run j /\
                           j2lenget_pred j2len j <= run i.
Proof.
  intros (_ & Hval & _ & _). unfold j2lenget_pred, dict_get_default.
  destruct j as [|j']; [simpl; lia|].
  destruct (dict_get j2len j') as [v|] eqn:E; [|lia].
  now apply Hval.
Qed.

Lemma positions_split i :
  i < length a ->
  exists l1 l2,
    positions (nth i a dflt) a 0 = l1 ++ [i] ++ l2 /\
    Forall (fun j => j < i /\ nth j a dflt = nth i a dflt) l1 /\
    Forall (fun j => i < j /\ j < length a /\ nth j a dflt = nth i a dflt) l2.
Proof.
  intros Hi.
  destruct (nth_split a dflt Hi) as (a1 & a2 & Ea & Hlen).
  set (x := nth i a dflt) in *.
  exists (positions x a1 0), (positions x a2 (S i)).
  split; [|split].
  - rewrite Ea at 1. rewrite positions_app. simpl.
    rewrite keqb_refl, Hlen. reflexivity.
  - apply Forall_forall. intros j Hj.
    assert (Hj' : In j (positions x a 0)).
    { rewrite Ea, positions_app. apply in_or_app. now left. }
    apply positions_spec in Hj. apply positions_spec in Hj'.
    rewrite Nat.sub_0_r in *. split; [lia|].
    apply nth_error_nth. tauto.
  - apply Forall_forall. intros j Hj.
    assert (Hj' : In j (positions x a 0)).
    { rewrite Ea, positions_app. apply in_or_app. right. simpl.
      rewrite keqb_refl, Hlen. right. exact Hj. }
    apply positions_spec in Hj. apply positions_spec in Hj'.
    rewrite Nat.sub_0_r in *. split; [lia|split; [lia|]].
    apply nth_error_nth. tauto.
Qed.

(** One row of the table keeps the best block on the diagonal. *)
Lemma diag_inv_row i j2len best :
  i < length a -> diag_inv i j2len best ->
  diag_inv (S i)
    (fst (flm_inner i 0 (length a) j2len
            (dict_get_default b2j (nth i a dflt) []) [] best))
    (snd (flm_inner i 0 (length a) j2len
            (dict_get_default b2j (nth i a dflt) []) [] best)).
Proof.
  intros Hi Hinv.
  pose proof Hinv as (Hdiag & Hval & Hrun & Hpred).
  assert (Hlive : live i = match dict_get_default b2j (nth i a dflt) [] with
                           | [] => false | _ :: _ => true end) by reflexivity.
  destruct (Hok (nth i a dflt)) as [E|E].
  - (* the element is not a key: the row is empty *)
    rewrite E in *. simpl.
    assert (R : run (S i) = 0) by (simpl; now rewrite Hlive).
    split; [exact Hdiag|split; [|split]].
    + intros j v Ev. discriminate.
    + intros j Hj. destruct (Nat.eq_dec j (S i)) as [->|Hne]; [lia|].
      apply Hrun. lia.
    + rewrite R. reflexivity.
  - destruct (positions_split Hi) as (l1 & l2 & Epos & Hl1 & Hl2).
    rewrite E, Epos in *.
    assert (Li : live i = true).
    { rewrite Hlive. destruct l1; reflexivity. }
    assert (R : run (S i) = S (run i)) by (simpl; now rewrite Li).
    assert (Hk : forall j, nth j a dflt = nth i a dflt ->
                 j2lenget_pred j2len j + 1 <= run (S j) /\
                 j2lenget_pred j2len j + 1 <= run (S i)).
    { intros j Ej. destruct (@j2lenget_pred_le i j2len best j Hinv) as [P1 P2].
      simpl (run (S j)). rewrite (live_same _ _ Ej), Li. lia. }
    (* phase 1: the positions before [i] *)
    rewrite flm_inner_app
      by (eapply Forall_impl; [|exact Hl1]; simpl; intros; lia).
    assert (N1 : snd (flm_inner i 0 (length a) j2len l1 [] best) = best).
    { apply flm_inner_noupdate. eapply Forall_impl; [|exact Hl1].
      simpl. intros j [Hlt Ej]. destruct (Hk j Ej) as [P1 _].
      specialize (Hrun (S j)). lia. }
    rewrite N1.
    set (nj1 := fst (flm_inner i 0 (length a) j2len l1 [] best)).
    assert (Hnj1 : forall j v, dict_get nj1 j = Some v ->
                     In j l1 /\ v = j2lenget_pred j2len j + 1).
    { intros j v Ev. apply flm_inner_entries in Ev.
      destruct Ev as [Ev|Ev]; [discriminate|exact Ev]. }
    (* phase 2: the diagonal *)
    simpl app. cbn [flm_inner]. rewrite (proj2 (Nat.ltb_ge i 0)) by lia.
    destruct (Nat.leb_spec (length a) i) as [Hle|_]; [lia|].
    rewrite Hpred.
    set (best2 := if msize best <? run i + 1
                  then (i + 1 - (run i + 1), i + 1 - (run i + 1), run i + 1)
                  else best).
    assert (B2 : fst (fst best2) = snd (fst best2) /\
                 run (S i) <= msize best2 /\ msize best <= msize best2).
    { unfold best2. destruct (Nat.ltb_spec (msize best) (run i + 1)).
      - rewrite R. unfold msize in *. cbn [fst snd]. lia.
      - rewrite R. split; [exact Hdiag|lia]. }
    destruct B2 as (B2a & B2b & B2c).
    set (nj2 := dict_set nj1 i (run i + 1)).
    (* phase 3: the positions after [i] *)
    assert (N3 : snd (flm_inner i 0 (length a) j2len l2 nj2 best2) = best2).
    { apply flm_inner_noupdate. eapply Forall_impl; [|exact Hl2].
      simpl. intros j (Hlt & _ & Ej). destruct (Hk j Ej) as [_ P2]. lia. }
    rewrite N3.
    split; [exact B2a|split; [|split]].
    + intros j v Ev. apply flm_inner_entries in Ev.
      assert (Hj : nth j a dflt = nth i a dflt /\ v = j2lenget_pred j2len j + 1).
      { destruct Ev as [Ev|[Hin Ev]].
        - unfold nj2 in Ev. destruct (Nat.eq_dec i j) as [E0|Hne].
          + subst j. rewrite dict_get_set_same in Ev. inversion Ev.
            split; [reflexivity|]. rewrite Hpred. reflexivity.
          + rewrite dict_get_set_other in Ev by exact Hne.
            apply Hnj1 in Ev. destruct Ev as [Hin Ev].
            rewrite Forall_forall in Hl1. apply Hl1 in Hin. tauto.
        - rewrite Forall_forall in Hl2. apply Hl2 in Hin. tauto. }
      destruct Hj as [Ej ->]. now apply Hk.
    + intros j Hj. destruct (Nat.eq_dec j (S i)) as [->|Hne]; [lia|].
      specialize (Hrun j). lia.
    + unfold j2lenget_pred, dict_get_default.
      rewrite flm_inner_get_other.
      * unfold nj2. rewrite dict_get_set_same. lia.
      * intros Hin. rewrite Forall_forall in Hl2. apply Hl2 in Hin. lia.
Qed.

Lemma diag_inv_outer : forall n i j2len best,
  i + n <= length a -> diag_inv i j2len best ->
  fst (fst (flm_outer dflt a b2j 0 (length a) (seq i n) j2len best)) =
  snd (fst (flm_outer dflt a b2j 0 (length a) (seq i n) j2len best)).
Proof.
  induction n as [|n IH]; intros i j2len best Hi Hinv; simpl.
  - apply Hinv.
  - pose proof (@diag_inv_row i j2len best) as Hrow.
    destruct (flm_inner i 0 (length a) j2len
                (dict_get_default b2j (nth i a dflt) []) [] best)
      as [newj2len best'].
    simpl in Hrow. apply IH; [lia|]. apply Hrow; [lia|exact Hinv].
Qed.

Lemma extend_left_diag : forall d k,
  extend_left dflt a a 0 0 d d k = (0, 0, k + d).
Proof.
  induction d as [|d IH]; intros k; simpl.
  - now rewrite Nat.add_0_r.
  - rewrite keqb_refl. simpl. rewrite IH. f_equal. lia.
Qed.

Lemma extend_right_diag : forall m s,
  s + m <= length a ->
  extend_right dflt a a m (length a) (length a) 0 0 s = s + m.
Proof.
  induction m as [|m IH]; intros s Hs; simpl; [lia|].
  destruct (Nat.ltb_spec s (length a)) as [Hlt|Hge]; [|lia].
  rewrite keqb_refl. simpl. rewrite IH by lia. lia.
Qed.

(** Compared with itself, a sequence is one block. *)
Lemma find_longest_match_with_self :
  find_longest_match_with dflt a a b2j 0 (length a) 0 (length a) =
  (0, 0, length a).
Proof.
  unfold find_longest_match_with. rewrite Nat.sub_0_r.
  assert (Hd := @diag_inv_outer (length a) 0 [] (0, 0, 0) (le_n _)).
  assert (Hinit : diag_inv 0 [] (0, 0, 0)).
  { split; [reflexivity|split; [|split]].
    - intros j v Ev. discriminate.
    - intros j Hj. assert (j = 0) by lia. subst j. simpl. lia.
    - reflexivity. }
  specialize (Hd Hinit).
  pose proof (@flm_outer_ok _ _ dflt a a b2j 0 0 (length a)
                (b2j_ok_sound dflt Hok) (length a) 0 [] (0, 0, 0)) as Ho.
  destruct (flm_outer dflt a b2j 0 (length a) (seq 0 (length a)) [] (0, 0, 0))
    as [[bi bj] bk].
  simpl in Hd. subst bj.
  rewrite extend_left_diag. simpl.
  assert (Hle : bi + bk <= length a).
  { simpl in Ho. apply Ho; [lia| |].
    - intros j v Ev. discriminate.
    - unfold best_ok. split; [lia|split; [lia|split; [lia|split; [lia|]]]].
      intros x Hx. lia. }
  rewrite extend_right_diag by lia. f_equal. lia.
Qed.
End IdenticalFacts.

(** ** difflib: the blocks of [get_matching_blocks] *)

(** Ranges [(alo, ahi, blo, bhi)] of the two sequences *)
Definition box : Type := (nat * nat * nat * nat)%type.

Definition box_of (m : Match) : box :=
  let '(i, j, k) := m in (i, i + k, j, j + k).

(** [x] ends, in both sequences, where [y] starts or earlier. *)
Definition before (x y : box) : Prop :=
  let '(_, xahi, _, xbhi) := x in
  let '(yalo, _, yblo, _) := y in
  xahi <= yalo /\ xbhi <= yblo.

Definition sep (x y : box) : Prop := before x y \/ before y x.

Definition inside (x p : box) : Prop :=
  let '(xalo, xahi, xblo, xbhi) := x in
  let '(palo, pahi, pblo, pbhi) := p in
  palo <= xalo /\ xahi <= pahi /\ pblo <= xblo /\ xbhi <= pbhi.

Lemma sep_sym x y : sep x y -> sep y x.
Proof. unfold sep. tauto. Qed.

Lemma sep_inside x p y : inside x p -> sep p y -> sep x y.
Proof.
  destruct x as [[[xalo xahi] xblo] xbhi], p as [[[palo pahi] pblo] pbhi],
           y as [[[yalo yahi] yblo] ybhi].
  unfold inside, sep, before. lia.
Qed.

Section PairFacts.
Context {A : Type}.
Variable R : A -> A -> Prop.

Lemma FOP_cons_iff x l :
  ForallOrdPairs R (x :: l) <-> Forall (R x) l /\ ForallOrdPairs R l.
Proof.
  split.
  - intros Hf. inversion Hf; subst. tauto.
  - intros [H1 H2]. now constructor.
Qed.

Lemma FOP_app_iff l1 l2 :
  ForallOrdPairs R (l1 ++ l2) <->
  ForallOrdPairs R l1 /\ ForallOrdPairs R l2 /\
  (forall x y, In x l1 -> In y l2 -> R x y).
Proof.
  induction l1 as [|z l1 IH]; simpl.
  - split; [intros Hf; repeat split; [constructor|exact Hf|tauto] | tauto].
  - rewrite !FOP_cons_iff, IH, Forall_app, !Forall_forall. split.
    + intros ((F1 & F2) & G1 & G2 & G3). repeat split; try assumption.
      intros x y [<-|Hx] Hy; auto.
    + intros ((F1 & G1) & G2 & G3). repeat split; try assumption.
      * intros y Hy. apply G3; [now left|exact Hy].
      * intros x y Hx Hy. apply G3; [now right|exact Hy].
Qed.

Hypothesis R_sym : forall x y, R x y -> R y x.

Lemma FOP_perm l l' :
  Permutation l l' -> ForallOrdPairs R l -> ForallOrdPairs R l'.
Proof.
  induction 1 as [|x l l' Hp IH|x y l|l l' l'' Hp1 IH1 Hp2 IH2]; intros Hf.
  - exact Hf.
  - apply FOP_cons_iff in Hf. destruct Hf as [F1 F2].
    apply FOP_cons_iff. split; [|auto].
    eapply Permutation_Forall; eassumption.
  - apply FOP_cons_iff in Hf. destruct Hf as [F1 F2].
    apply FOP_cons_iff in F2. destruct F2 as [F2 F3].
    inversion F1; subst.
    apply FOP_cons_iff. split; [constructor; [auto|assumption]|].
    apply FOP_cons_iff. split; assumption.
  - auto.
Qed.
End PairFacts.

Section BlocksFacts.
Context {T : Type} `{EqDecB T}.
Variable dflt : T.
Variables a b : list T.

Definition good_range (q : box) : Prop :=
  let '(alo, ahi, blo, bhi) := q in
  alo <= ahi /\ blo <= bhi /\ ahi <= length a /\ bhi <= length b.

Definition good_block (m : Match) : Prop :=
  let '(i, j, k) := m in
  1 <= k /\ i + k <= length a /\ j + k <= length b /\ is_match dflt a b i j k.

Lemma find_longest_match_ok alo ahi blo bhi :
  alo <= ahi -> blo <= bhi ->
  best_ok dflt a b alo blo bhi ahi (find_longest_match dflt a b alo ahi blo bhi).
Proof.
  intros Ha Hb. apply find_longest_match_with_ok; [|exact Ha|exact Hb].
  apply b2j_ok_sound. apply chain_b_ok.
Qed.

(** The queue after one block has been found in [(alo, ahi, blo, bhi)] *)
Definition next_queue (alo ahi blo bhi i j k : nat) (queue : list box) : list box :=
  let queue :=
    if (alo <? i) && (blo <? j) then (alo, i, blo, j) :: queue else queue in
  if (i + k <? ahi) && (j + k <? bhi) then (i + k, ahi, j + k, bhi) :: queue
  else queue.

Lemma blocks_loop_step fuel alo ahi blo bhi queue acc :
  blocks_loop dflt a b (S fuel) ((alo, ahi, blo, bhi) :: queue) acc =
  let '(i, j, k) := find_longest_match dflt a b alo ahi blo bhi in
  if k =? 0 then blocks_loop dflt a b fuel queue acc
  else blocks_loop dflt a b fuel (next_queue alo ahi blo bhi i j k queue)
         (acc ++ [(i, j, k)]).
Proof.
  simpl. destruct (find_longest_match dflt a b alo ahi blo bhi) as [[i j] k].
  reflexivity.
Qed.

(** A property of the queue and the blocks found so far that every
    iteration keeps holds of the final list of blocks. *)
Lemma blocks_loop_invariant (Inv : list box -> list Match -> Prop) :
  (forall alo ahi blo bhi queue acc i j k,
      Inv ((alo, ahi, blo, bhi) :: queue) acc ->
      find_longest_match dflt a b alo ahi blo bhi = (i, j, k) ->
      (k = 0 -> Inv queue acc) /\
      (k <> 0 -> Inv (next_queue alo ahi blo bhi i j k queue) (acc ++ [(i, j, k)]))) ->
  forall fuel queue acc res,
    Inv queue acc -> blocks_loop dflt a b fuel queue acc = Some res -> Inv [] res.
Proof.
  intros Hstep. induction fuel as [|fuel IH]; intros queue acc res Hinv E.
  - discriminate.
  - destruct queue as [|[[[alo ahi] blo] bhi] queue].
    + simpl in E. inversion E; subst. exact Hinv.
    + rewrite blocks_loop_step in E.
      destruct (find_longest_match dflt a b alo ahi blo bhi) as [[i j] k] eqn:Ef.
      destruct (Hstep _ _ _ _ _ _ _ _ _ Hinv Ef) as [H0 H1].
      destruct (Nat.eqb_spec k 0) as [Ek|Ek].
      * exact (IH _ _ _ (H0 Ek) E).
      * exact (IH _ _ _ (H1 Ek) E).
Qed.

(** Twice the length of the ranges of [a] still to examine, plus their number *)
Definition queue_measure (queue : list box) : nat :=
  list_sum (map (fun q : box => let '(alo, ahi, _, _) := q in 2 * (ahi - alo) + 1) queue).

Lemma queue_measure_cons alo ahi blo bhi queue :
  queue_measure ((alo, ahi, blo, bhi) :: queue) =
  2 * (ahi - alo) + 1 + queue_measure queue.
Proof. reflexivity. Qed.

Lemma next_queue_good alo ahi blo bhi i j k queue :
  good_range (alo, ahi, blo, bhi) -> Forall good_range queue ->
  best_ok dflt a b alo blo bhi ahi (i, j, k) ->
  Forall good_range (next_queue alo ahi blo bhi i j k queue).
Proof.
  unfold next_queue, good_range, best_ok. intros (G1&G2&G3&G4) Hq (B1&B2&B3&B4&_).
  destruct ((alo <? i) && (blo <? j)), ((i + k <? ahi) && (j + k <? bhi));
    repeat constructor; try assumption; lia.
Qed.

Lemma next_queue_measure alo ahi blo bhi i j k queue :
  best_ok dflt a b alo blo bhi ahi (i, j, k) -> k <> 0 ->
  queue_measure (next_queue alo ahi blo bhi i j k queue) <
  queue_measure ((alo, ahi, blo, bhi) :: queue).
Proof.
  unfold next_queue, best_ok. intros (B1&B2&B3&B4&_) Hk.
  destruct (Nat.ltb_spec alo i), (Nat.ltb_spec blo j),
           (Nat.ltb_spec (i + k) ahi), (Nat.ltb_spec (j + k) bhi);
    cbn [andb]; rewrite ?queue_measure_cons; lia.
Qed.

(** The loop ends within the iterations it is given. *)
Lemma blocks_loop_terminates : forall fuel queue acc,
  Forall good_range queue -> queue_measure queue < fuel ->
  exists res, blocks_loop dflt a b fuel queue acc = Some res.
Proof.
  induction fuel as [|fuel IH]; intros queue acc Hq Hm; [lia|].
  destruct queue as [|[[[alo ahi] blo] bhi] queue].
  - simpl. eauto.
  - rewrite blocks_loop_step.
    inversion Hq as [|? ? Hg Hq']; subst.
    pose proof Hg as (G1 & G2 & _).
    pose proof (find_longest_match_ok G1 G2) as Hb.
    destruct (find_longest_match dflt a b alo ahi blo bhi) as [[i j] k].
    destruct (Nat.eqb_spec k 0) as [Ek|Ek].
    + apply IH; [exact Hq'|]. rewrite queue_measure_cons in Hm. lia.
    + apply IH.
      * now apply next_queue_good.
      * eapply Nat.lt_le_trans;
          [exact (@next_queue_measure alo ahi blo bhi i j k queue Hb Ek)|].
        apply Nat.lt_succ_r. exact Hm.
Qed.

Lemma raw_matching_blocks_eq :
  blocks_loop dflt a b (blocks_fuel a) [(0, length a, 0, length b)] [] =
  Some (raw_matching_blocks dflt a b).
Proof.
  unfold raw_matching_blocks.
  destruct (@blocks_loop_terminates (blocks_fuel a) [(0, length a, 0, length b)] [])
    as [res E].
  - repeat constructor; lia.
  - rewrite queue_measure_cons. unfold queue_measure, blocks_fuel. simpl. lia.
  - now rewrite E.
Qed.

(** The state of the loop: the blocks found are common blocks, and they
    and the ranges still to examine lie pairwise apart. *)
Definition loop_inv (queue : list box) (acc : list Match) : Prop :=
  Forall good_range queue /\ Forall good_block acc /\
  ForallOrdPairs sep (map box_of acc ++ queue).

Local Ltac solve_extra e :=
  exists e; split; [reflexivity|];
  split; [repeat constructor; simpl; lia|];
  repeat constructor; unfold sep, before; simpl; lia.

Lemma next_queue_extra alo ahi blo bhi i j k queue :
  best_ok dflt a b alo blo bhi ahi (i, j, k) ->
  exists extra,
    next_queue alo ahi blo bhi i j k queue = extra ++ queue /\
    Forall (fun x => inside x (alo, ahi, blo, bhi)) (box_of (i, j, k) :: extra) /\
    ForallOrdPairs sep (box_of (i, j, k) :: extra).
Proof.
  unfold next_queue, best_ok. intros (B1 & B2 & B3 & B4 & _).
  destruct (Nat.ltb_spec alo i) as [L1|L1], (Nat.ltb_spec blo j) as [L2|L2],
           (Nat.ltb_spec (i + k) ahi) as [R1|R1],
           (Nat.ltb_spec (j + k) bhi) as [R2|R2]; cbn [andb].
  all: first
    [ solve_extra [(i + k, ahi, j + k, bhi); (alo, i, blo, j)]
    | solve_extra [(i + k, ahi, j + k, bhi)]
    | solve_extra [(alo, i, blo, j)]
    | solve_extra (@nil box) ].
Qed.

Lemma loop_inv_step alo ahi blo bhi queue acc i j k :
  loop_inv ((alo, ahi, blo, bhi) :: queue) acc ->
  find_longest_match dflt a b alo ahi blo bhi = (i, j, k) ->
  (k = 0 -> loop_inv queue acc) /\
  (k <> 0 -> loop_inv (next_queue alo ahi blo bhi i j k queue) (acc ++ [(i, j, k)])).
Proof.
  intros (Hq & Hacc & Hsep) Ef.
  inversion Hq as [|? ? Hg Hq']; subst.
  pose proof Hg as (G1 & G2 & G3 & G4).
  pose proof (find_longest_match_ok G1 G2) as Hb. rewrite Ef in Hb.
  assert (Hperm : Permutation (map box_of acc ++ (alo, ahi, blo, bhi) :: queue)
                    ((alo, ahi, blo, bhi) :: map box_of acc ++ queue))
    by (symmetry; apply Permutation_middle).
  apply (FOP_perm sep_sym Hperm) in Hsep.
  apply FOP_cons_iff in Hsep. destruct Hsep as [HP Hrest].
  split.
  - intros _. repeat split; assumption.
  - intros Hk. pose proof Hb as (B1 & B2 & B3 & B4 & B5).
    split; [now apply next_queue_good|].
    split.
    { apply Forall_app. split; [exact Hacc|]. repeat constructor; try lia.
      exact B5. }
    destruct (@next_queue_extra alo ahi blo bhi i j k queue Hb)
      as (extra & -> & Hin & Hext).
    rewrite map_app.
    apply (@FOP_perm _ sep sep_sym
             ((box_of (i, j, k) :: extra) ++ map box_of acc ++ queue)).
    + cbn [map]. rewrite <- app_assoc. cbn [app].
      etransitivity; [|apply Permutation_middle].
      apply perm_skip. apply Permutation_app_swap_app.
    + apply FOP_app_iff. split; [exact Hext|split; [exact Hrest|]].
      intros x y Hx Hy. rewrite Forall_forall in Hin, HP.
      eapply sep_inside; eauto.
Qed.

Lemma raw_matching_blocks_ok :
  Forall good_block (raw_matching_blocks dflt a b) /\
  ForallOrdPairs sep (map box_of (raw_matching_blocks dflt a b)).
Proof.
  assert (Hinit : loop_inv [(0, length a, 0, length b)] []).
  { split; [|split].
    - repeat constructor; lia.
    - constructor.
    - simpl. repeat constructor. }
  destruct (@blocks_loop_invariant loop_inv loop_inv_step _ _ _ _
              Hinit raw_matching_blocks_eq) as (_ & Hg & Hs).
  rewrite app_nil_r in Hs. tauto.
Qed.

(** *** Sorting and collapsing *)

(** [x] ends, in both sequences, where [y] starts or earlier. *)
Definition block_before (x y : Match) : Prop := before (box_of x) (box_of y).

Definition chain (l : list Match) : Prop := ForallOrdPairs block_before l.

Lemma sort_insert_In x l z : In z (sort_insert x l) <-> z = x \/ In z l.
Proof.
  induction l as [|y l IH]; simpl.
  - intuition.
  - destruct (match_leb x y); simpl; [intuition|].
    rewrite IH. intuition.
Qed.

Lemma sort_blocks_In l z : In z (sort_blocks l) <-> In z l.
Proof.
  induction l as [|x l IH]; simpl; [tauto|].
  rewrite sort_insert_In, IH. intuition.
Qed.

Lemma leb_sep_before x y :
  1 <= msize y -> match_leb x y = true ->
  sep (box_of x) (box_of y) -> block_before x y.
Proof.
  destruct x as [[i1 j1] k1], y as [[i2 j2] k2].
  unfold match_leb, sep, block_before, before, msize. simpl.
  intros Hk Hleb [Hb|Hb]; [exact Hb|].
  destruct (Nat.ltb_spec i1 i2); [lia|].
  destruct (Nat.eqb_spec i1 i2); [lia|]. discriminate.
Qed.

Lemma nleb_sep_before x y :
  1 <= msize x -> match_leb x y = false ->
  sep (box_of x) (box_of y) -> block_before y x.
Proof.
  destruct x as [[i1 j1] k1], y as [[i2 j2] k2].
  unfold match_leb, sep, block_before, before, msize. simpl.
  intros Hk Hleb [Hb|Hb]; [|exact Hb].
  destruct (Nat.ltb_spec i1 i2); [discriminate|lia].
Qed.

Lemma block_before_trans x y z :
  block_before x y -> block_before y z -> block_before x z.
Proof.
  destruct x as [[i1 j1] k1], y as [[i2 j2] k2], z as [[i3 j3] k3].
  unfold block_before, before. simpl. lia.
Qed.

Lemma sort_insert_chain x l :
  1 <= msize x -> Forall (fun y => 1 <= msize y) l ->
  Forall (fun y => sep (box_of x) (box_of y)) l ->
  chain l -> chain (sort_insert x l).
Proof.
  intros Hx. induction l as [|y l IH]; intros Hl Hs Hc; simpl.
  - repeat constructor.
  - inversion Hl as [|? ? Hy Hl']; subst.
    inversion Hs as [|? ? Hxy Hs']; subst.
    apply FOP_cons_iff in Hc. destruct Hc as [Hyl Hc].
    destruct (match_leb x y) eqn:E.
    + assert (Bxy : block_before x y) by now apply leb_sep_before.
      apply FOP_cons_iff. split.
      * constructor; [exact Bxy|].
        eapply Forall_impl; [|exact Hyl]. intros z. now apply block_before_trans.
      * apply FOP_cons_iff. tauto.
    + apply FOP_cons_iff. split; [|now apply IH].
      apply Forall_forall. intros z Hz. apply (proj1 (sort_insert_In _ _ _)) in Hz.
      destruct Hz as [->|Hz].
      * now apply nleb_sep_before.
      * rewrite Forall_forall in Hyl. now apply Hyl.
Qed.

Lemma sort_blocks_chain l :
  Forall (fun y => 1 <= msize y) l ->
  ForallOrdPairs sep (map box_of l) -> chain (sort_blocks l).
Proof.
  induction l as [|x l IH]; intros Hl Hs; simpl; [constructor|].
  inversion Hl as [|? ? Hx Hl']; subst.
  simpl in Hs. apply FOP_cons_iff in Hs. destruct Hs as [Hxl Hs].
  apply sort_insert_chain.
  - exact Hx.
  - apply Forall_forall. intros z Hz. apply (proj1 (sort_blocks_In _ _)) in Hz.
    rewrite Forall_forall in Hl'. now apply Hl'.
  - apply Forall_forall. intros z Hz. apply (proj1 (sort_blocks_In _ _)) in Hz.
    rewrite Forall_forall in Hxl. apply Hxl. now apply in_map.
  - now apply IH.
Qed.

(** The block under comparison, unless it is the initial dummy *)
Definition pending (cur : Match) : list Match :=
  if msize cur =? 0 then [] else [cur].

Lemma good_block_merge i1 j1 k1 k2 :
  good_block (i1, j1, k1) -> good_block (i1 + k1, j1 + k1, k2) ->
  good_block (i1, j1, k1 + k2).
Proof.
  unfold good_block. intros (A1 & A2 & A3 & A4) (B1 & B2 & B3 & B4).
  split; [lia|split; [lia|split; [lia|]]].
  intros x Hx. destruct (Nat.lt_ge_cases x k1) as [Hlt|Hge].
  - now apply A4.
  - replace (i1 + x) with (i1 + k1 + (x - k1)) by lia.
    replace (j1 + x) with (j1 + k1 + (x - k1)) by lia.
    apply B4. lia.
Qed.

Lemma collapse_loop_ok : forall blocks cur non_adjacent,
  (msize cur = 0 -> cur = (0, 0, 0)) ->
  chain (non_adjacent ++ pending cur ++ blocks) ->
  Forall good_block (non_adjacent ++ pending cur ++ blocks) ->
  chain (snd (collapse_loop blocks cur non_adjacent) ++
         pending (fst (collapse_loop blocks cur non_adjacent))) /\
  Forall good_block (snd (collapse_loop blocks cur non_adjacent) ++
                     pending (fst (collapse_loop blocks cur non_adjacent))).
Proof.
  induction blocks as [|[[i2 j2] k2] blocks IH]; intros [[i1 j1] k1] na Hd Hc Hg.
  - simpl. rewrite app_nil_r in Hc, Hg. tauto.
  - cbn [collapse_loop].
    assert (Hx : good_block (i2, j2, k2)).
    { rewrite !Forall_app in Hg. destruct Hg as (_ & _ & Hg).
      now inversion Hg. }
    assert (Hk2 : 1 <= k2) by apply Hx.
    destruct (Nat.eqb_spec (i1 + k1) i2) as [Ei|Ei];
      [destruct (Nat.eqb_spec (j1 + k1) j2) as [Ej|Ej]|]; cbn [andb].
    + (* adjacent: the two blocks become one *)
      subst i2 j2. apply IH.
      * unfold msize. simpl. lia.
      * unfold pending, msize in *. cbn [snd] in *.
        destruct (Nat.eqb_spec k1 0) as [E0|E0].
        -- subst k1. specialize (Hd eq_refl). inversion Hd; subst.
           destruct (Nat.eqb_spec (0 + k2) 0); [lia|]. exact Hc.
        -- destruct (Nat.eqb_spec (k1 + k2) 0); [lia|].
           unfold chain in *. change (?x :: nil ++ ?l) with (x :: l) in *.
           cbn [app] in Hc |- *.
           rewrite FOP_app_iff, !FOP_cons_iff in Hc.
           rewrite FOP_app_iff, FOP_cons_iff.
           destruct Hc as (C1 & (C2 & C3 & C4) & C5).
           split; [exact C1|split; [split|]].
           ++ eapply Forall_impl; [|exact C3].
              intros [[i3 j3] k3]. unfold block_before, before. simpl. lia.
           ++ tauto.
           ++ intros x y Hin [<-|Hy].
              ** specialize (C5 x (i1, j1, k1) Hin (or_introl eq_refl)).
                 destruct x as [[i0 j0] k0]. unfold block_before, before in *.
                 simpl in *. lia.
              ** apply C5; [exact Hin|]. right. now right.
      * unfold pending, msize in *. cbn [snd] in *.
        destruct (Nat.eqb_spec k1 0) as [E0|E0].
        -- subst k1. specialize (Hd eq_refl). inversion Hd; subst.
           destruct (Nat.eqb_spec (0 + k2) 0); [lia|]. exact Hg.
        -- destruct (Nat.eqb_spec (k1 + k2) 0); [lia|].
           cbn [app] in *. rewrite !Forall_app in *.
           destruct Hg as (G1 & G2). split; [exact G1|].
           inversion G2 as [|? ? Hcur G3]; subst.
           inversion G3 as [|? ? Hnext G4]; subst.
           constructor; [|exact G4]. now apply good_block_merge.
    + (* not adjacent in [b] *)
      assert (E : (if k1 =? 0 then na else na ++ [(i1, j1, k1)]) ++
                  pending (i2, j2, k2) ++ blocks =
                  na ++ pending (i1, j1, k1) ++ (i2, j2, k2) :: blocks).
      { unfold pending, msize. cbn [snd].
        destruct (Nat.eqb_spec k2 0); [lia|].
        destruct (k1 =? 0); [reflexivity|]. now rewrite <- app_assoc. }
      apply IH; [unfold msize; simpl; lia|now rewrite E|now rewrite E].
    + assert (E : (if k1 =? 0 then na else na ++ [(i1, j1, k1)]) ++
                  pending (i2, j2, k2) ++ blocks =
                  na ++ pending (i1, j1, k1) ++ (i2, j2, k2) :: blocks).
      { unfold pending, msize. cbn [snd].
        destruct (Nat.eqb_spec k2 0); [lia|].
        destruct (k1 =? 0); [reflexivity|]. now rewrite <- app_assoc. }
      apply IH; [unfold msize; simpl; lia|now rewrite E|now rewrite E].
Qed.

Lemma get_matching_blocks_eq :
  get_matching_blocks dflt a b =
  snd (collapse_loop (sort_blocks (raw_matching_blocks dflt a b)) (0, 0, 0) []) ++
  pending (fst (collapse_loop (sort_blocks (raw_matching_blocks dflt a b)) (0, 0, 0) []))
  ++ [(length a, length b, 0)].
Proof.
  unfold get_matching_blocks, pending.
  destruct (collapse_loop (sort_blocks (raw_matching_blocks dflt a b)) (0, 0, 0) [])
    as [[[i1 j1] k1] na].
  unfold msize. simpl. destruct (k1 =? 0); simpl.
  - reflexivity.
  - now rewrite <- app_assoc.
Qed.

(** A block of the result: a common block inside the sequences *)
Definition valid_block (m : Match) : Prop :=
  let '(i, j, k) := m in
  i + k <= length a /\ j + k <= length b /\ is_match dflt a b i j k.

(** The documented guarantees of [get_matching_blocks]: every triple
    describes a common block, and the triples are increasing in both
    sequences without overlap. *)
Lemma get_matching_blocks_ok :
  Forall valid_block (get_matching_blocks dflt a b) /\
  chain (get_matching_blocks dflt a b).
Proof.
  destruct raw_matching_blocks_ok as [Hg Hs].
  assert (Hsorted : chain (sort_blocks (raw_matching_blocks dflt a b))).
  { apply sort_blocks_chain; [|exact Hs].
    eapply Forall_impl; [|exact Hg]. intros [[i j] k] Hb. apply Hb. }
  assert (Hgs : Forall good_block (sort_blocks (raw_matching_blocks dflt a b))).
  { apply Forall_forall. intros z Hz. apply (proj1 (sort_blocks_In _ _)) in Hz.
    rewrite Forall_forall in Hg. now apply Hg. }
  destruct (@collapse_loop_ok (sort_blocks (raw_matching_blocks dflt a b))
              (0, 0, 0) []) as [Hc Hgc]; [reflexivity|exact Hsorted|exact Hgs|].
  rewrite get_matching_blocks_eq, app_assoc.
  set (l := snd _ ++ pending _) in *.
  split.
  - apply Forall_app. split.
    + eapply Forall_impl; [|exact Hgc]. intros [[i j] k] Hb.
      unfold valid_block. unfold good_block in Hb. tauto.
    + repeat constructor; simpl; try lia. intros x Hx. lia.
  - apply FOP_app_iff. split; [exact Hc|split; [repeat constructor|]].
    intros [[i j] k] y Hx [<-|[]]. rewrite Forall_forall in Hgc.
    apply Hgc in Hx. unfold good_block in Hx.
    unfold block_before, before. simpl. lia.
Qed.

Lemma chain_sum_a : forall l lo,
  lo <= length a -> chain l ->
  Forall (fun m : Match => lo <= fst (fst m) /\ fst (fst m) + msize m <= length a) l ->
  list_sum (map msize l) + lo <= length a.
Proof.
  induction l as [|[[i j] k] l IH]; intros lo Hlo Hc Hl; simpl; [lia|].
  apply FOP_cons_iff in Hc. destruct Hc as [Hx Hc].
  inversion Hl as [|? ? Hx0 Hl']; subst. unfold msize in Hx0. simpl in Hx0.
  assert (IH' := IH (i + k)).
  change (msize (i, j, k)) with k.
  enough (list_sum (map msize l) + (i + k) <= length a) by lia.
  apply IH'; [lia|exact Hc|].
  rewrite Forall_forall in *. intros [[i' j'] k'] Hin.
  specialize (Hx _ Hin). specialize (Hl' _ Hin).
  unfold block_before, before, msize in *. simpl in *. lia.
Qed.

Lemma chain_sum_b : forall l lo,
  lo <= length b -> chain l ->
  Forall (fun m : Match => lo <= snd (fst m) /\ snd (fst m) + msize m <= length b) l ->
  list_sum (map msize l) + lo <= length b.
Proof.
  induction l as [|[[i j] k] l IH]; intros lo Hlo Hc Hl; simpl; [lia|].
  apply FOP_cons_iff in Hc. destruct Hc as [Hx Hc].
  inversion Hl as [|? ? Hx0 Hl']; subst. unfold msize in Hx0. simpl in Hx0.
  assert (IH' := IH (j + k)).
  change (msize (i, j, k)) with k.
  enough (list_sum (map msize l) + (j + k) <= length b) by lia.
  apply IH'; [lia|exact Hc|].
  rewrite Forall_forall in *. intros [[i' j'] k'] Hin.
  specialize (Hx _ Hin). specialize (Hl' _ Hin).
  unfold block_before, before, msize in *. simpl in *. lia.
Qed.

(** The number of matches is at most the length of either sequence. *)
Lemma matches_le : matches dflt a b <= length a /\ matches dflt a b <= length b.
Proof.
  destruct get_matching_blocks_ok as [Hv Hc]. unfold matches.
  split.
  - pose proof (@chain_sum_a (get_matching_blocks dflt a b) 0 (Nat.le_0_l _) Hc) as Hs.
    rewrite Nat.add_0_r in Hs. apply Hs.
    eapply Forall_impl; [|exact Hv]. intros [[i j] k] Hb.
    unfold valid_block, msize in *. simpl. lia.
  - pose proof (@chain_sum_b (get_matching_blocks dflt a b) 0 (Nat.le_0_l _) Hc) as Hs.
    rewrite Nat.add_0_r in Hs. apply Hs.
    eapply Forall_impl; [|exact Hv]. intros [[i j] k] Hb.
    unfold valid_block, msize in *. simpl. lia.
Qed.
End BlocksFacts.

(** ** difflib: the ratio *)

Section RatioFacts.
Context {T : Type} `{EqDecB T}.
Variable dflt : T.

Lemma find_longest_match_self (a : list T) :
  find_longest_match dflt a a 0 (length a) 0 (length a) = (0, 0, length a).
Proof. apply find_longest_match_with_self. apply chain_b_ok. Qed.

Lemma get_matching_blocks_self (a : list T) :
  get_matching_blocks dflt a a =
  match a with
  | [] => [(0, 0, 0)]
  | _ :: _ => [(0, 0, length a); (length a, length a, 0)]
  end.
Proof.
  unfold get_matching_blocks, raw_matching_blocks, blocks_fuel.
  replace (2 * length a + 2) with (S (S (2 * length a))) by lia.
  rewrite blocks_loop_step, find_longest_match_self.
  destruct a as [|x a]; [reflexivity|].
  cbn [length Nat.eqb]. unfold next_queue.
  rewrite ?Nat.ltb_irrefl. cbn [andb Nat.ltb Nat.leb].
  cbn [blocks_loop app sort_blocks sort_insert collapse_loop Nat.add
       Nat.eqb andb]. reflexivity.
Qed.

Lemma matches_self (a : list T) : matches dflt a a = length a.
Proof.
  unfold matches. rewrite get_matching_blocks_self.
  destruct a; simpl; unfold msize; simpl; lia.
Qed.
End RatioFacts.

Lemma Zpos_of_nat (n : nat) : n <> 0 -> Zpos (Pos.of_nat n) = Z.of_nat n.
Proof.
  intros Hn. rewrite <- positive_nat_Z, Nat2Pos.id by exact Hn. reflexivity.
Qed.

Lemma calculate_ratio_Qeq (m t : nat) :
  t <> 0 -> (calculate_ratio m t == inject_Z (Z.of_nat (2 * m)) / inject_Z (Z.of_nat t))%Q.
Proof.
  intros Ht. unfold calculate_ratio.
  destruct (Nat.eqb_spec t 0) as [E|_]; [contradiction|].
  rewrite Qred_correct. rewrite Qmake_Qdiv, Zpos_of_nat by exact Ht. reflexivity.
Qed.


Lemma calculate_ratio_full (n : nat) : calculate_ratio n (n + n) = 1%Q.
Proof.
  unfold calculate_ratio.
  destruct (Nat.eqb_spec (n + n) 0) as [E|Ht]; [reflexivity|].
  change 1%Q with (Qred 1). apply Qred_complete.
  unfold Qeq. cbn [Qnum Qden]. rewrite Zpos_of_nat by exact Ht. lia.
Qed.

(** A member list compared with itself scores 1. *)
Lemma ratio_self (l : list string) : ratio l l = 1%Q.
Proof. unfold ratio. rewrite matches_self. apply calculate_ratio_full. Qed.


(** ** The Cluster Loader and the Membership Index Builder *)

(** All protein identifiers listed by a program, cluster after cluster *)
Definition proteins_of (prog_dict : dict string (list string)) : list string :=
  flat_map snd prog_dict.

(** The first cluster, in the order of the mapping, that lists [prot] *)
Definition first_cluster_of (prog_dict : dict string (list string)) (prot : string)
  : option string :=
  match find (fun e => py_in prot (snd e)) prog_dict with
  | Some e => Some (fst e)
  | None => None
  end.

(** The last cluster, in the order of the mapping, that lists [prot] *)
Definition last_cluster_of (prog_dict : dict string (list string)) (prot : string)
  : option string :=
  first_cluster_of (rev prog_dict) prot.

(** The value of a slot: the first cluster listing the protein, or the
    sentinel *)
Definition slot_of (prog_dict : dict string (list string)) (prot : string) : string :=
  match first_cluster_of prog_dict prot with
  | Some og => og
  | None => sentinel
  end.

Definition record_of (d1 d2 d3 d4 : dict string (list string)) (prot : string) : slots :=
  mk_slots (slot_of d1 prot) (slot_of d2 prot) (slot_of d3 prot) (slot_of d4 prot).

(** Slot [i] of a record, [record[i]] *)
Definition slot_at (i : nat) (r : slots) : string := nth i (slots_list r) "".

Section IndexFacts.
Context {SO : SetOrder}.
Variable G : Globals.

Lemma queries_dataframe_of d : queries (dataframe_of d) = proteins_of d.
Proof.
  unfold queries, dataframe_of, proteins_of.
  induction d as [|[c L] d IH]; simpl; [reflexivity|].
  rewrite map_app, IH, map_map. simpl. now rewrite map_id.
Qed.

Lemma loc_query_app df1 df2 prot :
  loc_query (df1 ++ df2) prot = loc_query df1 prot ++ loc_query df2 prot.
Proof. unfold loc_query. now rewrite filter_app, map_app. Qed.

Lemma loc_query_cluster c L prot :
  hd_error (loc_query (map (fun var => (var, c)) L) prot) =
  if py_in prot L then Some c else None.
Proof.
  unfold loc_query, py_in. induction L as [|v L IH]; simpl; [reflexivity|].
  rewrite String.eqb_sym. destruct (String.eqb prot v); simpl; [reflexivity|exact IH].
Qed.

Lemma loc_query_head d prot :
  hd_error (loc_query (dataframe_of d) prot) = first_cluster_of d prot.
Proof.
  unfold first_cluster_of.
  induction d as [|[c L] d IH]; simpl; [reflexivity|].
  rewrite loc_query_app.
  pose proof (loc_query_cluster c L prot) as Hc.
  destruct (loc_query (map (fun var => (var, c)) L) prot) as [|x l]; simpl in *.
  - destruct (py_in prot L); [discriminate|exact IH].
  - destruct (py_in prot L); [exact Hc|discriminate].
Qed.

Lemma first_cluster_of_None d prot :
  first_cluster_of d prot = None <-> ~ In prot (proteins_of d).
Proof.
  unfold first_cluster_of, proteins_of.
  induction d as [|[c L] d IH]; simpl; [tauto|].
  rewrite in_app_iff. destruct (py_in prot L) eqn:E.
  - apply py_in_In in E. split; [discriminate|tauto].
  - apply py_in_false in E. rewrite IH. tauto.
Qed.

(** [first_cluster_of] is the first cluster that lists the protein. *)
Lemma first_cluster_of_split l1 c members l2 prot :
  In prot members ->
  (forall c' members', In (c', members') l1 -> ~ In prot members') ->
  first_cluster_of (l1 ++ (c, members) :: l2) prot = Some c.
Proof.
  intros Hin Hl1. unfold first_cluster_of.
  induction l1 as [|[c' m'] l1 IH]; simpl.
  - now rewrite (proj2 (py_in_In prot members) Hin).
  - rewrite (proj2 (py_in_false prot m')).
    + apply IH. intros c0 m0 H0. apply (Hl1 c0). now right.
    + apply (Hl1 c'). now left.
Qed.

Lemma first_cluster_of_In d prot c :
  first_cluster_of d prot = Some c ->
  exists members, In (c, members) d /\ In prot members.
Proof.
  unfold first_cluster_of.
  destruct (find (fun e => py_in prot (snd e)) d) as [[c' m]|] eqn:E; [|discriminate].
  intros Ec. inversion Ec; subst. apply find_some in E. destruct E as [Hin Hp].
  exists m. split; [exact Hin|]. now apply py_in_In.
Qed.

(** What the body of the loop computes for one program *)
Lemma og_of_spec d prot :
  og_of (dataframe_of d) (queries (dataframe_of d)) prot = ret (slot_of d prot).
Proof.
  unfold og_of, slot_of. rewrite queries_dataframe_of.
  pose proof (loc_query_head d prot) as Hh.
  pose proof (first_cluster_of_None d prot) as Hn.
  destruct (py_in prot (proteins_of d)) eqn:E.
  - apply py_in_In in E.
    destruct (first_cluster_of d prot) as [c|]; [|tauto].
    destruct (loc_query (dataframe_of d) prot); [discriminate|].
    simpl in Hh. inversion Hh. reflexivity.
  - apply py_in_false in E.
    rewrite (proj2 Hn E). reflexivity.
Qed.

Lemma prot_dict_loop_spec d1 d2 d3 d4 prots : forall acc,
  prot_dict_loop (dataframe_of d1) (dataframe_of d2) (dataframe_of d3)
    (dataframe_of d4) prots acc =
  ret (fold_left (fun d p => dict_set d p (record_of d1 d2 d3 d4 p)) prots acc).
Proof.
  induction prots as [|p prots IH]; intros acc; simpl; [reflexivity|].
  rewrite !og_of_spec. simpl. apply IH.
Qed.

Lemma fold_dict_set_fresh {V} (f : string -> V) prots : forall acc : dict string V,
  NoDup prots -> (forall p, In p prots -> ~ In p (dict_keys acc)) ->
  fold_left (fun d p => dict_set d p (f p)) prots acc =
  acc ++ map (fun p => (p, f p)) prots.
Proof.
  induction prots as [|p prots IH]; intros acc Hnd Hfresh; simpl.
  - now rewrite app_nil_r.
  - apply NoDup_cons_iff in Hnd. destruct Hnd as [Hp Hnd].
    rewrite dict_set_fresh by (apply Hfresh; now left).
    rewrite IH.
    + now rewrite <- app_assoc.
    + exact Hnd.
    + intros q Hq. unfold dict_keys. rewrite map_app, in_app_iff. simpl.
      intros [Hin|[E|[]]].
      * apply (Hfresh q); [now right|exact Hin].
      * subst q. contradiction.
Qed.

(** The index: one record per element of the set of queries, in the
    order in which the set is iterated *)
Definition index_of (d1 d2 d3 d4 : dict string (list string)) : dict string slots :=
  map (fun p => (p, record_of d1 d2 d3 d4 p))
    (set_iter (proteins_of d1 ++ proteins_of d2 ++ proteins_of d3 ++ proteins_of d4)).

Definition prot_dict_file : string := ("prot_dict_" ++ run_identifier G ++ ".json")%string.
Definition filt_prot_dict_file : string :=
  ("filt_prot_dict_" ++ run_identifier G ++ ".json")%string.
Definition compare_file : string :=
  ("compare_OG_dict_" ++ run_identifier G ++ ".json")%string.
Definition score_file : string :=
  ("og_score_dict_" ++ run_identifier G ++ ".json")%string.

Lemma create_prot_dict_spec d1 d2 d3 d4 fs :
  create_prot_dict G (dataframe_of d1) (dataframe_of d2) (dataframe_of d3)
    (dataframe_of d4) fs =
  (inr (index_of d1 d2 d3 d4),
   dict_set fs prot_dict_file (JsonFile (json_of_prot_dict (index_of d1 d2 d3 d4)))).
Proof.
  unfold create_prot_dict, io_bind, lift, json_dump, io_ret.
  rewrite prot_dict_loop_spec, !queries_dataframe_of.
  rewrite fold_dict_set_fresh; [reflexivity|apply set_iter_NoDup|].
  intros p _ [].
Qed.

Lemma index_of_keys d1 d2 d3 d4 :
  dict_keys (index_of d1 d2 d3 d4) =
  set_iter (proteins_of d1 ++ proteins_of d2 ++ proteins_of d3 ++ proteins_of d4).
Proof. unfold index_of, dict_keys. rewrite map_map. simpl. apply map_id. Qed.

Lemma index_of_wf d1 d2 d3 d4 : dict_wf (index_of d1 d2 d3 d4).
Proof. unfold dict_wf. rewrite index_of_keys. apply set_iter_NoDup. Qed.

Lemma index_of_get d1 d2 d3 d4 p r :
  dict_get (index_of d1 d2 d3 d4) p = Some r -> r = record_of d1 d2 d3 d4 p.
Proof.
  intros E. apply dict_get_Some_In in E. unfold index_of in E.
  apply in_map_iff in E. destruct E as [q [Eq _]]. now inversion Eq.
Qed.
End IndexFacts.

Lemma slot_at_record_of d1 d2 d3 d4 p i :
  i < 4 -> slot_at i (record_of d1 d2 d3 d4 p) = slot_of (nth i [d1; d2; d3; d4] []) p.
Proof.
  intros Hi. destruct i as [|[|[|[|i]]]]; try reflexivity. lia.
Qed.

Lemma slot_of_absent d p : ~ In p (proteins_of d) -> slot_of d p = sentinel.
Proof.
  intros Hn. unfold slot_of. now rewrite (proj2 (first_cluster_of_None d p) Hn).
Qed.

Lemma slot_of_present d p :
  In p (proteins_of d) -> first_cluster_of d p = Some (slot_of d p).
Proof.
  intros Hin. unfold slot_of.
  destruct (first_cluster_of d p) eqn:E; [reflexivity|].
  apply first_cluster_of_None in E. contradiction.
Qed.

Lemma slot_of_sentinel d p :
  ~ In sentinel (dict_keys d) ->
  (slot_of d p = sentinel <-> ~ In p (proteins_of d)).
Proof.
  intros Hkeys. split; [|apply slot_of_absent].
  intros Es Hin. apply slot_of_present in Hin. rewrite Es in Hin.
  apply first_cluster_of_In in Hin. destruct Hin as [m [Hin _]].
  apply Hkeys. apply (in_map fst) in Hin. exact Hin.
Qed.

Lemma index_of_get_present {SO : SetOrder} d1 d2 d3 d4 p :
  In p (proteins_of d1) \/ In p (proteins_of d2) \/
  In p (proteins_of d3) \/ In p (proteins_of d4) ->
  dict_get (index_of d1 d2 d3 d4) p = Some (record_of d1 d2 d3 d4 p).
Proof.
  intros Hin. apply dict_get_In; [apply index_of_wf|].
  unfold index_of. apply in_map_iff. exists p. split; [reflexivity|].
  apply set_iter_In. rewrite !in_app_iff. tauto.
Qed.

(** The run settings used in the examples *)
Definition example_globals : Globals :=
  {| run_identifier := "run"; program_list := default_program_list;
     percent := 50; membership_results := "OG_membership_results___50.txt" |}.

(** C7, as amended.  The index has one record per protein identifier of
    the union of the four mappings and no other key; slot [i] of the record
    of [p] holds the sentinel when program [i] does not list [p], and
    otherwise the identifier of the first cluster of program [i] that lists
    [p]; when no cluster of program [i] is itself named ["-"], the slot is
    the sentinel exactly when the program does not list [p]. *)
Theorem create_prot_dict_index :
  forall (SO : SetOrder) (G : Globals)
         (d1 d2 d3 d4 : dict string (list string)) (fs : files),
  exists prot_dict fs',
    create_prot_dict G (dataframe_of d1) (dataframe_of d2)
      (dataframe_of d3) (dataframe_of d4) fs = (inr prot_dict, fs') /\
    dict_wf prot_dict /\
    (forall p, In p (dict_keys prot_dict) <->
               In p (proteins_of d1) \/ In p (proteins_of d2) \/
               In p (proteins_of d3) \/ In p (proteins_of d4)) /\
    (forall p r i, dict_get prot_dict p = Some r -> i < 4 ->
       (~ In p (proteins_of (nth i [d1; d2; d3; d4] [])) ->
        slot_at i r = sentinel) /\
       (In p (proteins_of (nth i [d1; d2; d3; d4] [])) ->
        first_cluster_of (nth i [d1; d2; d3; d4] []) p = Some (slot_at i r)) /\
       (~ In sentinel (dict_keys (nth i [d1; d2; d3; d4] [])) ->
        (slot_at i r = sentinel <->
         ~ In p (proteins_of (nth i [d1; d2; d3; d4] []))))).
Proof.
  intros SO G d1 d2 d3 d4 fs.
  eexists. eexists. split; [apply create_prot_dict_spec|].
  split; [apply index_of_wf|]. split.
  - intros p. rewrite index_of_keys, set_iter_In, !in_app_iff. tauto.
  - intros p r i Eg Hi. apply index_of_get in Eg. subst r.
    rewrite slot_at_record_of by exact Hi.
    split; [apply slot_of_absent|split; [apply slot_of_present|apply slot_of_sentinel]].
Qed.

(** C7 as stated fails: a cluster that is itself named ["-"] puts the
    sentinel in the slot of a protein that the program does list. *)
Lemma create_prot_dict_sentinel_collision :
  exists r,
    fst (create_prot_dict example_globals
           (dataframe_of [("-", ["p1"])]) (dataframe_of [("OG1", ["p1"])])
           (dataframe_of []) (dataframe_of []) []) = inr [("p1", r)] /\
    slot_at 0 r = sentinel /\
    In "p1" (proteins_of [("-", ["p1"])]).
Proof.
  eexists. split; [reflexivity|]. split; [reflexivity|]. simpl. tauto.
Qed.

(** C2, as amended.  When program [i] lists a protein in several clusters,
    the slot holds the first of them in the order of the mapping: if cluster
    [c] lists [p] and no cluster before [c] does, the slot is [c], whatever
    clusters follow. *)
Theorem create_prot_dict_first_seen :
  forall (SO : SetOrder) (G : Globals)
         (d1 d2 d3 d4 : dict string (list string)) (fs : files)
         (i : nat) (l1 l2 : dict string (list string))
         (c : string) (members : list string) (p : string),
    i < 4 ->
    nth i [d1; d2; d3; d4] [] = l1 ++ (c, members) :: l2 ->
    In p members ->
    (forall c' members', In (c', members') l1 -> ~ In p members') ->
    exists prot_dict fs' r,
      create_prot_dict G (dataframe_of d1) (dataframe_of d2)
        (dataframe_of d3) (dataframe_of d4) fs = (inr prot_dict, fs') /\
      dict_get prot_dict p = Some r /\
      slot_at i r = c.
Proof.
  intros SO G d1 d2 d3 d4 fs i l1 l2 c members p Hi Ed Hin Hl1.
  assert (Hfirst : first_cluster_of (nth i [d1; d2; d3; d4] []) p = Some c)
    by (rewrite Ed; now apply first_cluster_of_split).
  assert (Hp : In p (proteins_of (nth i [d1; d2; d3; d4] []))).
  { destruct (first_cluster_of_None (nth i [d1; d2; d3; d4] []) p) as [_ Hnone].
    destruct (in_dec string_dec p (proteins_of (nth i [d1; d2; d3; d4] [])))
      as [Hy|Hn]; [exact Hy|]. rewrite (Hnone Hn) in Hfirst. discriminate. }
  exists (index_of d1 d2 d3 d4). eexists. exists (record_of d1 d2 d3 d4 p).
  split; [apply create_prot_dict_spec|]. split.
  - apply index_of_get_present.
    destruct i as [|[|[|[|i]]]]; simpl in Hp; try tauto. lia.
  - rewrite slot_at_record_of by exact Hi.
    apply slot_of_present in Hp. congruence.
Qed.

Lemma create_prot_dict_first_seen_witness :
  (0 < 4 /\
   nth 0 [[("OG1", ["p1"]); ("OG2", ["p1"])]; []; []; []] [] =
     [] ++ ("OG1", ["p1"]) :: [("OG2", ["p1"])] /\
   In "p1" ["p1"] /\
   (forall c' members', In (c', members') (@nil (string * list string)) ->
                        ~ In "p1" members')) /\
  exists prot_dict fs' r,
    create_prot_dict example_globals
      (dataframe_of [("OG1", ["p1"]); ("OG2", ["p1"])]) (dataframe_of [])
      (dataframe_of []) (dataframe_of []) [] = (inr prot_dict, fs') /\
    dict_get prot_dict "p1" = Some r /\
    slot_at 0 r = "OG1".
Proof.
  assert (H : 0 < 4 /\
   nth 0 [[("OG1", ["p1"]); ("OG2", ["p1"])]; []; []; []] [] =
     [] ++ ("OG1", ["p1"]) :: [("OG2", ["p1"])] /\
   In "p1" ["p1"] /\
   (forall c' members', In (c', members') (@nil (string * list string)) ->
                        ~ In "p1" members')).
  { split; [lia|]. split; [reflexivity|]. split; [simpl; tauto|].
    intros c' members' []. }
  split; [exact H|].
  destruct H as (H1 & H2 & H3 & H4).
  exact (@create_prot_dict_first_seen first_occurrence_order example_globals
           [("OG1", ["p1"]); ("OG2", ["p1"])] [] [] [] [] 0 [] [("OG2", ["p1"])]
           "OG1" ["p1"] "p1" H1 H2 H3 H4).
Defined.

(** C2 as stated fails: of two clusters listing the same protein the index
    keeps the first, not the last. *)
Lemma create_prot_dict_not_last_seen :
  exists r,
    fst (create_prot_dict example_globals
           (dataframe_of [("OG1", ["p1"]); ("OG2", ["p1"])]) (dataframe_of [])
           (dataframe_of []) (dataframe_of []) []) = inr [("p1", r)] /\
    last_cluster_of [("OG1", ["p1"]); ("OG2", ["p1"])] "p1" = Some "OG2" /\
    slot_at 0 r = "OG1" /\ slot_at 0 r <> "OG2".
Proof.
  eexists. split; [reflexivity|]. split; [reflexivity|].
  split; [reflexivity|]. discriminate.
Qed.

(** C9.  Filtering an index that is already filtered gives it back
    unchanged, for every input index. *)
Theorem filter_prot_dict_idempotent :
  forall (G : Globals) (prot_dict : dict string slots) (fs fs' : files),
  exists filt_prot_dict,
    fst (filter_prot_dict G prot_dict fs) = inr filt_prot_dict /\
    fst (filter_prot_dict G filt_prot_dict fs') = inr filt_prot_dict.
Proof.
  intros G prot_dict fs fs'. exists (filter_loops prot_dict).
  split; [reflexivity|]. unfold filter_prot_dict, io_bind, json_dump, io_ret.
  simpl. f_equal.
  rewrite filter_loops_spec by apply filter_loops_wf.
  assert (Hkept : forall e, In e (filter_loops prot_dict) ->
                            negb (two_distinct (snd e)) = true).
  { intros [key r] Hin. simpl. now rewrite (filter_loops_kept _ _ _ Hin). }
  induction (filter_loops prot_dict) as [|e l IH]; simpl; [reflexivity|].
  rewrite (Hkept e) by now left. f_equal. apply IH.
  intros e' He'. apply Hkept. now right.
Qed.

(** On a dictionary, the filter keeps a record exactly when its four slots
    do not hold exactly two distinct values. *)
Lemma filter_loops_In (prot_dict : dict string slots) key r :
  dict_wf prot_dict ->
  (In (key, r) (filter_loops prot_dict) <->
   In (key, r) prot_dict /\ two_distinct r = false).
Proof.
  intros Hwf. rewrite filter_loops_spec by exact Hwf. rewrite filter_In. simpl.
  destruct (two_distinct r); simpl; intuition congruence.
Qed.

(** C1, the code at an input where it departs from the specification: two
    programs put the protein in a cluster of the same name, so the record
    has two assigned slots, and the filter drops it. *)
Theorem filter_prot_dict_drops_comparable_record :
  exists prot_dict r,
    fst (create_prot_dict example_globals
           (dataframe_of [("OG1", ["p1"])]) (dataframe_of [("OG1", ["p1"])])
           (dataframe_of []) (dataframe_of []) []) = inr prot_dict /\
    dict_get prot_dict "p1" = Some r /\
    non_sentinel_count r = 2 /\
    fst (filter_prot_dict example_globals prot_dict []) = inr [].
Proof.
  eexists. eexists. split; [reflexivity|]. split; [reflexivity|].
  split; reflexivity.
Qed.

(** ** The Pairwise Comparator *)

Section ComparatorFacts.
Variable G : Globals.
Variables d1 d2 d3 d4 : dict string (list string).

Local Open Scope py_scope.

(** The arguments of one block of the loop body: the key of the score list,
    and the two cluster identifiers with the mappings that resolve them, in
    the order in which the code resolves them *)
Definition block : Type :=
  (string * string * dict string (list string) * string * dict string (list string))%type.

Definition guarded (bl : block) (cd : dict string (list Q))
  : result (dict string (list Q)) :=
  let '(name, first_og, first_dict, second_og, second_dict) := bl in
  if assigned first_og && assigned second_og
  then compare_block name first_og first_dict second_og second_dict cd
  else ret cd.

Fixpoint run_blocks (bls : list block) (cd : dict string (list Q))
  : result (dict string (list Q)) :=
  match bls with
  | [] => ret cd
  | bl :: bls' => cd' <- guarded bl cd ;; run_blocks bls' cd'
  end.

Definition blocks_of (r : slots) : list block :=
  [(comparison_1_name G, slot0 r, d1, slot1 r, d2);
   (comparison_2_name G, slot0 r, d1, slot2 r, d3);
   (comparison_3_name G, slot0 r, d1, slot3 r, d4);
   (comparison_4_name G, slot2 r, d3, slot1 r, d2);
   (comparison_5_name G, slot3 r, d4, slot1 r, d2);
   (comparison_6_name G, slot2 r, d3, slot3 r, d4)].

Lemma membership_body_blocks r cd :
  membership_body G d1 d2 d3 d4 r cd = run_blocks (blocks_of r) cd.
Proof.
  unfold membership_body, blocks_of, run_blocks, guarded.
  rewrite (andb_comm (assigned (slot1 r)) (assigned (slot2 r))).
  rewrite (andb_comm (assigned (slot1 r)) (assigned (slot3 r))).
  repeat (match goal with
          | |- bind ?m _ = bind ?m _ => destruct m as [?|?]; [reflexivity|]; simpl
          end).
  match goal with |- ?m = bind ?m _ => destruct m; reflexivity end.
Qed.

(** Both clusters of a block resolve, or the block is skipped. *)
Definition block_ok (bl : block) : bool :=
  let '(_, first_og, first_dict, second_og, second_dict) := bl in
  negb (assigned first_og && assigned second_og) ||
  (dict_mem first_dict first_og && dict_mem second_dict second_og).

Definition block_name (bl : block) : string :=
  let '(name, _, _, _, _) := bl in name.

(** A cluster identifier that a block needs and its mapping lacks *)
Definition block_missing (bl : block) (k : string) : Prop :=
  let '(_, first_og, first_dict, second_og, second_dict) := bl in
  assigned first_og = true /\ assigned second_og = true /\
  ((k = first_og /\ ~ In k (dict_keys first_dict)) \/
   (k = second_og /\ ~ In k (dict_keys second_dict))).

Definition all_scores (P : Q -> Prop) (cd : dict string (list Q)) : Prop :=
  forall name l x, In (name, l) cd -> In x l -> P x.

Lemma dict_mem_In {V} (d : dict string V) k : dict_mem d k = true <-> In k (dict_keys d).
Proof.
  unfold dict_mem. destruct (dict_get d k) eqn:E.
  - split; [intros _; now apply dict_get_Some_key in E|reflexivity].
  - apply dict_get_None in E. split; [discriminate|contradiction].
Qed.

Lemma dict_append_ok (cd : dict string (list Q)) name x :
  In name (dict_keys cd) ->
  exists l, dict_get cd name = Some l /\
            dict_append cd name x = inr (dict_set cd name (l ++ [x])).
Proof.
  intros Hin. unfold dict_append, py_getitem.
  destruct (dict_get cd name) as [l|] eqn:E.
  - exists l. split; reflexivity.
  - apply dict_get_None in E. contradiction.
Qed.

Lemma guarded_ok (P : Q -> Prop) bl cd :
  (forall a b, P (ratio a b)) ->
  In (block_name bl) (dict_keys cd) -> all_scores P cd ->
  block_ok bl = true ->
  exists cd', guarded bl cd = inr cd' /\ dict_keys cd' = dict_keys cd /\
              all_scores P cd'.
Proof.
  destruct bl as [[[[name oa] da] ob] db]. unfold guarded, block_ok, block_name.
  intros HP Hname Hsc Hok.
  destruct (assigned oa && assigned ob); [|exists cd; auto].
  simpl in Hok. apply andb_true_iff in Hok. destruct Hok as [Ha Hb].
  unfold compare_block, py_getitem, dict_mem in *.
  destruct (dict_get da oa) as [la|]; [|discriminate].
  destruct (dict_get db ob) as [lb|]; [|discriminate]. simpl.
  destruct (@dict_append_ok cd name (ratio la lb) Hname) as (l & El & ->).
  eexists. split; [reflexivity|]. split; [now apply dict_keys_set_present|].
  intros n0 l0 x Hin Hx. apply dict_set_In in Hin.
  destruct Hin as [[_ ->]|Hin]; [|now apply (Hsc n0 l0)].
  apply in_app_iff in Hx. destruct Hx as [Hx|[<-|[]]]; [|apply HP].
  apply dict_get_Some_In in El. now apply (Hsc name l).
Qed.

Lemma guarded_err bl cd :
  In (block_name bl) (dict_keys cd) -> block_ok bl = false ->
  exists k, guarded bl cd = inl (KeyError k) /\ block_missing bl k.
Proof.
  destruct bl as [[[[name oa] da] ob] db]. unfold guarded, block_ok, block_name, block_missing.
  intros Hname Hok.
  destruct (assigned oa) eqn:Ea, (assigned ob) eqn:Eb; simpl in *; try discriminate.
  unfold compare_block, py_getitem.
  destruct (dict_get da oa) as [la|] eqn:Eda.
  - unfold dict_mem in Hok. rewrite Eda in Hok. simpl in Hok.
    destruct (dict_get db ob) as [lb|] eqn:Edb; [discriminate|].
    exists ob. simpl. split; [reflexivity|].
    split; [reflexivity|split; [reflexivity|]]. right. split; [reflexivity|].
    now apply dict_get_None.
  - exists oa. simpl. split; [reflexivity|].
    split; [reflexivity|split; [reflexivity|]]. left. split; [reflexivity|].
    now apply dict_get_None.
Qed.

Lemma run_blocks_ok (P : Q -> Prop) bls : forall cd,
  (forall a b, P (ratio a b)) ->
  (forall bl, In bl bls -> In (block_name bl) (dict_keys cd)) ->
  all_scores P cd -> forallb block_ok bls = true ->
  exists cd', run_blocks bls cd = inr cd' /\ dict_keys cd' = dict_keys cd /\
              all_scores P cd'.
Proof.
  induction bls as [|bl bls IH]; intros cd HP Hnames Hsc Hok; simpl.
  - exists cd. auto.
  - simpl in Hok. apply andb_true_iff in Hok. destruct Hok as [Hb Hbs].
    destruct (@guarded_ok P bl cd HP (Hnames bl (or_introl eq_refl)) Hsc Hb)
      as (cd1 & -> & Hk1 & Hs1). simpl.
    destruct (IH cd1 HP) as (cd2 & E2 & Hk2 & Hs2); [|exact Hs1|exact Hbs|].
    + intros bl' Hin. rewrite Hk1. apply Hnames. now right.
    + exists cd2. split; [exact E2|]. split; [congruence|exact Hs2].
Qed.

Lemma run_blocks_err bls : forall cd,
  (forall bl, In bl bls -> In (block_name bl) (dict_keys cd)) ->
  forallb block_ok bls = false ->
  exists k bl, run_blocks bls cd = inl (KeyError k) /\ In bl bls /\ block_missing bl k.
Proof.
  induction bls as [|bl bls IH]; intros cd Hnames Hok; simpl in *; [discriminate|].
  destruct (block_ok bl) eqn:Eb.
  - simpl in Hok.
    destruct (@guarded_ok (fun _ => True) bl cd (fun _ _ => I)
                (Hnames bl (or_introl eq_refl)) (fun _ _ _ _ _ => I) Eb)
      as (cd1 & -> & Hk1 & _). simpl.
    destruct (IH cd1) as (k & bl' & E & Hin & Hm); [|exact Hok|].
    + intros bl' Hin. rewrite Hk1. apply Hnames. now right.
    + exists k, bl'. split; [exact E|]. split; [now right|exact Hm].
  - destruct (@guarded_err bl cd (Hnames bl (or_introl eq_refl)) Eb) as (k & -> & Hm).
    exists k, bl. split; [reflexivity|]. split; [now left|exact Hm].
Qed.

Definition comparison_names : list string :=
  [comparison_1_name G; comparison_2_name G; comparison_3_name G;
   comparison_4_name G; comparison_5_name G; comparison_6_name G].

Definition names_present (cd : dict string (list Q)) : Prop :=
  forall name, In name comparison_names -> In name (dict_keys cd).

Lemma blocks_of_names r bl : In bl (blocks_of r) -> In (block_name bl) comparison_names.
Proof.
  unfold blocks_of, comparison_names. simpl.
  intros [<-|[<-|[<-|[<-|[<-|[<-|[]]]]]]]; simpl; tauto.
Qed.

Lemma fold_dict_set_keys (names : list string) : forall (cd : dict string (list Q)) name,
  In name (dict_keys (fold_left (fun d n => dict_set d n []) names cd)) <->
  In name names \/ In name (dict_keys cd).
Proof.
  induction names as [|n names IH]; intros cd name; simpl; [tauto|].
  rewrite IH, dict_keys_set_In. intuition.
Qed.

Lemma fold_dict_set_scores (P : Q -> Prop) (names : list string) :
  forall cd : dict string (list Q),
  all_scores P cd ->
  all_scores P (fold_left (fun d n => dict_set d n []) names cd).
Proof.
  induction names as [|n names IH]; intros cd Hsc; simpl; [exact Hsc|].
  apply IH. intros name l x Hin Hx. apply dict_set_In in Hin.
  destruct Hin as [[_ ->]|Hin]; [destruct Hx|now apply (Hsc name l)].
Qed.

Lemma empty_comparison_dict_names : names_present (empty_comparison_dict G).
Proof. intros name Hin. apply fold_dict_set_keys. now left. Qed.

Lemma empty_comparison_dict_scores P : all_scores P (empty_comparison_dict G).
Proof. apply fold_dict_set_scores. intros name l x []. Qed.

(** A record whose blocks all resolve *)
Definition record_ok (r : slots) : bool := forallb block_ok (blocks_of r).

Lemma membership_loop_ok (P : Q -> Prop) items : forall cd,
  (forall a b, P (ratio a b)) ->
  names_present cd -> all_scores P cd ->
  forallb (fun e => record_ok (snd e)) items = true ->
  exists cd', membership_loop G d1 d2 d3 d4 items cd = inr cd' /\
              dict_keys cd' = dict_keys cd /\ all_scores P cd'.
Proof.
  induction items as [|[key r] items IH]; intros cd HP Hn Hsc Hok; simpl.
  - exists cd. auto.
  - simpl in Hok. apply andb_true_iff in Hok. destruct Hok as [Hr Hrest].
    rewrite membership_body_blocks.
    destruct (@run_blocks_ok P (blocks_of r) cd HP) as (cd1 & -> & Hk1 & Hs1);
      [|exact Hsc|exact Hr|].
    + intros bl Hin. apply Hn. now apply (@blocks_of_names r).
    + simpl. destruct (IH cd1 HP) as (cd2 & E2 & Hk2 & Hs2);
        [|exact Hs1|exact Hrest|].
      * intros name Hin. rewrite Hk1. now apply Hn.
      * exists cd2. split; [exact E2|]. split; [congruence|exact Hs2].
Qed.

Lemma membership_loop_err items : forall cd,
  names_present cd ->
  forallb (fun e => record_ok (snd e)) items = false ->
  exists k key r bl,
    membership_loop G d1 d2 d3 d4 items cd = inl (KeyError k) /\
    In (key, r) items /\ In bl (blocks_of r) /\ block_missing bl k.
Proof.
  induction items as [|[key r] items IH]; intros cd Hn Hok; simpl in *; [discriminate|].
  rewrite membership_body_blocks.
  destruct (record_ok r) eqn:Er.
  - simpl in Hok.
    destruct (@run_blocks_ok (fun _ => True) (blocks_of r) cd (fun _ _ => I))
      as (cd1 & -> & Hk1 & _); [|exact (fun _ _ _ _ _ => I)|exact Er|].
    + intros bl Hin. apply Hn. now apply (@blocks_of_names r).
    + simpl. destruct (IH cd1) as (k & key' & r' & bl & E & Hin & Hbl & Hm);
        [|exact Hok|].
      * intros name Hin. rewrite Hk1. now apply Hn.
      * exists k, key', r', bl. split; [exact E|]. split; [now right|tauto].
  - destruct (@run_blocks_err (blocks_of r) cd) as (k & bl & -> & Hin & Hm);
      [|exact Er|].
    + intros bl Hin. apply Hn. now apply (@blocks_of_names r).
    + exists k, key, r, bl. split; [reflexivity|]. split; [now left|tauto].
Qed.
End ComparatorFacts.

Lemma assigned_true_iff og : assigned og = true <-> og <> sentinel.
Proof.
  unfold assigned. destruct (String.eqb_spec og sentinel); simpl; intuition congruence.
Qed.

Ltac nodup_len :=
  cbn [nodup];
  repeat match goal with
         | |- context [in_dec string_dec ?x ?l] =>
             let Hi := fresh "Hi" in
             destruct (in_dec string_dec x l) as [Hi|Hi]; simpl in Hi
         end;
  simpl; try reflexivity; exfalso; intuition congruence.

Lemma py_set_len_one_assigned (s : string) :
  s <> sentinel ->
  py_set_len [s; sentinel; sentinel; sentinel] = 2 /\
  py_set_len [sentinel; s; sentinel; sentinel] = 2 /\
  py_set_len [sentinel; sentinel; s; sentinel] = 2 /\
  py_set_len [sentinel; sentinel; sentinel; s] = 2.
Proof.
  unfold py_set_len, sentinel. intros N. repeat split; nodup_len.
Qed.

(** A record with exactly one assigned slot has two distinct values: it is
    what the filter removes. *)
Lemma two_distinct_count r : two_distinct r = false -> non_sentinel_count r <> 1.
Proof.
  destruct r as [s0 s1 s2 s3].
  unfold two_distinct, non_sentinel_count, slots_list, assigned.
  cbn [slot0 slot1 slot2 slot3 filter].
  destruct (String.eqb_spec s0 sentinel) as [E0|N0],
           (String.eqb_spec s1 sentinel) as [E1|N1],
           (String.eqb_spec s2 sentinel) as [E2|N2],
           (String.eqb_spec s3 sentinel) as [E3|N3];
    subst; cbn [negb length]; try (intros _; lia); intros Ht; exfalso.
  - destruct (py_set_len_one_assigned N3) as (_ & _ & _ & E). rewrite E in Ht. discriminate.
  - destruct (py_set_len_one_assigned N2) as (_ & _ & E & _). rewrite E in Ht. discriminate.
  - destruct (py_set_len_one_assigned N1) as (_ & E & _ & _). rewrite E in Ht. discriminate.
  - destruct (py_set_len_one_assigned N0) as (E & _ & _ & _). rewrite E in Ht. discriminate.
Qed.

(** For a record that does not have exactly one assigned slot, all blocks
    resolve exactly when every assigned slot is a key of the mapping of its
    program. *)
Lemma record_ok_resolved G d1 d2 d3 d4 r :
  non_sentinel_count r <> 1 ->
  (record_ok G d1 d2 d3 d4 r = true <->
   forall i, i < 4 -> slot_at i r <> sentinel ->
             In (slot_at i r) (dict_keys (nth i [d1; d2; d3; d4] []))).
Proof.
  destruct r as [s0 s1 s2 s3]. intros Hc.
  assert (Hall : (forall i, i < 4 -> slot_at i (mk_slots s0 s1 s2 s3) <> sentinel ->
                    In (slot_at i (mk_slots s0 s1 s2 s3))
                       (dict_keys (nth i [d1; d2; d3; d4] []))) <->
                 implb (assigned s0) (dict_mem d1 s0) &&
                 implb (assigned s1) (dict_mem d2 s1) &&
                 implb (assigned s2) (dict_mem d3 s2) &&
                 implb (assigned s3) (dict_mem d4 s3) = true).
  { rewrite !andb_true_iff. split.
    - intros Hi.
      pose proof (Hi 0) as H0. pose proof (Hi 1) as H1.
      pose proof (Hi 2) as H2. pose proof (Hi 3) as H3.
      unfold slot_at in H0, H1, H2, H3. simpl in H0, H1, H2, H3.
      rewrite <- assigned_true_iff, <- dict_mem_In in H0, H1, H2, H3.
      repeat split.
      + destruct (assigned s0); [simpl; apply H0; [lia|reflexivity]|reflexivity].
      + destruct (assigned s1); [simpl; apply H1; [lia|reflexivity]|reflexivity].
      + destruct (assigned s2); [simpl; apply H2; [lia|reflexivity]|reflexivity].
      + destruct (assigned s3); [simpl; apply H3; [lia|reflexivity]|reflexivity].
    - intros (((H0 & H1) & H2) & H3) i Hi.
      destruct i as [|[|[|[|i]]]]; [| | | |lia]; unfold slot_at; simpl;
        rewrite <- assigned_true_iff, <- dict_mem_In; intros Ha;
        rewrite Ha in *; assumption. }
  rewrite Hall. clear Hall.
  unfold record_ok, blocks_of, block_ok, non_sentinel_count, slots_list in *.
  cbn [slot0 slot1 slot2 slot3 forallb filter] in *.
  destruct (assigned s0), (assigned s1), (assigned s2), (assigned s3);
    cbn [length andb negb orb implb] in *; try lia;
    destruct (dict_mem d1 s0), (dict_mem d2 s1), (dict_mem d3 s2), (dict_mem d4 s3);
    cbn [andb orb]; intuition congruence.
Qed.

(** The comparator, on an index in which no record has exactly one
    assigned slot: it returns, and writes the score lists, when every
    assigned slot is a key of its program's mapping, and otherwise raises
    [KeyError] and leaves the file store as it was. *)
Lemma membership_test_resolved G filt_prot_dict d1 d2 d3 d4 fs :
  (forall key r, In (key, r) filt_prot_dict -> non_sentinel_count r <> 1) ->
  ((forall key r i, In (key, r) filt_prot_dict -> i < 4 ->
      slot_at i r <> sentinel ->
      In (slot_at i r) (dict_keys (nth i [d1; d2; d3; d4] []))) ->
   exists cd,
     membership_test G filt_prot_dict d1 d2 d3 d4 fs =
     (inr cd, dict_set fs (compare_file G) (JsonFile (json_of_comparison_dict cd)))) /\
  (~ (forall key r i, In (key, r) filt_prot_dict -> i < 4 ->
        slot_at i r <> sentinel ->
        In (slot_at i r) (dict_keys (nth i [d1; d2; d3; d4] []))) ->
   exists k,
     membership_test G filt_prot_dict d1 d2 d3 d4 fs = (inl (KeyError k), fs)).
Proof.
  intros Hcount.
  assert (Hiff : forallb (fun e => record_ok G d1 d2 d3 d4 (snd e)) filt_prot_dict = true <->
                 (forall key r i, In (key, r) filt_prot_dict -> i < 4 ->
                    slot_at i r <> sentinel ->
                    In (slot_at i r) (dict_keys (nth i [d1; d2; d3; d4] [])))).
  { rewrite forallb_forall. split.
    - intros Hall key r i Hin Hi Hs. specialize (Hall _ Hin). simpl in Hall.
      exact (proj1 (@record_ok_resolved G d1 d2 d3 d4 r (Hcount key r Hin))
               Hall i Hi Hs).
    - intros Hres [key r] Hin. simpl.
      apply (proj2 (@record_ok_resolved G d1 d2 d3 d4 r (Hcount key r Hin))).
      intros i. now apply (Hres key). }
  unfold membership_test, io_bind, lift, json_dump, io_ret. split.
  - intros Hres. apply Hiff in Hres.
    destruct (@membership_loop_ok G d1 d2 d3 d4 (fun _ => True) filt_prot_dict
                (empty_comparison_dict G) (fun _ _ => I)
                (@empty_comparison_dict_names G)
                (@empty_comparison_dict_scores G _) Hres) as (cd & -> & _).
    exists cd. reflexivity.
  - intros Hres.
    destruct (forallb (fun e => record_ok G d1 d2 d3 d4 (snd e)) filt_prot_dict) eqn:E.
    + exfalso. apply Hres. now apply Hiff.
    + destruct (@membership_loop_err G d1 d2 d3 d4 filt_prot_dict
                  (empty_comparison_dict G) (@empty_comparison_dict_names G) E)
        as (k & _ & _ & _ & -> & _).
      exists k. reflexivity.
Qed.

(** C10.  On the filtered index the comparator returns (and writes the
    score lists) when every assigned slot of every record is a key of the
    mapping of its program; when some record has an assigned slot that its
    program's mapping lacks, the comparator raises [KeyError] and nothing
    is written. *)
Theorem membership_test_key_error :
  forall (G : Globals) (prot_dict : dict string slots)
         (d1 d2 d3 d4 : dict string (list string)) (fs : files),
    ((forall key r i, In (key, r) (filter_loops prot_dict) -> i < 4 ->
        slot_at i r <> sentinel ->
        In (slot_at i r) (dict_keys (nth i [d1; d2; d3; d4] []))) ->
     exists cd,
       membership_test G (filter_loops prot_dict) d1 d2 d3 d4 fs =
       (inr cd, dict_set fs (compare_file G) (JsonFile (json_of_comparison_dict cd)))) /\
    ((exists key r i, In (key, r) (filter_loops prot_dict) /\ i < 4 /\
        slot_at i r <> sentinel /\
        ~ In (slot_at i r) (dict_keys (nth i [d1; d2; d3; d4] []))) ->
     exists k,
       membership_test G (filter_loops prot_dict) d1 d2 d3 d4 fs =
       (inl (KeyError k), fs)).
Proof.
  intros G prot_dict d1 d2 d3 d4 fs.
  destruct (@membership_test_resolved G (filter_loops prot_dict) d1 d2 d3 d4 fs)
    as [Hok Herr].
  - intros key r Hin. apply two_distinct_count. now apply (filter_loops_kept _ _ _ Hin).
  - split; [exact Hok|].
    intros (key & r & i & Hin & Hi & Hs & Hn). apply Herr.
    intros Hres. apply Hn. now apply (Hres key).
Qed.


(** ** The Aggregator *)

(** The arithmetic mean of a list of scores, in lowest terms *)
Definition mean_value (scores : list Q) : Q :=
  Qred (Qsum scores / inject_Z (Z.of_nat (length scores))).

Lemma mean_nonempty scores : scores <> [] -> mean scores = inr (mean_value scores).
Proof. destruct scores; [congruence|reflexivity]. Qed.

Lemma avg_loop_err items : forall og,
  (exists key, In (key, []) items) -> avg_loop items og = inl StatisticsError.
Proof.
  induction items as [|[key scores] items IH]; intros og [k Hin]; simpl.
  - destruct Hin.
  - destruct scores as [|x scores]; [reflexivity|]. simpl.
    apply IH. exists k. destruct Hin as [E|Hin]; [discriminate|exact Hin].
Qed.

Lemma avg_loop_ok items : forall og,
  (forall key, ~ In (key, []) items) ->
  avg_loop items og =
  inr (fold_left (fun d e => dict_set d (fst e) (mean_value (snd e))) items og).
Proof.
  induction items as [|[key scores] items IH]; intros og Hne; simpl; [reflexivity|].
  destruct scores as [|x scores].
  - exfalso. apply (Hne key). now left.
  - simpl. apply IH. intros k Hin. apply (Hne k). now right.
Qed.

Lemma fold_dict_set_items {V W} (f : string * V -> W) (items : dict string V) :
  forall acc : dict string W,
  dict_wf items -> (forall k, In k (dict_keys items) -> ~ In k (dict_keys acc)) ->
  fold_left (fun d e => dict_set d (fst e) (f e)) items acc =
  acc ++ map (fun e => (fst e, f e)) items.
Proof.
  unfold dict_wf. induction items as [|[k v] items IH]; intros acc Hnd Hfresh; simpl.
  - now rewrite app_nil_r.
  - apply NoDup_cons_iff in Hnd. destruct Hnd as [Hk Hnd]. simpl in *.
    rewrite dict_set_fresh by (apply Hfresh; now left).
    rewrite IH.
    + now rewrite <- app_assoc.
    + exact Hnd.
    + intros q Hq. unfold dict_keys. rewrite map_app, in_app_iff. simpl.
      intros [Hin|[E|[]]].
      * apply (Hfresh q); [now right|exact Hin].
      * subst q. contradiction.
Qed.

(** The score summary of a comparison dictionary without empty list *)
Definition summary_of (comparison_dict : dict string (list Q)) : dict string Q :=
  map (fun e => (fst e, mean_value (snd e))) comparison_dict.



Lemma avg_membership_scores_ok G cd fs :
  dict_wf cd -> (forall key, ~ In (key, []) cd) ->
  avg_membership_scores G cd fs =
  (inr (summary_of cd),
   dict_set fs (score_file G) (JsonFile (json_of_score_dict (summary_of cd)))).
Proof.
  intros Hwf Hne. unfold avg_membership_scores, io_bind, lift, json_dump, io_ret.
  rewrite avg_loop_ok by exact Hne.
  rewrite fold_dict_set_items; [reflexivity|exact Hwf|]. intros k _ [].
Qed.

Lemma avg_membership_scores_err G cd fs :
  (exists key, In (key, []) cd) ->
  avg_membership_scores G cd fs = (inl StatisticsError, fs).
Proof.
  intros He. unfold avg_membership_scores, io_bind, lift.
  now rewrite avg_loop_err.
Qed.

Lemma empty_list_dec (cd : dict string (list Q)) :
  {exists key, In (key, []) cd} + {forall key, ~ In (key, []) cd}.
Proof.
  induction cd as [|[k l] cd IH].
  - right. intros key [].
  - destruct l as [|x l].
    + left. exists k. now left.
    + destruct IH as [He|Hn].
      * left. destruct He as [key Hin]. exists key. now right.
      * right. intros key [E|Hin]; [discriminate|]. now apply (Hn key).
Qed.



(** ** The Threshold Filter and the report *)






Lemma threshold_loop_fresh G items : forall acc,
  dict_wf (acc ++ items) ->
  threshold_loop G items acc =
  acc ++ filter (fun e => Qle_bool (membership_decimal G) (snd e)) items.
Proof.
  induction items as [|[key v] items IH]; intros acc Hwf; simpl.
  - now rewrite app_nil_r.
  - assert (Hfresh : ~ In key (dict_keys acc)).
    { unfold dict_wf, dict_keys in *. rewrite map_app in Hwf. simpl in Hwf.
      apply NoDup_remove_2 in Hwf. intros Hin. apply Hwf.
      apply in_or_app. now left. }
    destruct (Qle_bool (membership_decimal G) v); simpl.
    + rewrite dict_set_fresh by assumption.
      rewrite IH; now rewrite <- app_assoc.
    + apply IH. unfold dict_wf, dict_keys in *.
      rewrite map_app in *. simpl in Hwf.
      apply NoDup_remove_1 in Hwf. exact Hwf.
Qed.

Lemma threshold_test_filter G og :
  dict_wf og ->
  threshold_test G og = filter (fun e => Qle_bool (membership_decimal G) (snd e)) og.
Proof. intros Hwf. unfold threshold_test. now rewrite threshold_loop_fresh. Qed.

Lemma membership_decimal_le G v :
  Qle_bool (membership_decimal G) v = true <-> (percent G # 100 <= v)%Q.
Proof.
  rewrite Qle_bool_iff. unfold membership_decimal. now rewrite Qred_correct.
Qed.

Lemma filter_all {A} (f : A -> bool) l : (forall x, In x l -> f x = true) -> filter f l = l.
Proof.
  induction l as [|x l IH]; intros Hall; simpl; [reflexivity|].
  rewrite (Hall x) by now left. f_equal. apply IH. intros y Hy. apply Hall. now right.
Qed.






Lemma string_app_assoc (s1 s2 s3 : string) :
  ((s1 ++ s2) ++ s3 = s1 ++ (s2 ++ s3))%string.
Proof. induction s1 as [|c s1 IH]; simpl; [reflexivity|now rewrite IH]. Qed.



Lemma set_globals_results now args G :
  set_globals now args = inr G ->
  membership_results G =
    (out_name args ++ "__" ++ str_of_int (membership_percent args) ++ ".txt")%string /\
  percent G = membership_percent args /\
  4 <= length (program_list G).
Proof.
  unfold set_globals.
  destruct (Nat.ltb_spec (length match program_names args with
                                 | Some (n :: l) => n :: l
                                 | _ => default_program_list
                                 end) 4) as [Hlt|Hge]; [discriminate|].
  intros E. inversion E; subst. simpl. auto.
Qed.


(** The command line of the examples: a complete run on four files, with
    the default program names and threshold *)
Definition example_args : Args :=
  {| run_all := true; checkpoint_num := None; input_json := None;
     test_identifier := Some "run"; membership_percent := 50;
     out_name := "OG_membership_results_";
     input_files := Some ["prog1.json"; "prog2.json"; "prog3.json"; "prog4.json"];
     program_names := None |}.

Definition json_of_clusters (d : dict string (list string)) : json :=
  json_of_dict (fun l => JArray (map JString l)) d.

(** The end-to-end example of the specification: the four programs put
    [p1], [p2], [p3] in one cluster, and the first program alone lists [p4]. *)
Definition example_files : files :=
  [("prog1.json", JsonFile (json_of_clusters [("OG1", ["p1"; "p2"; "p3"]); ("OG2", ["p4"])]));
   ("prog2.json", JsonFile (json_of_clusters [("OG1", ["p1"; "p2"; "p3"])]));
   ("prog3.json", JsonFile (json_of_clusters [("OG1", ["p1"; "p2"; "p3"])]));
   ("prog4.json", JsonFile (json_of_clusters [("OG1", ["p1"; "p2"; "p3"])]))].

Definition example_float_repr (q : Q) : string :=
  if Qeq_bool q 1 then "1.0" else "0.5".

Definition example_float_of_string (s : string) : Q :=
  if String.eqb s "1.0" then 1 else (1 # 2).



(** ** The Checkpoint Store *)

Lemma slots_of_json_of_slots r : slots_of_json (json_of_slots r) = Some r.
Proof. destruct r. reflexivity. Qed.

Lemma load_members_encoded {V} (enc : V -> json) (conv : json -> option V)
    (d : dict string V) :
  (forall v, conv (enc v) = Some v) ->
  forall acc,
    load_members conv (map (fun e => (fst e, enc (snd e))) d) acc =
    Some (fold_left (fun a e => dict_set a (fst e) (snd e)) d acc).
Proof.
  intros Hconv. induction d as [|[k v] d IH]; intros acc; simpl; [reflexivity|].
  rewrite Hconv. apply IH.
Qed.

(** Loading what was dumped gives the dictionary back. *)
Lemma dict_of_json_of_dict {V} (enc : V -> json) (conv : json -> option V)
    (d : dict string V) :
  (forall v, conv (enc v) = Some v) -> dict_wf d ->
  dict_of_json conv (json_of_dict enc d) = Some d.
Proof.
  intros Hconv Hwf. unfold dict_of_json, json_of_dict.
  rewrite load_members_encoded by exact Hconv.
  rewrite (fold_dict_set_items snd); [|exact Hwf|intros k _ []].
  simpl. f_equal. rewrite <- (map_id d) at 2. apply map_ext. now intros [k v].
Qed.

Lemma prot_dict_roundtrip (prot_dict : dict string slots) :
  dict_wf prot_dict -> prot_dict_of_json (json_of_prot_dict prot_dict) = Some prot_dict.
Proof. apply dict_of_json_of_dict. apply slots_of_json_of_slots. Qed.

(** *** The text of a JSON file

    The store keeps the value of a JSON file.  The lemmas of this part show
    that nothing is lost by it for the files of strings: reading the text
    that [json.dump] writes for a value without numbers gives the value
    back. *)

Lemma string_length_app (a b : string) :
  String.length (a ++ b) = String.length a + String.length b.
Proof. induction a as [|x a IH]; simpl; [reflexivity|now rewrite IH]. Qed.

Lemma scanstring_escape_char (c : ascii) (tail : string) :
  scanstring (escape_char c ++ tail) =
  match scanstring tail with
  | Some (str, rest') => Some (String c str, rest')
  | None => None
  end.
Proof.
  destruct c as [[] [] [] [] [] [] [] []];
    (set (e := escape_char _); vm_compute in e; subst e; cbn;
     destruct (scanstring tail) as [[? ?]|]; reflexivity).
Qed.

Lemma scanstring_escape (s tail : string) :
  scanstring (escape s ++ String "034" tail) = Some (s, tail).
Proof.
  induction s as [|c s IH]; simpl.
  - reflexivity.
  - rewrite string_app_assoc, scanstring_escape_char, IH. reflexivity.
Qed.

Lemma scanstring_dumps_string (s tail : string) :
  exists text,
    (dumps_string s ++ tail)%string = String "034" text /\
    scanstring text = Some (s, tail).
Proof.
  exists (escape s ++ String "034" tail)%string. split.
  - unfold dumps_string. simpl. now rewrite string_app_assoc.
  - apply scanstring_escape.
Qed.

Section JsonInd.
Variable P : json -> Prop.
Hypothesis HNull : P JNull.
Hypothesis HBool : forall b, P (JBool b).
Hypothesis HString : forall s, P (JString s).
Hypothesis HNumber : forall q, P (JNumber q).
Hypothesis HArray : forall items, Forall P items -> P (JArray items).
Hypothesis HObject :
  forall members, Forall (fun m => P (snd m)) members -> P (JObject members).

Fixpoint json_nested_ind (j : json) : P j :=
  match j with
  | JNull => HNull
  | JBool b => HBool b
  | JString s => HString s
  | JNumber q => HNumber q
  | JArray items =>
      HArray
        ((fix go (l : list json) : Forall P l :=
            match l with
            | [] => Forall_nil P
            | x :: l' => Forall_cons x (json_nested_ind x) (go l')
            end) items)
  | JObject members =>
      HObject
        ((fix go (l : list (string * json)) : Forall (fun m => P (snd m)) l :=
            match l with
            | [] => Forall_nil _
            | m :: l' =>
                Forall_cons m
                  (match m return P (snd m) with (k, v) => json_nested_ind v end)
                  (go l')
            end) members)
  end.
End JsonInd.

Section TextFacts.
Variable float_repr : Q -> string.
Variable float_of_string : string -> Q.

(** The text of a value without numbers starts with a character that is
    neither white space nor a closing bracket. *)
Definition opens_value (s : string) : Prop :=
  exists c s', s = String c s' /\ is_ws c = false /\
               Ascii.eqb c "]" = false /\ Ascii.eqb c "}" = false.

Lemma dumps_opens (j : json) (tail : string) :
  number_free j = true -> opens_value (json_dumps float_repr j ++ tail).
Proof.
  intros Hj. destruct j as [|[]|s|q|items|members]; simpl in Hj;
    try discriminate; eexists; eexists; (split; [reflexivity|now vm_compute]).
Qed.

Lemma dumps_string_opens (s tail : string) :
  opens_value (dumps_string s ++ tail).
Proof. eexists; eexists; (split; [reflexivity|now vm_compute]). Qed.

Lemma skip_ws_opens (s : string) : opens_value s -> skip_ws s = s.
Proof. intros (c & s' & -> & Hws & _). simpl. now rewrite Hws. Qed.

(** The decoder reads [j] back from its text, whatever follows it *)
Definition reads_back (j : json) : Prop :=
  forall fuel tail, 2 * String.length (json_dumps float_repr j) < fuel ->
    scan_once float_of_string fuel (json_dumps float_repr j ++ tail) = Some (j, tail).

Lemma comma_join_cons {A} (f : A -> string) x y l :
  comma_join f (x :: y :: l) =
  (f x ++ String "," (String " " (comma_join f (y :: l))))%string.
Proof. reflexivity. Qed.

Lemma comma_join_opens (x : json) (l : list json) (tail : string) :
  number_free x = true ->
  opens_value (comma_join (json_dumps float_repr) (x :: l) ++ tail).
Proof.
  intros Hx. destruct l as [|y l].
  - now apply dumps_opens.
  - rewrite comma_join_cons, string_app_assoc. now apply dumps_opens.
Qed.

Lemma parse_items_join (l : list json) :
  Forall reads_back l -> forallb number_free l = true ->
  forall x acc fuel tail,
    reads_back x -> number_free x = true ->
    2 * String.length (comma_join (json_dumps float_repr) (x :: l)) + 1 < fuel ->
    parse_items float_of_string fuel
      (comma_join (json_dumps float_repr) (x :: l) ++ String "]" tail) acc =
    Some (JArray (rev acc ++ x :: l), tail).
Proof.
  induction 1 as [|y l Hy Hl IH]; intros Hnf x acc fuel tail Hx Hnx Hfuel.
  - destruct fuel as [|fuel]; [lia|]. simpl in Hfuel |- *.
    rewrite Hx by lia. simpl. reflexivity.
  - destruct fuel as [|fuel]; [lia|].
    simpl in Hnf. apply andb_prop in Hnf. destruct Hnf as [Hny Hnl].
    rewrite comma_join_cons in Hfuel |- *.
    set (J := comma_join (json_dumps float_repr) (y :: l)) in *.
    rewrite string_length_app in Hfuel. simpl in Hfuel.
    rewrite string_app_assoc.
    change (String "," (String " " J) ++ String "]" tail)%string
      with (String "," (String " " (J ++ String "]" tail)))%string.
    change (parse_items float_of_string (S fuel) ?s acc) with
      (match scan_once float_of_string fuel s with
       | None => None
       | Some (v, rest) =>
          match skip_ws rest with
          | EmptyString => None
          | String c rest1 =>
              if Ascii.eqb c "]" then Some (JArray (rev (v :: acc)), rest1)
              else if Ascii.eqb c ","
                   then parse_items float_of_string fuel (skip_ws rest1) (v :: acc)
              else None
          end
       end).
    rewrite Hx by lia.
    change (skip_ws (String "," ?s)) with (String "," s).
    change (Ascii.eqb "," "]") with false. change (Ascii.eqb "," ",") with true.
    cbv iota.
    change (skip_ws (String " " ?s)) with (skip_ws s).
    rewrite skip_ws_opens by (now apply comma_join_opens).
    subst J. rewrite (IH Hnl y (x :: acc) fuel tail Hy Hny) by lia.
    simpl. now rewrite <- app_assoc.
Qed.
(** The text of one member of an object *)
Definition member_text (m : string * json) : string :=
  let '(k, v) := m in
  (dumps_string k ++ String ":" (String " " (json_dumps float_repr v)))%string.

Lemma member_text_quoted (m : string * json) (rest : string) :
  (member_text m ++ rest)%string =
  String "034" (escape (fst m) ++
    String "034" (String ":" (String " " (json_dumps float_repr (snd m) ++ rest))))%string.
Proof.
  destruct m as [k v]. unfold member_text, dumps_string. simpl.
  rewrite !string_app_assoc. reflexivity.
Qed.

Lemma parse_members_step fuel k rest acc :
  parse_members float_of_string (S fuel)
    (escape k ++ String "034" (String ":" (String " " rest)))%string acc =
  match scan_once float_of_string fuel (skip_ws rest) with
  | None => None
  | Some (v, rest2) =>
      match skip_ws rest2 with
      | EmptyString => None
      | String c2 rest3 =>
          if Ascii.eqb c2 "}"
          then Some (JObject (rev ((k, v) :: acc)), rest3)
          else if Ascii.eqb c2 "," then
            match skip_ws rest3 with
            | EmptyString => None
            | String c3 rest4 =>
                if Ascii.eqb c3 "034"
                then parse_members float_of_string fuel rest4 ((k, v) :: acc)
                else None
            end
          else None
      end
  end.
Proof.
  cbn [parse_members]. rewrite scanstring_escape. reflexivity.
Qed.

Lemma parse_members_join (l : list (string * json)) :
  Forall (fun m => reads_back (snd m)) l ->
  forallb (fun m => number_free (snd m)) l = true ->
  forall m acc fuel tail,
    reads_back (snd m) -> number_free (snd m) = true ->
    2 * String.length (comma_join member_text (m :: l)) + 1 < fuel ->
    exists text,
      (comma_join member_text (m :: l) ++ String "}" tail)%string =
        String "034" text /\
      parse_members float_of_string fuel text acc =
        Some (JObject (rev acc ++ m :: l), tail).
Proof.
  induction 1 as [|m' l Hm' Hl IH]; intros Hnf m acc fuel tail Hm Hnm Hfuel.
  - destruct fuel as [|fuel]; [lia|]. simpl comma_join in Hfuel |- *.
    rewrite member_text_quoted. eexists. split; [reflexivity|].
    rewrite parse_members_step.
    rewrite skip_ws_opens by (now apply dumps_opens).
    rewrite Hm. 
    + destruct m as [k v]. reflexivity.
    + destruct m as [k v]. simpl in Hfuel |- *. rewrite string_length_app in Hfuel.
      simpl in Hfuel. lia.
  - destruct fuel as [|fuel]; [lia|].
    simpl in Hnf. apply andb_prop in Hnf. destruct Hnf as [Hnm' Hnl].
    rewrite comma_join_cons in Hfuel |- *.
    set (J := comma_join member_text (m' :: l)) in *.
    rewrite string_length_app in Hfuel. simpl in Hfuel.
    rewrite string_app_assoc.
    change (String "," (String " " J) ++ String "}" tail)%string
      with (String "," (String " " (J ++ String "}" tail)))%string.
    rewrite member_text_quoted. eexists. split; [reflexivity|].
    rewrite parse_members_step.
    rewrite skip_ws_opens by (now apply dumps_opens).
    assert (Hlen : String.length (json_dumps float_repr (snd m)) <=
                   String.length (member_text m)).
    { destruct m as [k v]. simpl. rewrite string_length_app. simpl. lia. }
    rewrite Hm by lia.
    change (skip_ws (String "," ?s)) with (String "," s).
    change (Ascii.eqb "," "}") with false. change (Ascii.eqb "," ",") with true.
    cbv iota.
    change (skip_ws (String " " ?s)) with (skip_ws s).
    subst J.
    destruct (IH Hnl m' ((fst m, snd m) :: acc) fuel tail Hm' Hnm') as (text & Et & Ep);
      [lia|].
    rewrite Et.
    change (skip_ws (String "034" text)) with (String "034" text).
    change (Ascii.eqb "034" "034") with true. cbv iota.
    rewrite Ep. simpl. rewrite <- app_assoc. destruct m; reflexivity.
Qed.

Lemma scan_once_array fuel (text : string) :
  opens_value text ->
  scan_once float_of_string (S fuel) (String "[" text) =
  parse_items float_of_string fuel text [].
Proof.
  intros H. pose proof (skip_ws_opens H) as Hs.
  destruct H as (c & s' & -> & Hws & Hb & _).
  cbn [scan_once]. rewrite Hs.
  change (Ascii.eqb "[" "034") with false. change (Ascii.eqb "[" "{") with false.
  change (Ascii.eqb "[" "[") with true. cbv iota. now rewrite Hb.
Qed.

Lemma scan_once_object fuel (text : string) :
  scan_once float_of_string (S fuel) (String "{" (String "034" text)) =
  parse_members float_of_string fuel text [].
Proof. reflexivity. Qed.

Lemma Forall_reads_back (l : list json) :
  Forall (fun j => number_free j = true -> reads_back j) l ->
  forallb number_free l = true -> Forall reads_back l.
Proof.
  induction 1 as [|x l Hx Hl IH]; simpl; intros Hnf; [constructor|].
  apply andb_prop in Hnf. destruct Hnf as [Hnx Hnl].
  constructor; [now apply Hx|now apply IH].
Qed.

Lemma Forall_members_read_back (l : list (string * json)) :
  Forall (fun m => number_free (snd m) = true -> reads_back (snd m)) l ->
  forallb (fun m => number_free (snd m)) l = true ->
  Forall (fun m => reads_back (snd m)) l.
Proof.
  induction 1 as [|x l Hx Hl IH]; simpl; intros Hnf; [constructor|].
  apply andb_prop in Hnf. destruct Hnf as [Hnx Hnl].
  constructor; [now apply Hx|now apply IH].
Qed.

Lemma number_free_members (members : list (string * json)) :
  number_free (JObject members) =
  forallb (fun m => number_free (snd m)) members.
Proof.
  simpl. induction members as [|[k v] l IH]; simpl; [reflexivity|now rewrite IH].
Qed.

Lemma json_dumps_object (members : list (string * json)) :
  json_dumps float_repr (JObject members) =
  String "{" (comma_join member_text members ++ String "}" EmptyString)%string.
Proof. reflexivity. Qed.

(** Every value without numbers is read back from its text. *)
Lemma scan_once_dumps (j : json) : number_free j = true -> reads_back j.
Proof.
  induction j as [|b|s|q|items IH|members IH] using json_nested_ind;
    intros Hnf fuel tail Hfuel; (destruct fuel as [|fuel]; [lia|]).
  - reflexivity.
  - destruct b; reflexivity.
  - destruct (scanstring_dumps_string s tail) as (text & Et & Es).
    simpl json_dumps. rewrite Et. cbn [scan_once].
    change (Ascii.eqb "034" "034") with true. cbv iota. now rewrite Es.
  - discriminate.
  - simpl in Hnf. pose proof (Forall_reads_back IH Hnf) as Hall.
    destruct items as [|x l]; [reflexivity|].
    simpl in Hnf. apply andb_prop in Hnf. destruct Hnf as [Hnx Hnl].
    apply Forall_inv in Hall as Hx. apply Forall_inv_tail in Hall as Hl.
    change (json_dumps float_repr (JArray (x :: l)))
      with (String "[" (comma_join (json_dumps float_repr) (x :: l) ++
                        String "]" EmptyString))%string in Hfuel |- *.
    set (J := comma_join (json_dumps float_repr) (x :: l)) in *.
    simpl in Hfuel. rewrite string_length_app in Hfuel. simpl in Hfuel.
    change ((String "[" (J ++ String "]" EmptyString)) ++ tail)%string
      with (String "[" ((J ++ String "]" EmptyString) ++ tail))%string.
    rewrite string_app_assoc.
    change (String "]" EmptyString ++ tail)%string with (String "]" tail).
    subst J. rewrite scan_once_array by (now apply comma_join_opens).
    rewrite (@parse_items_join l Hl Hnl x [] fuel tail Hx Hnx) by lia. reflexivity.
  - rewrite number_free_members in Hnf.
    pose proof (Forall_members_read_back IH Hnf) as Hall.
    destruct members as [|m l]; [reflexivity|].
    simpl in Hnf. apply andb_prop in Hnf. destruct Hnf as [Hnm Hnl].
    apply Forall_inv in Hall as Hm. apply Forall_inv_tail in Hall as Hl.
    rewrite json_dumps_object in Hfuel |- *.
    set (J := comma_join member_text (m :: l)) in *.
    simpl in Hfuel. rewrite string_length_app in Hfuel. simpl in Hfuel.
    change ((String "{" (J ++ String "}" EmptyString)) ++ tail)%string
      with (String "{" ((J ++ String "}" EmptyString) ++ tail))%string.
    rewrite string_app_assoc.
    change (String "}" EmptyString ++ tail)%string with (String "}" tail).
    subst J.
    destruct (@parse_members_join l Hl Hnl m [] fuel tail Hm Hnm)
      as (text & Et & Ep); [lia|].
    rewrite Et, scan_once_object, Ep. reflexivity.
Qed.

(** Reading the text written for a value without numbers gives the value. *)
Lemma json_loads_dumps (j : json) :
  number_free j = true ->
  json_loads float_of_string (json_dumps float_repr j) = Some j.
Proof.
  intros Hnf. unfold json_loads.
  pose proof (dumps_opens j EmptyString Hnf) as Ho.
  pose proof (@scan_once_dumps j Hnf) as Hr.
  specialize (Hr (2 * String.length (json_dumps float_repr j) + 1) EmptyString).
  assert (E : (json_dumps float_repr j ++ EmptyString)%string = json_dumps float_repr j).
  { generalize (json_dumps float_repr j). intros s.
    induction s as [|c s IHs]; simpl; [reflexivity|now rewrite IHs]. }
  rewrite E in Ho, Hr. rewrite skip_ws_opens by exact Ho.
  rewrite Hr by lia. reflexivity.
Qed.
End TextFacts.

(** The index holds no number. *)
Lemma number_free_prot_dict (prot_dict : dict string slots) :
  number_free (json_of_prot_dict prot_dict) = true.
Proof.
  unfold json_of_prot_dict, json_of_dict. simpl.
  induction prot_dict as [|[k r] d IH]; simpl; [reflexivity|exact IH].
Qed.

Lemma prot_dict_text_roundtrip float_repr float_of_string
    (prot_dict : dict string slots) :
  dict_wf prot_dict ->
  prot_dict_of_text float_of_string (prot_dict_text float_repr prot_dict) =
  Some prot_dict.
Proof.
  intros Hwf. unfold prot_dict_of_text, prot_dict_text.
  rewrite json_loads_dumps by apply number_free_prot_dict.
  now apply prot_dict_roundtrip.
Qed.

(** Files written one after the other *)
Definition apply_writes (W : list (string * file)) (fs : files) : files :=
  fold_left (fun s w => dict_set s (fst w) (snd w)) W fs.

(** A computation that reads no file: its outcome does not depend on the
    store, and it writes a fixed sequence of files with names in [names]. *)
Definition writes_in (names : list string) {A} (m : IO A) : Prop :=
  exists r W, (forall w, In w W -> In (fst w) names) /\
              forall fs, m fs = (r, apply_writes W fs).

Lemma writes_in_lift names {A} (r : result A) : writes_in names (lift r).
Proof. exists r, []. split; [intros w []|reflexivity]. Qed.

Lemma writes_in_ret names {A} (x : A) : writes_in names (io_ret x).
Proof. exists (inr x), []. split; [intros w []|reflexivity]. Qed.

Lemma writes_in_json_dump names name j : In name names -> writes_in names (json_dump name j).
Proof.
  intros Hin. exists (inr tt), [(name, JsonFile j)].
  split; [intros w [<-|[]]; exact Hin|reflexivity].
Qed.

Lemma writes_in_write_text names name text :
  In name names -> writes_in names (write_text name text).
Proof.
  intros Hin. exists (inr tt), [(name, TextFile text)].
  split; [intros w [<-|[]]; exact Hin|reflexivity].
Qed.

Lemma writes_in_bind names {A B} (m : IO A) (f : A -> IO B) :
  writes_in names m -> (forall x, writes_in names (f x)) ->
  writes_in names (io_bind m f).
Proof.
  intros (r & W & HW & Hm) Hf. destruct r as [e|x].
  - exists (inl e), W. split; [exact HW|]. intros fs. unfold io_bind. now rewrite Hm.
  - destruct (Hf x) as (r' & W' & HW' & Hfx).
    exists r', (W ++ W'). split.
    + intros w Hin. apply in_app_iff in Hin. destruct Hin; auto.
    + intros fs. unfold io_bind. rewrite Hm, Hfx.
      unfold apply_writes. now rewrite fold_left_app.
Qed.

Lemma dict_get_apply_writes W : forall fs n,
  dict_get (apply_writes W fs) n =
  fold_left (fun o w => if String.eqb n (fst w) then Some (snd w) else o) W (dict_get fs n).
Proof.
  induction W as [|[k v] W IH]; intros fs n; simpl; [reflexivity|].
  rewrite IH. f_equal. simpl.
  destruct (String.eqb_spec n k) as [->|Hne].
  - apply dict_get_set_same.
  - apply dict_get_set_other. congruence.
Qed.

Lemma dict_get_apply_writes_other W fs n :
  (forall w, In w W -> fst w <> n) -> dict_get (apply_writes W fs) n = dict_get fs n.
Proof.
  rewrite dict_get_apply_writes. generalize (dict_get fs n).
  induction W as [|[k v] W IH]; intros o Hn; simpl; [reflexivity|].
  rewrite IH by (intros w Hw; apply Hn; now right).
  destruct (String.eqb_spec n k) as [->|Hne]; [|reflexivity].
  exfalso. apply (Hn (k, v)); [now left|reflexivity].
Qed.

Lemma last_write_cases (W : list (string * file)) (n : string) :
  (forall o, fold_left (fun o w => if String.eqb n (fst w) then Some (snd w) else o) W o = o) \/
  (exists v, forall o,
      fold_left (fun o w => if String.eqb n (fst w) then Some (snd w) else o) W o = Some v).
Proof.
  induction W as [|[k v] W IH]; [now left|].
  simpl. destruct IH as [Hid|[v' Hv']].
  - destruct (String.eqb n k).
    + right. exists v. intros o. apply Hid.
    + left. intros o. apply Hid.
  - right. exists v'. intros o. apply Hv'.
Qed.

Lemma apply_writes_keys W : forall fs,
  (forall w, In w W -> In (fst w) (dict_keys fs)) ->
  dict_keys (apply_writes W fs) = dict_keys fs.
Proof.
  induction W as [|[k v] W IH]; intros fs Hin; simpl; [reflexivity|].
  rewrite IH.
  - apply dict_keys_set_present. apply (Hin (k, v)). now left.
  - intros w Hw. apply dict_keys_set_In. right. apply Hin. now right.
Qed.

Lemma apply_writes_written W : forall fs w,
  In w W -> In (fst w) (dict_keys (apply_writes W fs)).
Proof.
  induction W as [|[k v] W IH]; intros fs w Hin; simpl; [destruct Hin|].
  destruct Hin as [<-|Hin]; [|now apply IH].
  simpl. destruct (dict_get (apply_writes W (dict_set fs k v)) k) eqn:E.
  - now apply dict_get_Some_key in E.
  - rewrite dict_get_apply_writes, dict_get_set_same in E.
    destruct (last_write_cases W k) as [Hid|[v' Hv']];
      [rewrite Hid in E|rewrite Hv' in E]; discriminate.
Qed.

Lemma apply_writes_wf W : forall fs, dict_wf fs -> dict_wf (apply_writes W fs).
Proof.
  induction W as [|[k v] W IH]; intros fs Hwf; simpl; [exact Hwf|].
  apply IH. now apply dict_wf_set.
Qed.

(** Writing the same files a second time changes nothing. *)
Lemma apply_writes_idem W fs :
  dict_wf fs -> apply_writes W (apply_writes W fs) = apply_writes W fs.
Proof.
  intros Hwf. apply dict_ext.
  - apply apply_writes_wf. now apply apply_writes_wf.
  - apply apply_writes_keys. intros w Hw. now apply apply_writes_written.
  - intros n. rewrite !dict_get_apply_writes.
    destruct (last_write_cases W n) as [Hid|[v Hv]].
    + now rewrite !Hid.
    + now rewrite !Hv.
Qed.

(** What a run does once the index and the four mappings are at hand *)
Definition finish (float_repr : Q -> string) (G : Globals)
    (prot_dict : dict string slots) (d1 d2 d3 d4 : dict string (list string))
  : IO unit :=
  io_bind (filter_prot_dict G prot_dict) (fun filt_prot_dict =>
  io_bind (membership_test G filt_prot_dict d1 d2 d3 d4) (fun comparison_dict =>
  io_bind (avg_membership_scores G comparison_dict) (fun og_score_dict =>
  write_report float_repr G (threshold_test G og_score_dict)))).

Definition output_files (G : Globals) : list string :=
  [filt_prot_dict_file G; compare_file G; score_file G; membership_results G].

Lemma finish_writes float_repr G prot_dict d1 d2 d3 d4 :
  writes_in (output_files G) (finish float_repr G prot_dict d1 d2 d3 d4).
Proof.
  unfold finish, output_files.
  apply writes_in_bind.
  { unfold filter_prot_dict. apply writes_in_bind.
    - apply writes_in_json_dump. simpl. tauto.
    - intros _. apply writes_in_ret. }
  intros filt. apply writes_in_bind.
  { unfold membership_test. apply writes_in_bind; [apply writes_in_lift|].
    intros cd. apply writes_in_bind.
    - apply writes_in_json_dump. simpl. tauto.
    - intros _. apply writes_in_ret. }
  intros cd. apply writes_in_bind.
  { unfold avg_membership_scores. apply writes_in_bind; [apply writes_in_lift|].
    intros og. apply writes_in_bind.
    - apply writes_in_json_dump. simpl. tauto.
    - intros _. apply writes_in_ret. }
  intros og. unfold write_report. apply writes_in_write_text. simpl. tauto.
Qed.

Lemma json_load_ok {A} (conv : json -> option A) name j x fs :
  dict_get fs name = Some (JsonFile j) -> conv j = Some x ->
  json_load conv name fs = (inr x, fs).
Proof. intros E1 E2. unfold json_load. now rewrite E1, E2. Qed.

(** The last character of a string *)
Fixpoint last_char (s : string) : ascii :=
  match s with
  | EmptyString => "000"%char
  | String c EmptyString => c
  | String _ s' => last_char s'
  end.

Lemma last_char_app (s1 s2 : string) :
  s2 <> EmptyString -> last_char (s1 ++ s2) = last_char s2.
Proof.
  intros Hne. induction s1 as [|c s1 IH]; [reflexivity|].
  simpl. destruct (s1 ++ s2)%string eqn:E.
  - destruct s1; simpl in E; [congruence|discriminate].
  - exact IH.
Qed.

Lemma txt_not_json (s1 s2 : string) : (s1 ++ ".txt" <> s2 ++ ".json")%string.
Proof.
  intros E. apply (f_equal last_char) in E.
  rewrite !last_char_app in E by discriminate. discriminate.
Qed.

Lemma report_name_not_json now args G (s1 : string) s2 :
  set_globals now args = inr G -> membership_results G <> (s1 ++ s2 ++ ".json")%string.
Proof.
  intros EG. destruct (set_globals_results now args EG) as (-> & _).
  rewrite <- !string_app_assoc. apply txt_not_json.
Qed.

Section ResumeFacts.
Context {SO : SetOrder}.
Variable float_repr : Q -> string.
Variable now : string.

Lemma data_2_pandas_ok p1 p2 p3 p4 j1 j2 j3 j4 d1 d2 d3 d4 fs :
  dict_get fs p1 = Some (JsonFile j1) -> clusters_of_json j1 = Some d1 ->
  dict_get fs p2 = Some (JsonFile j2) -> clusters_of_json j2 = Some d2 ->
  dict_get fs p3 = Some (JsonFile j3) -> clusters_of_json j3 = Some d3 ->
  dict_get fs p4 = Some (JsonFile j4) -> clusters_of_json j4 = Some d4 ->
  data_2_pandas p1 p2 p3 p4 fs =
  (inr (dataframe_of d1, d1, (dataframe_of d2, d2),
        (dataframe_of d3, d3), (dataframe_of d4, d4)), fs).
Proof.
  intros G1 C1 G2 C2 G3 C3 G4 C4. unfold data_2_pandas, io_bind.
  rewrite (@json_load_ok _ _ _ _ _ _ G1 C1), (@json_load_ok _ _ _ _ _ _ G2 C2),
          (@json_load_ok _ _ _ _ _ _ G3 C3), (@json_load_ok _ _ _ _ _ _ G4 C4).
  reflexivity.
Qed.

(** The stages after the index builder, as the complete run and the run
    from checkpoint 2 execute them, followed by the report *)
Lemma finish_eq G prot_dict d1 d2 d3 d4 fs :
  io_bind
    (io_bind (filter_prot_dict G prot_dict) (fun filt_prot_dict =>
     io_bind (membership_test G filt_prot_dict d1 d2 d3 d4) (fun comparison_dict =>
     io_bind (avg_membership_scores G comparison_dict) (fun og_score_dict =>
     io_ret (threshold_test G og_score_dict)))))
    (write_report float_repr G) fs =
  finish float_repr G prot_dict d1 d2 d3 d4 fs.
Proof.
  unfold finish, io_bind, io_ret.
  destruct (filter_prot_dict G prot_dict fs) as [[e|filt] fs1]; [reflexivity|].
  destruct (membership_test G filt d1 d2 d3 d4 fs1) as [[e|cd] fs2]; [reflexivity|].
  destruct (avg_membership_scores G cd fs2) as [[e|og] fs3]; reflexivity.
Qed.

Lemma main_run_all_eq args G p1 p2 p3 p4 rest j1 j2 j3 j4 d1 d2 d3 d4 fs :
  run_all args = true -> checkpoint_num args = None ->
  input_files args = Some (p1 :: p2 :: p3 :: p4 :: rest) ->
  set_globals now args = inr G ->
  dict_get fs p1 = Some (JsonFile j1) -> clusters_of_json j1 = Some d1 ->
  dict_get fs p2 = Some (JsonFile j2) -> clusters_of_json j2 = Some d2 ->
  dict_get fs p3 = Some (JsonFile j3) -> clusters_of_json j3 = Some d3 ->
  dict_get fs p4 = Some (JsonFile j4) -> clusters_of_json j4 = Some d4 ->
  main float_repr now args fs =
  finish float_repr G (index_of d1 d2 d3 d4) d1 d2 d3 d4
    (dict_set fs (prot_dict_file G)
       (JsonFile (json_of_prot_dict (index_of d1 d2 d3 d4)))).
Proof.
  intros Hall Hcp Hfiles EG G1 C1 G2 C2 G3 C3 G4 C4.
  rewrite <- finish_eq.
  unfold main, sanity_checks, execute, run_all_branch, db_inputs.
  rewrite Hall, Hcp, Hfiles, EG. cbn [given_list given_num negb andb].
  unfold io_bind, lift, ret. cbv beta iota.
  rewrite (@data_2_pandas_ok _ _ _ _ _ _ _ _ _ _ _ _ _ G1 C1 G2 C2 G3 C3 G4 C4).
  cbv beta iota. rewrite create_prot_dict_spec. reflexivity.
Qed.

Lemma main_checkpoint_2_eq args G name p1 p2 p3 p4 rest j prot_dict
    j1 j2 j3 j4 d1 d2 d3 d4 fs :
  run_all args = false -> checkpoint_num args = Some 2 ->
  input_json args = Some name -> given_str (test_identifier args) = true ->
  input_files args = Some (p1 :: p2 :: p3 :: p4 :: rest) ->
  set_globals now args = inr G ->
  dict_get fs name = Some (JsonFile j) -> prot_dict_of_json j = Some prot_dict ->
  dict_get fs p1 = Some (JsonFile j1) -> clusters_of_json j1 = Some d1 ->
  dict_get fs p2 = Some (JsonFile j2) -> clusters_of_json j2 = Some d2 ->
  dict_get fs p3 = Some (JsonFile j3) -> clusters_of_json j3 = Some d3 ->
  dict_get fs p4 = Some (JsonFile j4) -> clusters_of_json j4 = Some d4 ->
  main float_repr now args fs = finish float_repr G prot_dict d1 d2 d3 d4 fs.
Proof.
  intros Hall Hcp Hjson Hid Hfiles EG G0 C0 G1 C1 G2 C2 G3 C3 G4 C4.
  rewrite <- finish_eq.
  unfold main, sanity_checks, execute, checkpoint_2_branch, db_inputs, input_json_name.
  rewrite Hall, Hcp, Hfiles, Hjson, Hid, EG.
  cbn [given_list given_num given_file negb andb].
  unfold io_bind, lift, ret. cbv beta iota.
  rewrite (@json_load_ok _ _ _ _ _ _ G0 C0), (@json_load_ok _ _ _ _ _ _ G1 C1),
          (@json_load_ok _ _ _ _ _ _ G2 C2), (@json_load_ok _ _ _ _ _ _ G3 C3),
          (@json_load_ok _ _ _ _ _ _ G4 C4).
  reflexivity.
Qed.
End ResumeFacts.

(** The command line that resumes the run of [args] from checkpoint 2 with
    the checkpoint file [name] *)
Definition resume_from_2 (args : Args) (name : string) : Args :=
  {| run_all := false; checkpoint_num := Some 2; input_json := Some name;
     test_identifier := test_identifier args;
     membership_percent := membership_percent args;
     out_name := out_name args;
     input_files := input_files args;
     program_names := program_names args |}.

Lemma prot_dict_file_not_output now args G :
  set_globals now args = inr G -> ~ In (prot_dict_file G) (output_files G).
Proof.
  intros EG. unfold output_files, prot_dict_file, filt_prot_dict_file,
    compare_file, score_file. simpl.
  intros [E|[E|[E|[E|[]]]]]; try discriminate.
  exact (@report_name_not_json now args G "prot_dict_" (run_identifier G) EG E).
Qed.

(** C6.  The index written at checkpoint 2 reads back as the index the
    builder returned, from the JSON value of the file and from the text
    that [json.dump] writes for it; and on the store that a complete run
    leaves behind,
    the run resumed from checkpoint 2 with that file and the same four
    cluster files ends with the same outcome and leaves every file (the
    filtered index, the score lists, the score summary and the report) as
    the complete run wrote it. *)
Theorem checkpoint_2_resume :
  forall (SO : SetOrder) (float_repr : Q -> string)
         (float_of_string : string -> Q) (now : string)
         (args : Args) (G : Globals) (p1 p2 p3 p4 : string) (rest : list string)
         (j1 j2 j3 j4 : json) (d1 d2 d3 d4 : dict string (list string))
         (fs0 : files),
    run_all args = true -> checkpoint_num args = None ->
    given_str (test_identifier args) = true ->
    input_files args = Some (p1 :: p2 :: p3 :: p4 :: rest) ->
    set_globals now args = inr G ->
    dict_wf fs0 ->
    dict_get fs0 p1 = Some (JsonFile j1) -> clusters_of_json j1 = Some d1 ->
    dict_get fs0 p2 = Some (JsonFile j2) -> clusters_of_json j2 = Some d2 ->
    dict_get fs0 p3 = Some (JsonFile j3) -> clusters_of_json j3 = Some d3 ->
    dict_get fs0 p4 = Some (JsonFile j4) -> clusters_of_json j4 = Some d4 ->
    (forall p, In p [p1; p2; p3; p4] ->
               ~ In p (prot_dict_file G :: output_files G)) ->
    exists prot_dict r fs1,
      create_prot_dict G (dataframe_of d1) (dataframe_of d2)
        (dataframe_of d3) (dataframe_of d4) fs0 =
      (inr prot_dict,
       dict_set fs0 (prot_dict_file G) (JsonFile (json_of_prot_dict prot_dict))) /\
      prot_dict_of_json (json_of_prot_dict prot_dict) = Some prot_dict /\
      prot_dict_of_text float_of_string (prot_dict_text float_repr prot_dict) =
        Some prot_dict /\
      main float_repr now args fs0 = (r, fs1) /\
      dict_get fs1 (prot_dict_file G) = Some (JsonFile (json_of_prot_dict prot_dict)) /\
      main float_repr now (resume_from_2 args (prot_dict_file G)) fs1 = (r, fs1).
Proof.
  intros SO float_repr float_of_string now args G p1 p2 p3 p4 rest
         j1 j2 j3 j4 d1 d2 d3 d4 fs0
         Hall Hcp Hid Hfiles EG Hwf G1 C1 G2 C2 G3 C3 G4 C4 Hnames.
  set (pd := index_of d1 d2 d3 d4).
  set (fsA := dict_set fs0 (prot_dict_file G) (JsonFile (json_of_prot_dict pd))).
  destruct (finish_writes float_repr G pd d1 d2 d3 d4) as (r & W & HW & Hrun).
  assert (Hround : prot_dict_of_json (json_of_prot_dict pd) = Some pd)
    by (apply prot_dict_roundtrip; apply index_of_wf).
  assert (Hother : forall n, ~ In n (output_files G) ->
                     dict_get (apply_writes W fsA) n = dict_get fsA n).
  { intros n Hn. apply dict_get_apply_writes_other.
    intros w Hw E. apply Hn. rewrite <- E. now apply HW. }
  assert (Hinput : forall p, In p [p1; p2; p3; p4] ->
                     dict_get (apply_writes W fsA) p = dict_get fs0 p).
  { intros p Hp. specialize (Hnames p Hp). rewrite Hother.
    - unfold fsA. apply dict_get_set_other. intros E. apply Hnames. now left.
    - intros Hin. apply Hnames. now right. }
  assert (Hckpt : dict_get (apply_writes W fsA) (prot_dict_file G) =
                  Some (JsonFile (json_of_prot_dict pd))).
  { rewrite Hother by apply (@prot_dict_file_not_output now args G EG).
    apply dict_get_set_same. }
  exists pd, r, (apply_writes W fsA).
  split; [apply create_prot_dict_spec|]. split; [exact Hround|].
  split; [apply prot_dict_text_roundtrip; apply index_of_wf|].
  split; [|split; [exact Hckpt|]].
  - rewrite (@main_run_all_eq SO float_repr now args G p1 p2 p3 p4 rest
               j1 j2 j3 j4 d1 d2 d3 d4 fs0); try assumption.
    apply Hrun.
  - rewrite (@main_checkpoint_2_eq SO float_repr now
               (resume_from_2 args (prot_dict_file G)) G (prot_dict_file G)
               p1 p2 p3 p4 rest (json_of_prot_dict pd) pd
               j1 j2 j3 j4 d1 d2 d3 d4 (apply_writes W fsA));
      try assumption; try reflexivity.
    + rewrite Hrun. f_equal. apply apply_writes_idem.
      unfold fsA. now apply dict_wf_set.
    + rewrite Hinput; [exact G1|simpl; tauto].
    + rewrite Hinput; [exact G2|simpl; tauto].
    + rewrite Hinput; [exact G3|simpl; tauto].
    + rewrite Hinput; [exact G4|simpl; tauto].
Qed.

Definition example_d1 : dict string (list string) :=
  [("OG1", ["p1"; "p2"; "p3"]); ("OG2", ["p4"])].
Definition example_d : dict string (list string) :=
  [("OG1", ["p1"; "p2"; "p3"])].

Lemma checkpoint_2_resume_witness :
  (run_all example_args = true /\ checkpoint_num example_args = None /\
   given_str (test_identifier example_args) = true /\
   input_files example_args =
     Some ("prog1.json" :: "prog2.json" :: "prog3.json" :: "prog4.json" :: []) /\
   set_globals "now" example_args = inr example_globals /\
   dict_wf example_files /\
   (forall p, In p ["prog1.json"; "prog2.json"; "prog3.json"; "prog4.json"] ->
              ~ In p (prot_dict_file example_globals :: output_files example_globals))) /\
  exists prot_dict r fs1,
    create_prot_dict example_globals (dataframe_of example_d1) (dataframe_of example_d)
      (dataframe_of example_d) (dataframe_of example_d) example_files =
    (inr prot_dict,
     dict_set example_files (prot_dict_file example_globals)
       (JsonFile (json_of_prot_dict prot_dict))) /\
    prot_dict_of_json (json_of_prot_dict prot_dict) = Some prot_dict /\
    prot_dict_of_text example_float_of_string
      (prot_dict_text example_float_repr prot_dict) = Some prot_dict /\
    main example_float_repr "now" example_args example_files = (r, fs1) /\
    dict_get fs1 (prot_dict_file example_globals) =
      Some (JsonFile (json_of_prot_dict prot_dict)) /\
    main example_float_repr "now"
      (resume_from_2 example_args (prot_dict_file example_globals)) fs1 = (r, fs1).
Proof.
  assert (Hwf : dict_wf example_files).
  { unfold dict_wf. simpl.
    repeat (constructor; [simpl; intuition discriminate|]). constructor. }
  assert (Hnames : forall p,
             In p ["prog1.json"; "prog2.json"; "prog3.json"; "prog4.json"] ->
             ~ In p (prot_dict_file example_globals :: output_files example_globals)).
  { intros p [<-|[<-|[<-|[<-|[]]]]] Hin; vm_compute in Hin;
      intuition discriminate. }
  split.
  { split; [reflexivity|]. split; [reflexivity|]. split; [reflexivity|].
    split; [reflexivity|]. split; [reflexivity|]. split; [exact Hwf|exact Hnames]. }
  exact (@checkpoint_2_resume first_occurrence_order example_float_repr
           example_float_of_string "now" example_args example_globals
           "prog1.json" "prog2.json" "prog3.json" "prog4.json" []
           (json_of_clusters example_d1) (json_of_clusters example_d)
           (json_of_clusters example_d) (json_of_clusters example_d)
           example_d1 example_d example_d example_d example_files
           eq_refl eq_refl eq_refl eq_refl eq_refl Hwf
           eq_refl eq_refl eq_refl eq_refl eq_refl eq_refl eq_refl eq_refl
           Hnames).
Defined.

(** The end-to-end example of the specification: the index has four
    records, the filter drops the record of [p4], every pair gets the score
    list [[1; 1; 1]] and the mean 1, and a threshold of 50 retains the six
    pairs. *)
Example end_to_end :
  let fs := snd (main example_float_repr "now" example_args example_files) in
  fst (main example_float_repr "now" example_args example_files) = inr tt /\
  dict_get fs "prot_dict_run.json" =
    Some (JsonFile (json_of_prot_dict
      [("p1", mk_slots "OG1" "OG1" "OG1" "OG1"); ("p2", mk_slots "OG1" "OG1" "OG1" "OG1");
       ("p3", mk_slots "OG1" "OG1" "OG1" "OG1"); ("p4", mk_slots "OG2" "-" "-" "-")])) /\
  dict_get fs "filt_prot_dict_run.json" =
    Some (JsonFile (json_of_prot_dict
      [("p1", mk_slots "OG1" "OG1" "OG1" "OG1"); ("p2", mk_slots "OG1" "OG1" "OG1" "OG1");
       ("p3", mk_slots "OG1" "OG1" "OG1" "OG1")])) /\
  dict_get fs "compare_OG_dict_run.json" =
    Some (JsonFile (json_of_comparison_dict
      (map (fun name => (name, [1%Q; 1%Q; 1%Q])) (comparison_names example_globals)))) /\
  dict_get fs "og_score_dict_run.json" =
    Some (JsonFile (json_of_score_dict
      (map (fun name => (name, 1%Q)) (comparison_names example_globals)))).
Proof. vm_compute. repeat split. Qed.

(** A record that passed the filter and names a cluster its program's
    mapping lacks: the comparator raises [KeyError] for it. *)
Example membership_test_missing_cluster :
  membership_test example_globals
    (filter_loops [("p1", mk_slots "X" "Y" "-" "-")])
    [] [("Y", ["p1"])] [] [] [] = (inl (KeyError "X"), []).
Proof. reflexivity. Qed.

(** A complete run in which only the first two programs share a protein:
    the other five pairs have no score, the aggregator raises
    [StatisticsError], and no summary and no report are written. *)
Example main_empty_score_list :
  let fs0 : files :=
    [("prog1.json", JsonFile (json_of_clusters [("A", ["p1"])]));
     ("prog2.json", JsonFile (json_of_clusters [("B", ["p1"])]));
     ("prog3.json", JsonFile (json_of_clusters []));
     ("prog4.json", JsonFile (json_of_clusters []))] in
  fst (main example_float_repr "now" example_args fs0) = inl StatisticsError /\
  dict_keys (snd (main example_float_repr "now" example_args fs0)) =
    ["prog1.json"; "prog2.json"; "prog3.json"; "prog4.json";
     "prot_dict_run.json"; "filt_prot_dict_run.json"; "compare_OG_dict_run.json"].
Proof. vm_compute. split; reflexivity. Qed.

(** [s] with every apostrophe replaced by a double quote, to write the
    text of a JSON file legibly *)
Fixpoint with_quotes (s : string) : string :=
  match s with
  | EmptyString => EmptyString
  | String c s' =>
      String (if Ascii.eqb c "'" then "034"%char else c) (with_quotes s')
  end.

(** The text of the files of a run: the index as [json.dump] writes it, the
    same index read from a text laid out differently, and a score summary. *)
Example checkpoint_texts :
  prot_dict_text example_float_repr
    [("p1", mk_slots "OG1" "OG1" "OG1" "OG1"); ("p4", mk_slots "OG2" "-" "-" "-")] =
    with_quotes "{'p1': ['OG1', 'OG1', 'OG1', 'OG1'], 'p4': ['OG2', '-', '-', '-']}" /\
  prot_dict_of_text example_float_of_string
    (with_quotes " { 'p1' : ['OG1','OG1','OG1','OG1'] , 'p4':[ 'OG2', '-', '-', '-' ] } ") =
    Some [("p1", mk_slots "OG1" "OG1" "OG1" "OG1"); ("p4", mk_slots "OG2" "-" "-" "-")] /\
  json_dumps example_float_repr
    (json_of_score_dict [("Program_1_vs_Program_2", 1%Q); ("Program_1_vs_Program_3", 1 # 2)]) =
    with_quotes "{'Program_1_vs_Program_2': 1.0, 'Program_1_vs_Program_3': 0.5}" /\
  option_map score_dict_of_json
    (json_loads example_float_of_string
       (with_quotes "{'Program_1_vs_Program_2': 1.0, 'Program_1_vs_Program_3': 0.5}")) =
    Some (Some [("Program_1_vs_Program_2", 1%Q); ("Program_1_vs_Program_3", 1 # 2)]).
Proof. vm_compute. repeat split. Qed.
(* ===================================================================== *)
(** * Part III. Further properties of the code *)
(* ===================================================================== *)

(** ** The similarity score *)

Section TilingFacts.
Context {T : Type} `{EqDecB T}.
Variable dflt : T.
Variables a b : list T.

(** Blocks that are increasing in both sequences and whose sizes add up to
    what is left of both sequences from [lo_a] and [lo_b] on lie on the
    diagonal: the two sequences agree from there on. *)
Lemma chain_tiles : forall (l : list Match) (lo_a lo_b : nat),
  lo_a <= length a -> lo_b <= length b ->
  chain l ->
  Forall (valid_block dflt a b) l ->
  Forall (fun m : Match => lo_a <= fst (fst m) /\ lo_b <= snd (fst m)) l ->
  list_sum (map msize l) + lo_a = length a ->
  list_sum (map msize l) + lo_b = length b ->
  forall x, lo_a + x < length a -> nth (lo_a + x) a dflt = nth (lo_b + x) b dflt.
Proof.
  induction l as [|[[i j] k] l IH]; intros lo_a lo_b Hla Hlb Hc Hv Hlo Sa Sb x Hx;
    simpl in Sa, Sb; [lia|].
  change (msize (i, j, k)) with k in Sa, Sb.
  apply FOP_cons_iff in Hc. destruct Hc as [Hfirst Hc].
  inversion Hv as [|? ? Hv0 Hv']; subst.
  inversion Hlo as [|? ? Hlo0 Hlo']; subst.
  destruct Hv0 as (Hia & Hjb & Hm). simpl in Hlo0.
  assert (Hrest_a : Forall (fun m : Match => i + k <= fst (fst m) /\
                                             fst (fst m) + msize m <= length a) l).
  { rewrite Forall_forall in *. intros [[i' j'] k'] Hin.
    specialize (Hfirst _ Hin). specialize (Hv' _ Hin).
    unfold block_before, before, valid_block, msize in *. simpl in *. lia. }
  assert (Hrest_b : Forall (fun m : Match => j + k <= snd (fst m) /\
                                             snd (fst m) + msize m <= length b) l).
  { rewrite Forall_forall in *. intros [[i' j'] k'] Hin.
    specialize (Hfirst _ Hin). specialize (Hv' _ Hin).
    unfold block_before, before, valid_block, msize in *. simpl in *. lia. }
  pose proof (@chain_sum_a _ a l (i + k) Hia Hc Hrest_a) as Ba.
  pose proof (@chain_sum_b _ b l (j + k) Hjb Hc Hrest_b) as Bb.
  assert (Ei : i = lo_a) by lia. assert (Ej : j = lo_b) by lia. subst i j.
  destruct (Nat.lt_ge_cases x k) as [Hlt|Hge].
  - apply Hm. exact Hlt.
  - replace (lo_a + x) with ((lo_a + k) + (x - k)) by lia.
    replace (lo_b + x) with ((lo_b + k) + (x - k)) by lia.
    apply (IH (lo_a + k) (lo_b + k)); try lia; try assumption.
    rewrite Forall_forall in *. intros m Hin.
    specialize (Hrest_a _ Hin). specialize (Hrest_b _ Hin). lia.
Qed.

(** When every element of both sequences is matched, the sequences are
    equal. *)
Lemma matches_full_eq :
  matches dflt a b = length a -> matches dflt a b = length b -> a = b.
Proof.
  intros Ma Mb. destruct (get_matching_blocks_ok dflt a b) as [Hv Hc].
  unfold matches in Ma, Mb.
  apply (nth_ext a b dflt dflt); [congruence|].
  intros n Hn.
  apply (@chain_tiles (get_matching_blocks dflt a b) 0 0); try lia; try assumption.
  apply Forall_forall. intros m _. lia.
Qed.

(** Sequences without a common element have no match. *)
Lemma matches_disjoint :
  (forall x, In x a -> ~ In x b) -> matches dflt a b = 0.
Proof.
  intros Hd. destruct (get_matching_blocks_ok dflt a b) as [Hv _].
  unfold matches.
  induction (get_matching_blocks dflt a b) as [|[[i j] k] l IH]; [reflexivity|].
  inversion Hv as [|? ? Hv0 Hv']; subst. simpl.
  rewrite (IH Hv'). change (msize (i, j, k)) with k.
  destruct k as [|k]; [reflexivity|]. exfalso.
  destruct Hv0 as (Hia & Hjb & Hm).
  specialize (Hm 0 (Nat.lt_0_succ k)). rewrite !Nat.add_0_r in Hm.
  apply (Hd (nth i a dflt)).
  - apply nth_In. lia.
  - rewrite Hm. apply nth_In. lia.
Qed.
End TilingFacts.

Lemma calculate_ratio_one (m t : nat) :
  t <> 0 -> calculate_ratio m t = 1%Q -> 2 * m = t.
Proof.
  intros Ht E. pose proof (calculate_ratio_Qeq m Ht) as Hq.
  rewrite E in Hq. unfold Qeq, Qdiv, Qmult, Qinv, inject_Z in Hq.
  destruct (Z.of_nat t) eqn:Et; simpl in Hq; try lia.
Qed.

Lemma calculate_ratio_zero (t : nat) : t <> 0 -> calculate_ratio 0 t = 0%Q.
Proof.
  intros Ht. unfold calculate_ratio.
  destruct (Nat.eqb_spec t 0) as [E|_]; [contradiction|]. reflexivity.
Qed.

(** X1.  The score of two member lists is 1 exactly when the lists are
    equal, element by element and in the same order. *)
Theorem ratio_one_iff_equal :
  forall a b : list string, ratio a b = 1%Q <-> a = b.
Proof.
  intros a b. split; [|intros ->; apply ratio_self].
  intros E. unfold ratio in E.
  destruct (Nat.eq_dec (length a + length b) 0) as [Z|NZ].
  - destruct a, b; simpl in Z; try lia. reflexivity.
  - apply calculate_ratio_one in E; [|exact NZ].
    destruct (matches_le "" a b) as [La Lb].
    apply (@matches_full_eq _ _ "" a b); lia.
Qed.

(** X2.  Two member lists without a common element score 0, unless both
    are empty, in which case the score is 1. *)
Theorem ratio_disjoint_zero :
  forall a b : list string,
    (forall x, In x a -> ~ In x b) ->
    (a = [] /\ b = [] -> ratio a b = 1%Q) /\
    (~ (a = [] /\ b = []) -> ratio a b = 0%Q).
Proof.
  intros a b Hd. split.
  - intros [-> ->]. reflexivity.
  - intros Hne. unfold ratio. rewrite (@matches_disjoint _ _ "" a b Hd).
    apply calculate_ratio_zero. destruct a, b; simpl; try lia. tauto.
Qed.

Lemma ratio_disjoint_zero_witness :
  (forall x, In x ["p1"; "p2"] -> ~ In x ["p3"]) /\
  (~ (["p1"; "p2"] = [] /\ ["p3"] = []) -> ratio ["p1"; "p2"] ["p3"] = 0%Q).
Proof.
  assert (Hd : forall x, In x ["p1"; "p2"] -> ~ In x ["p3"]).
  { intros x [<-|[<-|[]]] [E|[]]; discriminate. }
  split; [exact Hd|].
  exact (proj2 (@ratio_disjoint_zero ["p1"; "p2"] ["p3"] Hd)).
Defined.

(** ** The Index Filter *)

(** The number of distinct values of a list whose assigned values are
    pairwise different: the assigned values, and the sentinel if it
    occurs. *)
Lemma py_set_len_assigned (l : list string) :
  NoDup (filter assigned l) ->
  py_set_len l =
  length (filter assigned l) + (if existsb (fun s => negb (assigned s)) l then 1 else 0).
Proof.
  unfold py_set_len. induction l as [|x l IH]; intros Hnd; [reflexivity|].
  simpl in Hnd |- *. destruct (assigned x) eqn:Ex; simpl.
  - apply NoDup_cons_iff in Hnd. destruct Hnd as [Hx Hnd].
    destruct (in_dec string_dec x l) as [Hin|Hout].
    + exfalso. apply Hx. apply filter_In. now split.
    + simpl. now rewrite (IH Hnd).
  - destruct (in_dec string_dec x l) as [Hin|Hout].
    + rewrite (IH Hnd).
      assert (Hex : existsb (fun s => negb (assigned s)) l = true).
      { apply existsb_exists. exists x. split; [exact Hin|]. now rewrite Ex. }
      now rewrite Hex.
    + simpl. rewrite (IH Hnd).
      assert (Hex : existsb (fun s => negb (assigned s)) l = false).
      { destruct (existsb (fun s => negb (assigned s)) l) eqn:E; [|reflexivity].
        apply existsb_exists in E. destruct E as (y & Hy & Ey).
        exfalso. apply Hout.
        assert (Ax : x = sentinel).
        { unfold assigned in Ex. apply negb_false_iff in Ex.
          now apply String.eqb_eq in Ex. }
        assert (Ay : y = sentinel).
        { unfold assigned in Ey. apply negb_true_iff in Ey.
          apply negb_false_iff in Ey. now apply String.eqb_eq in Ey. }
        congruence. }
      rewrite Hex. lia.
Qed.

Lemma sentinel_or_full (l : list string) :
  existsb (fun s => negb (assigned s)) l = false ->
  length (filter assigned l) = length l.
Proof.
  induction l as [|x l IH]; simpl; [reflexivity|].
  destruct (assigned x); simpl; [|discriminate].
  intros E. now rewrite IH.
Qed.

Lemma two_distinct_assigned (r : slots) :
  NoDup (filter assigned (slots_list r)) ->
  two_distinct r = true <-> non_sentinel_count r = 1.
Proof.
  intros Hnd. unfold two_distinct, non_sentinel_count.
  rewrite (py_set_len_assigned _ Hnd).
  pose proof (@sentinel_or_full (slots_list r)) as Hfull.
  pose proof (filter_length_le assigned (slots_list r)) as Hle.
  change (length (slots_list r)) with 4 in Hfull, Hle.
  destruct (existsb (fun s => negb (assigned s)) (slots_list r)).
  - rewrite Nat.eqb_eq. lia.
  - specialize (Hfull eq_refl). rewrite Nat.eqb_eq. lia.
Qed.

(** X3.  The filter returns (and writes to [filt_prot_dict_<id>.json]) the
    records of the index whose four slots do not hold exactly two distinct
    values, the sentinel counted as a value, in the order of the index and
    unchanged. *)
Theorem filter_prot_dict_keeps :
  forall (G : Globals) (prot_dict : dict string slots) (fs : files),
    dict_wf prot_dict ->
    let kept :=
      filter (fun e => negb (Nat.eqb (py_set_len (slots_list (snd e))) 2))
             prot_dict in
    filter_prot_dict G prot_dict fs =
    (inr kept,
     dict_set fs ("filt_prot_dict_" ++ run_identifier G ++ ".json")%string
       (JsonFile (json_of_prot_dict kept))).
Proof.
  intros G prot_dict fs Hwf kept.
  unfold filter_prot_dict, io_bind, json_dump, io_ret.
  rewrite (filter_loops_spec Hwf). reflexivity.
Qed.

Lemma filter_prot_dict_keeps_witness :
  dict_wf [("p1", mk_slots "A" "B" "-" "-"); ("p2", mk_slots "A" "-" "-" "-")] /\
  filter_prot_dict example_globals
    [("p1", mk_slots "A" "B" "-" "-"); ("p2", mk_slots "A" "-" "-" "-")] [] =
  (inr [("p1", mk_slots "A" "B" "-" "-")],
   [("filt_prot_dict_run.json",
     JsonFile (json_of_prot_dict [("p1", mk_slots "A" "B" "-" "-")]))]).
Proof.
  assert (Hwf : dict_wf [("p1", mk_slots "A" "B" "-" "-");
                         ("p2", mk_slots "A" "-" "-" "-")]).
  { unfold dict_wf. simpl.
    repeat (constructor; [simpl; intuition discriminate|]). constructor. }
  split; [exact Hwf|].
  exact (@filter_prot_dict_keeps example_globals
           [("p1", mk_slots "A" "B" "-" "-"); ("p2", mk_slots "A" "-" "-" "-")]
           [] Hwf).
Defined.

(** X4.  A record with exactly one assigned slot never passes the filter;
    and a record whose assigned slots hold pairwise different cluster names
    passes it exactly when the number of its assigned slots is not 1. *)
Theorem filter_prot_dict_assigned :
  forall (G : Globals) (prot_dict : dict string slots) (fs : files)
         (key : string) (r : slots),
    dict_wf prot_dict -> In (key, r) prot_dict ->
    exists filt_prot_dict,
      fst (filter_prot_dict G prot_dict fs) = inr filt_prot_dict /\
      (non_sentinel_count r = 1 -> ~ In (key, r) filt_prot_dict) /\
      (NoDup (filter assigned (slots_list r)) ->
       (In (key, r) filt_prot_dict <-> non_sentinel_count r <> 1)).
Proof.
  intros G prot_dict fs key r Hwf Hin. exists (filter_loops prot_dict).
  split; [reflexivity|]. split.
  - intros Hone Hk. apply filter_loops_kept in Hk.
    now apply two_distinct_count in Hk.
  - intros Hnd. rewrite (filter_loops_In key r Hwf).
    pose proof (two_distinct_assigned r Hnd) as Ht.
    destruct (two_distinct r); split.
    + intros [_ E]. discriminate.
    + intros Hne. exfalso. apply Hne. now apply Ht.
    + intros _ Hone. apply Ht in Hone. discriminate.
    + intros _. now split.
Qed.

Lemma filter_prot_dict_assigned_witness :
  (dict_wf [("p1", mk_slots "A" "B" "-" "-")] /\
   In ("p1", mk_slots "A" "B" "-" "-") [("p1", mk_slots "A" "B" "-" "-")]) /\
  exists filt_prot_dict,
    fst (filter_prot_dict example_globals [("p1", mk_slots "A" "B" "-" "-")] []) =
      inr filt_prot_dict /\
    (non_sentinel_count (mk_slots "A" "B" "-" "-") = 1 ->
     ~ In ("p1", mk_slots "A" "B" "-" "-") filt_prot_dict) /\
    (NoDup (filter assigned (slots_list (mk_slots "A" "B" "-" "-"))) ->
     (In ("p1", mk_slots "A" "B" "-" "-") filt_prot_dict <->
      non_sentinel_count (mk_slots "A" "B" "-" "-") <> 1)).
Proof.
  assert (Hwf : dict_wf [("p1", mk_slots "A" "B" "-" "-")]).
  { unfold dict_wf. simpl. repeat constructor. simpl. tauto. }
  assert (Hin : In ("p1", mk_slots "A" "B" "-" "-")
                   [("p1", mk_slots "A" "B" "-" "-")]) by (simpl; tauto).
  split; [split; assumption|].
  exact (@filter_prot_dict_assigned example_globals
           [("p1", mk_slots "A" "B" "-" "-")] [] "p1"
           (mk_slots "A" "B" "-" "-") Hwf Hin).
Defined.

(** ** The Pairwise Comparator: the score lists *)

(** The scores that the comparison of the clusters named by [first] and
    [second] adds over the records: one score for every record in which
    both slots are assigned, in the order of the records.  The cluster of
    [first] is the first argument of the matcher. *)
Definition score_list (items : dict string slots)
    (first : slots -> string) (first_dict : dict string (list string))
    (second : slots -> string) (second_dict : dict string (list string))
  : list Q :=
  flat_map
    (fun e : string * slots =>
       let r := snd e in
       if assigned (first r) && assigned (second r)
       then match dict_get first_dict (first r), dict_get second_dict (second r) with
            | Some first_compare, Some second_compare =>
                [ratio first_compare second_compare]
            | _, _ => []
            end
       else [])
    items.

Section ScoreFacts.
Variable G : Globals.
Variables d1 d2 d3 d4 : dict string (list string).

(** What a block adds to the score list [n] *)
Definition block_scores (n : string) (bl : block) : list Q :=
  let '(name, first_og, first_dict, second_og, second_dict) := bl in
  if String.eqb n name && (assigned first_og && assigned second_og)
  then match dict_get first_dict first_og, dict_get second_dict second_og with
       | Some first_compare, Some second_compare =>
           [ratio first_compare second_compare]
       | _, _ => []
       end
  else [].

Lemma guarded_get bl cd cd' n l :
  guarded bl cd = inr cd' -> dict_get cd n = Some l ->
  dict_get cd' n = Some (l ++ block_scores n bl).
Proof.
  destruct bl as [[[[name oa] da] ob] db]. unfold guarded, block_scores.
  intros E Hn.
  destruct (assigned oa && assigned ob).
  - unfold compare_block, py_getitem in E.
    destruct (dict_get da oa) as [la|]; [|discriminate].
    destruct (dict_get db ob) as [lb|]; [|discriminate]. simpl in E.
    unfold dict_append, py_getitem in E.
    destruct (dict_get cd name) as [l0|] eqn:E0; [|discriminate].
    simpl in E. injection E as <-.
    destruct (String.eqb_spec n name) as [->|Hne]; simpl.
    + rewrite dict_get_set_same. congruence.
    + rewrite dict_get_set_other by congruence. now rewrite app_nil_r.
  - injection E as <-. rewrite andb_false_r. now rewrite app_nil_r.
Qed.

Lemma run_blocks_get n bls : forall cd cd' l,
  run_blocks bls cd = inr cd' -> dict_get cd n = Some l ->
  dict_get cd' n = Some (l ++ flat_map (block_scores n) bls).
Proof.
  induction bls as [|bl bls IH]; intros cd cd' l E Hn; simpl in *.
  - injection E as <-. now rewrite app_nil_r.
  - destruct (guarded bl cd) as [e|cd1] eqn:E1; [discriminate|]. simpl in E.
    rewrite (IH cd1 cd' _ E (@guarded_get bl cd cd1 n l E1 Hn)). now rewrite app_assoc.
Qed.

Lemma membership_loop_get n items : forall cd cd' l,
  membership_loop G d1 d2 d3 d4 items cd = inr cd' -> dict_get cd n = Some l ->
  dict_get cd' n =
  Some (l ++ flat_map (fun e : string * slots =>
                         flat_map (block_scores n) (blocks_of G d1 d2 d3 d4 (snd e)))
                      items).
Proof.
  induction items as [|[key r] items IH]; intros cd cd' l E Hn; simpl in *.
  - injection E as <-. now rewrite app_nil_r.
  - rewrite membership_body_blocks in E.
    destruct (run_blocks (blocks_of G d1 d2 d3 d4 r) cd) as [e|cd1] eqn:E1;
      [discriminate|]. simpl in E.
    rewrite (IH cd1 cd' _ E (@run_blocks_get n _ cd cd1 l E1 Hn)). now rewrite app_assoc.
Qed.

Lemma membership_loop_keys items : forall cd cd',
  membership_loop G d1 d2 d3 d4 items cd = inr cd' ->
  names_present G cd -> dict_keys cd' = dict_keys cd.
Proof.
  intros cd cd' E Hn.
  destruct (forallb (fun e => record_ok G d1 d2 d3 d4 (snd e)) items) eqn:Hok.
  - destruct (@membership_loop_ok G d1 d2 d3 d4 (fun _ => True) items cd
                (fun _ _ => I) Hn (fun _ _ _ _ _ => I) Hok) as (cd2 & E2 & Hk & _).
    congruence.
  - destruct (@membership_loop_err G d1 d2 d3 d4 items cd Hn Hok)
      as (k & key & r & bl & E2 & _). congruence.
Qed.

Lemma empty_comparison_dict_eq :
  NoDup (comparison_names G) ->
  empty_comparison_dict G = map (fun n => (n, @nil Q)) (comparison_names G).
Proof.
  intros Hnd. unfold empty_comparison_dict.
  change [comparison_1_name G; comparison_2_name G; comparison_3_name G;
          comparison_4_name G; comparison_5_name G; comparison_6_name G]
    with (comparison_names G).
  rewrite (@fold_dict_set_fresh _ (fun _ => @nil Q) (comparison_names G) [] Hnd).
  - reflexivity.
  - intros p _ [].
Qed.
End ScoreFacts.

(** The score lists that the comparison loop builds from the six empty
    lists, for pairwise different comparison names *)
Lemma membership_loop_score_lists (G : Globals) (filt_prot_dict : dict string slots)
    (d1 d2 d3 d4 : dict string (list string)) (cd0 : dict string (list Q)) :
  NoDup (comparison_names G) ->
  membership_loop G d1 d2 d3 d4 filt_prot_dict (empty_comparison_dict G) = inr cd0 ->
  dict_keys cd0 = comparison_names G /\
  dict_get cd0 (comparison_1_name G) =
    Some (score_list filt_prot_dict slot0 d1 slot1 d2) /\
  dict_get cd0 (comparison_2_name G) =
    Some (score_list filt_prot_dict slot0 d1 slot2 d3) /\
  dict_get cd0 (comparison_3_name G) =
    Some (score_list filt_prot_dict slot0 d1 slot3 d4) /\
  dict_get cd0 (comparison_4_name G) =
    Some (score_list filt_prot_dict slot2 d3 slot1 d2) /\
  dict_get cd0 (comparison_5_name G) =
    Some (score_list filt_prot_dict slot3 d4 slot1 d2) /\
  dict_get cd0 (comparison_6_name G) =
    Some (score_list filt_prot_dict slot2 d3 slot3 d4).
Proof.
  intros Hnd El. rename filt_prot_dict into filt.
  pose proof (@membership_loop_keys G d1 d2 d3 d4 filt _ _ El (@empty_comparison_dict_names G)) as Hk.
  rewrite (@empty_comparison_dict_eq G Hnd) in Hk. unfold dict_keys at 2 in Hk.
  rewrite map_map, map_id in Hk.
  split; [exact Hk|].
  assert (Hget : forall n, In n (comparison_names G) ->
            dict_get cd0 n =
            Some (flat_map (fun e : string * slots =>
                              flat_map (block_scores n) (blocks_of G d1 d2 d3 d4 (snd e)))
                           filt)).
  { intros n Hn.
    rewrite (@membership_loop_get G d1 d2 d3 d4 n filt _ _ [] El); [reflexivity|].
    apply dict_get_In.
    - unfold dict_wf. rewrite (@empty_comparison_dict_eq G Hnd).
      unfold dict_keys. now rewrite map_map, map_id.
    - rewrite (@empty_comparison_dict_eq G Hnd). apply in_map_iff. now exists n. }
  unfold comparison_names in Hnd.
  repeat match goal with
         | H : NoDup (_ :: _) |- _ => apply NoDup_cons_iff in H; destruct H as [? H]
         end.
  assert (Hneq : forall x y : string, x <> y -> String.eqb x y = false)
    by (intros x y Hxy; now apply String.eqb_neq).
  repeat split;
    (rewrite Hget by (unfold comparison_names; simpl; tauto);
     f_equal; unfold score_list; apply flat_map_ext; intros [key r];
     unfold blocks_of, block_scores; cbn [flat_map snd];
     rewrite String.eqb_refl;
     rewrite !Hneq by (intros Heq; simpl in *; intuition congruence);
     cbn [andb]; rewrite ?app_nil_r; reflexivity).
Qed.

(** X5.  When the six comparison names are pairwise different and the
    comparator returns, its dictionary has the six names as keys, in the
    order 1 to 6, and the list of each pair holds one score for every record
    of the filtered index in which both programs have a cluster, in the
    order of the index: the score of the two clusters' member lists, with
    the list of the first program first for the pairs 1, 2, 3 and 6 and the
    list of the second program first for the pairs 4 and 5. *)
Theorem membership_test_score_lists :
  forall (G : Globals) (filt_prot_dict : dict string slots)
         (d1 d2 d3 d4 : dict string (list string)) (fs fs' : files)
         (comparison_dict : dict string (list Q)),
    NoDup (comparison_names G) ->
    membership_test G filt_prot_dict d1 d2 d3 d4 fs = (inr comparison_dict, fs') ->
    dict_keys comparison_dict = comparison_names G /\
    dict_get comparison_dict (comparison_1_name G) =
      Some (score_list filt_prot_dict slot0 d1 slot1 d2) /\
    dict_get comparison_dict (comparison_2_name G) =
      Some (score_list filt_prot_dict slot0 d1 slot2 d3) /\
    dict_get comparison_dict (comparison_3_name G) =
      Some (score_list filt_prot_dict slot0 d1 slot3 d4) /\
    dict_get comparison_dict (comparison_4_name G) =
      Some (score_list filt_prot_dict slot2 d3 slot1 d2) /\
    dict_get comparison_dict (comparison_5_name G) =
      Some (score_list filt_prot_dict slot3 d4 slot1 d2) /\
    dict_get comparison_dict (comparison_6_name G) =
      Some (score_list filt_prot_dict slot2 d3 slot3 d4).
Proof.
  intros G filt d1 d2 d3 d4 fs fs' cd Hnd E.
  unfold membership_test, io_bind, lift in E.
  destruct (membership_loop G d1 d2 d3 d4 filt (empty_comparison_dict G))
    as [e|cd0] eqn:El; [discriminate|].
  unfold json_dump, io_ret in E. injection E as <- _.
  now apply membership_loop_score_lists.
Qed.

Lemma membership_test_score_lists_witness :
  NoDup (comparison_names example_globals) /\
  exists comparison_dict fs',
    membership_test example_globals [("p1", mk_slots "OG1" "OG7" "-" "-")]
      [("OG1", ["p1"; "p2"])] [("OG7", ["p1"])] [] [] [] =
      (inr comparison_dict, fs') /\
    dict_keys comparison_dict = comparison_names example_globals /\
    dict_get comparison_dict (comparison_1_name example_globals) =
      Some (score_list [("p1", mk_slots "OG1" "OG7" "-" "-")]
              slot0 [("OG1", ["p1"; "p2"])] slot1 [("OG7", ["p1"])]) /\
    dict_get comparison_dict (comparison_2_name example_globals) =
      Some (score_list [("p1", mk_slots "OG1" "OG7" "-" "-")]
              slot0 [("OG1", ["p1"; "p2"])] slot2 []) /\
    dict_get comparison_dict (comparison_3_name example_globals) =
      Some (score_list [("p1", mk_slots "OG1" "OG7" "-" "-")]
              slot0 [("OG1", ["p1"; "p2"])] slot3 []) /\
    dict_get comparison_dict (comparison_4_name example_globals) =
      Some (score_list [("p1", mk_slots "OG1" "OG7" "-" "-")]
              slot2 [] slot1 [("OG7", ["p1"])]) /\
    dict_get comparison_dict (comparison_5_name example_globals) =
      Some (score_list [("p1", mk_slots "OG1" "OG7" "-" "-")]
              slot3 [] slot1 [("OG7", ["p1"])]) /\
    dict_get comparison_dict (comparison_6_name example_globals) =
      Some (score_list [("p1", mk_slots "OG1" "OG7" "-" "-")]
              slot2 [] slot3 []).
Proof.
  assert (Hnd : NoDup (comparison_names example_globals)).
  { unfold comparison_names. 
    repeat (constructor; [vm_compute; intuition discriminate|]). constructor. }
  split; [exact Hnd|].
  eexists. eexists. split; [reflexivity|].
  exact (@membership_test_score_lists example_globals
           [("p1", mk_slots "OG1" "OG7" "-" "-")]
           [("OG1", ["p1"; "p2"])] [("OG7", ["p1"])] [] [] [] _ _
           Hnd eq_refl).
Defined.

(** ** The Threshold Filter *)

Lemma membership_decimal_mono (G1 G2 : Globals) :
  (percent G1 <= percent G2)%Z ->
  (membership_decimal G1 <= membership_decimal G2)%Q.
Proof.
  intros Hle. unfold membership_decimal. rewrite !Qred_correct.
  unfold Qle. simpl. lia.
Qed.

(** X6.  Raising the threshold only removes pairs: what passes the higher
    percent is what passes it among the pairs that pass the lower one, and
    every pair that passes the higher percent passes the lower one, with
    the same mean. *)
Theorem threshold_test_monotone :
  forall (G1 G2 : Globals) (og_score_dict : dict string Q),
    dict_wf og_score_dict ->
    (percent G1 <= percent G2)%Z ->
    threshold_test G2 (threshold_test G1 og_score_dict) =
      threshold_test G2 og_score_dict /\
    (forall key v, In (key, v) (threshold_test G2 og_score_dict) ->
                   In (key, v) (threshold_test G1 og_score_dict)).
Proof.
  intros G1 G2 og Hwf Hle.
  pose proof (membership_decimal_mono G1 G2 Hle) as Hm.
  assert (Himp : forall v, Qle_bool (membership_decimal G2) v = true ->
                           Qle_bool (membership_decimal G1) v = true).
  { intros v Hv. apply Qle_bool_iff in Hv. apply Qle_bool_iff.
    eapply Qle_trans; eassumption. }
  rewrite (threshold_test_filter G1 Hwf), (threshold_test_filter G2 Hwf).
  rewrite threshold_test_filter by (now apply dict_wf_filter).
  split.
  - induction og as [|[k v] og IH]; [reflexivity|].
    assert (Hwf' : dict_wf og) by (now inversion Hwf).
    simpl. destruct (Qle_bool (membership_decimal G2) v) eqn:E2.
    + rewrite (Himp v E2). simpl. rewrite E2. f_equal. now apply IH.
    + destruct (Qle_bool (membership_decimal G1) v); simpl;
        [rewrite E2|]; now apply IH.
  - intros key v Hin. apply filter_In in Hin. destruct Hin as [Hin Hv].
    apply filter_In. split; [exact Hin|]. now apply Himp.
Qed.

Definition example_globals_80 : Globals :=
  {| run_identifier := "run"; program_list := default_program_list;
     percent := 80; membership_results := "OG_membership_results___80.txt" |}.

Lemma threshold_test_monotone_witness :
  (dict_wf [("A_vs_B", 1 # 2); ("A_vs_C", 1%Q)] /\
   (percent example_globals <= percent example_globals_80)%Z) /\
  threshold_test example_globals_80
    (threshold_test example_globals [("A_vs_B", 1 # 2); ("A_vs_C", 1%Q)]) =
    threshold_test example_globals_80 [("A_vs_B", 1 # 2); ("A_vs_C", 1%Q)] /\
  (forall key v,
     In (key, v) (threshold_test example_globals_80 [("A_vs_B", 1 # 2); ("A_vs_C", 1%Q)]) ->
     In (key, v) (threshold_test example_globals [("A_vs_B", 1 # 2); ("A_vs_C", 1%Q)])).
Proof.
  assert (Hwf : dict_wf [("A_vs_B", 1 # 2); ("A_vs_C", 1%Q)]).
  { unfold dict_wf. simpl.
    repeat (constructor; [simpl; intuition discriminate|]). constructor. }
  assert (Hle : (percent example_globals <= percent example_globals_80)%Z)
    by (simpl; lia).
  split; [split; assumption|].
  exact (@threshold_test_monotone example_globals example_globals_80
           [("A_vs_B", 1 # 2); ("A_vs_C", 1%Q)] Hwf Hle).
Defined.

(** ** Start-up: the command line *)

Section StartupFacts.
Context {SO : SetOrder}.
Variable float_repr : Q -> string.
Variable now : string.

Lemma main_after_checks args G fs :
  sanity_checks args = inr tt -> set_globals now args = inr G ->
  main float_repr now args fs =
  io_bind (execute G args) (write_report float_repr G) fs.
Proof.
  intros Hs Hg. unfold main. rewrite Hs, Hg. reflexivity.
Qed.
End StartupFacts.










(** X10.  A complete run whose [i]-th cluster file does not exist, the
    files before it being cluster mappings, stops with [FileNotFoundError]
    for that file and has written nothing. *)
Theorem main_missing_input_file :
  forall (SO : SetOrder) (float_repr : Q -> string) (now : string)
         (args : Args) (G : Globals) (p1 p2 p3 p4 : string) (rest : list string)
         (fs : files) (i : nat),
    sanity_checks args = inr tt ->
    set_globals now args = inr G ->
    run_all args = true ->
    input_files args = Some (p1 :: p2 :: p3 :: p4 :: rest) ->
    i < 4 ->
    (forall k, k < i ->
       exists j d, dict_get fs (nth k [p1; p2; p3; p4] "") = Some (JsonFile j) /\
                   clusters_of_json j = Some d) ->
    dict_get fs (nth i [p1; p2; p3; p4] "") = None ->
    main float_repr now args fs =
    (inl (FileNotFoundError (nth i [p1; p2; p3; p4] "")), fs).
Proof.
  intros SO float_repr now args G p1 p2 p3 p4 rest fs i Hs Hg Hall Hd Hi Hbefore Hmiss.
  rewrite (@main_after_checks SO float_repr now args G fs Hs Hg).
  unfold execute. rewrite Hall.
  unfold run_all_branch, db_inputs. rewrite Hd.
  unfold io_bind at 1 2. unfold lift, ret. cbv beta iota.
  unfold data_2_pandas.
  assert (Hload : forall k, k < i ->
            exists d, json_load clusters_of_json (nth k [p1; p2; p3; p4] "") fs =
                      (inr d, fs)).
  { intros k Hk. destruct (Hbefore k Hk) as (j & d & Ej & Ec).
    exists d. now apply json_load_ok with (j := j). }
  assert (Hfail : json_load clusters_of_json (nth i [p1; p2; p3; p4] "") fs =
                  (inl (FileNotFoundError (nth i [p1; p2; p3; p4] "")), fs)).
  { unfold json_load. now rewrite Hmiss. }
  destruct i as [|[|[|[|i]]]]; try lia; simpl nth in *.
  - unfold io_bind. now rewrite Hfail.
  - destruct (Hload 0) as [x1 E1]; [lia|]. simpl in E1.
    unfold io_bind. now rewrite E1, Hfail.
  - destruct (Hload 0) as [x1 E1]; [lia|]. destruct (Hload 1) as [x2 E2]; [lia|].
    simpl in E1, E2. unfold io_bind. now rewrite E1, E2, Hfail.
  - destruct (Hload 0) as [x1 E1]; [lia|]. destruct (Hload 1) as [x2 E2]; [lia|].
    destruct (Hload 2) as [x3 E3]; [lia|].
    simpl in E1, E2, E3. unfold io_bind. now rewrite E1, E2, E3, Hfail.
Qed.

Lemma main_missing_input_file_witness :
  (sanity_checks example_args = inr tt /\
   set_globals "now" example_args = inr example_globals /\
   run_all example_args = true /\
   input_files example_args =
     Some ["prog1.json"; "prog2.json"; "prog3.json"; "prog4.json"] /\
   1 < 4 /\
   (forall k, k < 1 ->
      exists j d,
        dict_get [("prog1.json", JsonFile (json_of_clusters example_d1))]
          (nth k ["prog1.json"; "prog2.json"; "prog3.json"; "prog4.json"] "") =
          Some (JsonFile j) /\
        clusters_of_json j = Some d) /\
   dict_get [("prog1.json", JsonFile (json_of_clusters example_d1))]
     (nth 1 ["prog1.json"; "prog2.json"; "prog3.json"; "prog4.json"] "") = None) /\
  main example_float_repr "now" example_args
    [("prog1.json", JsonFile (json_of_clusters example_d1))] =
  (inl (FileNotFoundError "prog2.json"),
   [("prog1.json", JsonFile (json_of_clusters example_d1))]).
Proof.
  assert (Hi : 1 < 4) by lia.
  assert (Hbefore : forall k, k < 1 ->
      exists j d,
        dict_get [("prog1.json", JsonFile (json_of_clusters example_d1))]
          (nth k ["prog1.json"; "prog2.json"; "prog3.json"; "prog4.json"] "") =
          Some (JsonFile j) /\
        clusters_of_json j = Some d).
  { intros k Hk. assert (k = 0) by lia. subst k.
    exists (json_of_clusters example_d1), example_d1. split; reflexivity. }
  split.
  { split; [reflexivity|]. split; [reflexivity|]. split; [reflexivity|].
    split; [reflexivity|]. split; [exact Hi|]. split; [exact Hbefore|reflexivity]. }
  exact (@main_missing_input_file first_occurrence_order example_float_repr "now"
           example_args example_globals
           "prog1.json" "prog2.json" "prog3.json" "prog4.json" []
           [("prog1.json", JsonFile (json_of_clusters example_d1))] 1
           eq_refl eq_refl eq_refl eq_refl Hi Hbefore eq_refl).
Defined.

(** ** Resuming from the checkpoints 3, 4 and 5 *)

(** The command line that resumes the run of [args] from checkpoint [n]
    with the checkpoint file [name] and the cluster files [databases] *)
Definition resume_from (n : nat) (args : Args) (name : string)
    (databases : option (list string)) : Args :=
  {| run_all := false; checkpoint_num := Some n; input_json := Some name;
     test_identifier := test_identifier args;
     membership_percent := membership_percent args;
     out_name := out_name args;
     input_files := databases;
     program_names := program_names args |}.

(** What a run does once the filtered index and the four mappings are at
    hand, once the score lists are at hand, and once the means are *)
Definition finish_from_3 (float_repr : Q -> string) (G : Globals)
    (filt_prot_dict : dict string slots) (d1 d2 d3 d4 : dict string (list string))
  : IO unit :=
  io_bind (membership_test G filt_prot_dict d1 d2 d3 d4) (fun comparison_dict =>
  io_bind (avg_membership_scores G comparison_dict) (fun og_score_dict =>
  write_report float_repr G (threshold_test G og_score_dict))).

Definition finish_from_4 (float_repr : Q -> string) (G : Globals)
    (comparison_dict : dict string (list Q)) : IO unit :=
  io_bind (avg_membership_scores G comparison_dict) (fun og_score_dict =>
  write_report float_repr G (threshold_test G og_score_dict)).

Lemma finish_from_4_writes float_repr G cd :
  writes_in [score_file G; membership_results G] (finish_from_4 float_repr G cd).
Proof.
  unfold finish_from_4. apply writes_in_bind.
  { unfold avg_membership_scores. apply writes_in_bind; [apply writes_in_lift|].
    intros og. apply writes_in_bind.
    - apply writes_in_json_dump. simpl. tauto.
    - intros _. apply writes_in_ret. }
  intros og. unfold write_report. apply writes_in_write_text. simpl. tauto.
Qed.

Lemma finish_from_3_writes float_repr G filt d1 d2 d3 d4 :
  writes_in [compare_file G; score_file G; membership_results G]
    (finish_from_3 float_repr G filt d1 d2 d3 d4).
Proof.
  unfold finish_from_3. apply writes_in_bind.
  { unfold membership_test. apply writes_in_bind; [apply writes_in_lift|].
    intros cd. apply writes_in_bind.
    - apply writes_in_json_dump. simpl. tauto.
    - intros _. apply writes_in_ret. }
  intros cd. apply writes_in_bind.
  { unfold avg_membership_scores. apply writes_in_bind; [apply writes_in_lift|].
    intros og. apply writes_in_bind.
    - apply writes_in_json_dump. simpl. tauto.
    - intros _. apply writes_in_ret. }
  intros og. unfold write_report. apply writes_in_write_text. simpl. tauto.
Qed.

Lemma string_app_length_neq (p1 p2 s : string) :
  String.length p1 <> String.length p2 -> (p1 ++ s <> p2 ++ s)%string.
Proof.
  intros Hlen E. apply (f_equal String.length) in E.
  rewrite !string_length_app in E. lia.
Qed.

(** The five files of a run have five different names. *)
Lemma run_files_NoDup now args G :
  set_globals now args = inr G -> NoDup (prot_dict_file G :: output_files G).
Proof.
  intros EG.
  pose proof (@report_name_not_json now args G "prot_dict_" (run_identifier G) EG) as R1.
  pose proof (@report_name_not_json now args G "filt_prot_dict_" (run_identifier G) EG) as R2.
  pose proof (@report_name_not_json now args G "compare_OG_dict_" (run_identifier G) EG) as R3.
  pose proof (@report_name_not_json now args G "og_score_dict_" (run_identifier G) EG) as R4.
  unfold output_files, prot_dict_file, filt_prot_dict_file, compare_file, score_file.
  assert (N : forall p1 p2 : string, String.length p1 <> String.length p2 ->
                (p1 ++ run_identifier G ++ ".json" <> p2 ++ run_identifier G ++ ".json")%string)
    by (intros p1 p2; apply string_app_length_neq).
  repeat constructor; simpl;
    intuition (try congruence;
               match goal with
               | E : (_ ++ _ ++ ".json")%string = (_ ++ _ ++ ".json")%string |- _ =>
                   revert E; apply N; simpl; lia
               end).
Qed.

(** Every assigned slot of a record of the index names a cluster of its
    program. *)
Lemma index_of_resolves {SO : SetOrder} d1 d2 d3 d4 key r i :
  In (key, r) (index_of d1 d2 d3 d4) -> i < 4 ->
  slot_at i r <> sentinel ->
  In (slot_at i r) (dict_keys (nth i [d1; d2; d3; d4] [])).
Proof.
  intros Hin Hi Hs.
  assert (Eg : dict_get (index_of d1 d2 d3 d4) key = Some r)
    by (apply dict_get_In; [apply index_of_wf|exact Hin]).
  apply index_of_get in Eg. subst r.
  rewrite slot_at_record_of in Hs |- * by exact Hi.
  set (d := nth i [d1; d2; d3; d4] []) in *.
  destruct (in_dec string_dec key (proteins_of d)) as [Hp|Hn].
  - apply slot_of_present in Hp. apply first_cluster_of_In in Hp.
    destruct Hp as [m [Hm _]]. apply (in_map fst) in Hm. exact Hm.
  - exfalso. apply Hs. now apply slot_of_absent.
Qed.

Lemma numbers_of_items_map (l : list Q) : numbers_of_items (map JNumber l) = Some l.
Proof. induction l as [|q l IH]; simpl; [reflexivity|now rewrite IH]. Qed.

Lemma comparison_dict_roundtrip (cd : dict string (list Q)) :
  dict_wf cd -> comparison_dict_of_json (json_of_comparison_dict cd) = Some cd.
Proof.
  apply dict_of_json_of_dict. intros l. simpl. apply numbers_of_items_map.
Qed.

Lemma score_dict_roundtrip (og : dict string Q) :
  dict_wf og -> score_dict_of_json (json_of_score_dict og) = Some og.
Proof. apply dict_of_json_of_dict. reflexivity. Qed.

Lemma empty_comparison_dict_wf G : dict_wf (empty_comparison_dict G).
Proof.
  unfold empty_comparison_dict.
  assert (Hgen : forall names (acc : dict string (list Q)), dict_wf acc ->
            dict_wf (fold_left (fun d name => dict_set d name []) names acc)).
  { induction names as [|n names IH]; intros acc Hacc; simpl; [exact Hacc|].
    apply IH. now apply dict_wf_set. }
  apply Hgen. constructor.
Qed.

Section ResumeMore.
Context {SO : SetOrder}.
Variable float_repr : Q -> string.
Variable now : string.

(** In a complete run the comparator finds every cluster it looks up. *)
Lemma full_run_membership_test G d1 d2 d3 d4 fs :
  exists cd,
    dict_wf cd /\
    membership_test G (filter_loops (index_of d1 d2 d3 d4)) d1 d2 d3 d4 fs =
    (inr cd, dict_set fs (compare_file G) (JsonFile (json_of_comparison_dict cd))).
Proof.
  destruct (@membership_test_resolved G (filter_loops (index_of d1 d2 d3 d4))
              d1 d2 d3 d4 fs) as [Hok _].
  { intros key r Hin. apply filter_loops_kept in Hin.
    now apply two_distinct_count. }
  destruct Hok as [cd E].
  { intros key r i Hin Hi Hs.
    apply (proj1 (filter_loops_In key r (index_of_wf d1 d2 d3 d4))) in Hin.
    apply (@index_of_resolves SO d1 d2 d3 d4 key r i); tauto. }
  exists cd. split; [|exact E].
  unfold membership_test, io_bind, lift in E.
  destruct (membership_loop G d1 d2 d3 d4 (filter_loops (index_of d1 d2 d3 d4))
              (empty_comparison_dict G)) as [e|cd0] eqn:El; [discriminate|].
  unfold json_dump, io_ret in E. injection E as <- _.
  unfold dict_wf.
  rewrite (@membership_loop_keys G d1 d2 d3 d4 _ _ _ El (@empty_comparison_dict_names G)).
  apply empty_comparison_dict_wf.
Qed.

Lemma main_checkpoint_3_eq args G name p1 p2 p3 p4 rest j filt
    j1 j2 j3 j4 d1 d2 d3 d4 fs :
  run_all args = false -> checkpoint_num args = Some 3 ->
  input_json args = Some name -> given_str (test_identifier args) = true ->
  input_files args = Some (p1 :: p2 :: p3 :: p4 :: rest) ->
  set_globals now args = inr G ->
  dict_get fs name = Some (JsonFile j) -> prot_dict_of_json j = Some filt ->
  dict_get fs p1 = Some (JsonFile j1) -> clusters_of_json j1 = Some d1 ->
  dict_get fs p2 = Some (JsonFile j2) -> clusters_of_json j2 = Some d2 ->
  dict_get fs p3 = Some (JsonFile j3) -> clusters_of_json j3 = Some d3 ->
  dict_get fs p4 = Some (JsonFile j4) -> clusters_of_json j4 = Some d4 ->
  main float_repr now args fs = finish_from_3 float_repr G filt d1 d2 d3 d4 fs.
Proof.
  intros Hall Hcp Hjson Hid Hfiles EG G0 C0 G1 C1 G2 C2 G3 C3 G4 C4.
  unfold main, sanity_checks, execute, checkpoint_3_branch, db_inputs, input_json_name.
  rewrite Hall, Hcp, Hfiles, Hjson, Hid, EG.
  cbn [given_list given_num given_file negb andb].
  unfold io_bind, lift, ret. cbv beta iota.
  rewrite (@json_load_ok _ _ _ _ _ _ G0 C0), (@json_load_ok _ _ _ _ _ _ G1 C1),
          (@json_load_ok _ _ _ _ _ _ G2 C2), (@json_load_ok _ _ _ _ _ _ G3 C3),
          (@json_load_ok _ _ _ _ _ _ G4 C4).
  unfold finish_from_3, io_bind, io_ret.
  destruct (membership_test G filt d1 d2 d3 d4 fs) as [[e|cd] fs2]; [reflexivity|].
  destruct (avg_membership_scores G cd fs2) as [[e|og] fs3]; reflexivity.
Qed.

Lemma main_checkpoint_4_eq args G name j cd fs :
  run_all args = false -> checkpoint_num args = Some 4 ->
  input_json args = Some name -> given_str (test_identifier args) = true ->
  set_globals now args = inr G ->
  dict_get fs name = Some (JsonFile j) -> comparison_dict_of_json j = Some cd ->
  main float_repr now args fs = finish_from_4 float_repr G cd fs.
Proof.
  intros Hall Hcp Hjson Hid EG G0 C0.
  unfold main, sanity_checks, execute, checkpoint_4_branch, input_json_name.
  rewrite Hall, Hcp, Hjson, Hid, EG.
  cbn [given_list given_num given_file negb andb].
  unfold io_bind, lift, ret. cbv beta iota.
  rewrite (@json_load_ok _ _ _ _ _ _ G0 C0).
  unfold finish_from_4, io_bind, io_ret.
  destruct (avg_membership_scores G cd fs) as [[e|og] fs3]; reflexivity.
Qed.

Lemma main_checkpoint_5_eq args G name j og fs :
  run_all args = false -> checkpoint_num args = Some 5 ->
  input_json args = Some name -> given_str (test_identifier args) = true ->
  set_globals now args = inr G ->
  dict_get fs name = Some (JsonFile j) -> score_dict_of_json j = Some og ->
  main float_repr now args fs =
  write_report float_repr G (threshold_test G og) fs.
Proof.
  intros Hall Hcp Hjson Hid EG G0 C0.
  unfold main, sanity_checks, execute, checkpoint_5_branch, input_json_name.
  rewrite Hall, Hcp, Hjson, Hid, EG.
  cbn [given_list given_num given_file negb andb].
  unfold io_bind, lift, ret. cbv beta iota.
  rewrite (@json_load_ok _ _ _ _ _ _ G0 C0). reflexivity.
Qed.

(** The complete run, from the store in which the index and the filtered
    index have been written *)
Lemma main_run_all_from_3 args G p1 p2 p3 p4 rest j1 j2 j3 j4 d1 d2 d3 d4 fs :
  run_all args = true -> checkpoint_num args = None ->
  input_files args = Some (p1 :: p2 :: p3 :: p4 :: rest) ->
  set_globals now args = inr G ->
  dict_get fs p1 = Some (JsonFile j1) -> clusters_of_json j1 = Some d1 ->
  dict_get fs p2 = Some (JsonFile j2) -> clusters_of_json j2 = Some d2 ->
  dict_get fs p3 = Some (JsonFile j3) -> clusters_of_json j3 = Some d3 ->
  dict_get fs p4 = Some (JsonFile j4) -> clusters_of_json j4 = Some d4 ->
  main float_repr now args fs =
  finish_from_3 float_repr G (filter_loops (index_of d1 d2 d3 d4)) d1 d2 d3 d4
    (dict_set
       (dict_set fs (prot_dict_file G)
          (JsonFile (json_of_prot_dict (index_of d1 d2 d3 d4))))
       (filt_prot_dict_file G)
       (JsonFile (json_of_prot_dict (filter_loops (index_of d1 d2 d3 d4))))).
Proof.
  intros Hall Hcp Hfiles EG G1 C1 G2 C2 G3 C3 G4 C4.
  rewrite (@main_run_all_eq SO float_repr now args G p1 p2 p3 p4 rest
             j1 j2 j3 j4 d1 d2 d3 d4 fs); try assumption.
  reflexivity.
Qed.
End ResumeMore.

Lemma avg_loop_raises items : forall (acc : dict string Q) e,
  avg_loop items acc = inl e -> e = StatisticsError.
Proof.
  induction items as [|[key scores] items IH]; intros acc e E; simpl in E;
    [discriminate|].
  destruct scores as [|q scores]; simpl in E; [now injection E as <-|].
  now apply IH in E.
Qed.

Lemma avg_loop_wf items : forall (acc og : dict string Q),
  avg_loop items acc = inr og -> dict_wf acc -> dict_wf og.
Proof.
  induction items as [|[key scores] items IH]; intros acc og E Hwf; simpl in E.
  - now injection E as <-.
  - destruct scores as [|q scores]; simpl in E; [discriminate|].
    apply IH in E; [exact E|]. now apply dict_wf_set.
Qed.

(** X11.  On the store that a complete run leaves behind, the run resumed
    from checkpoint 3 with the file of the filtered index and the same four
    cluster files ends with the same outcome and leaves every file as the
    complete run wrote it; the filtered index read from the file is the one
    the filter returned. *)
Theorem checkpoint_3_resume :
  forall (SO : SetOrder) (float_repr : Q -> string) (now : string)
         (args : Args) (G : Globals) (p1 p2 p3 p4 : string) (rest : list string)
         (j1 j2 j3 j4 : json) (d1 d2 d3 d4 : dict string (list string))
         (fs0 : files),
    run_all args = true -> checkpoint_num args = None ->
    given_str (test_identifier args) = true ->
    input_files args = Some (p1 :: p2 :: p3 :: p4 :: rest) ->
    set_globals now args = inr G ->
    dict_wf fs0 ->
    dict_get fs0 p1 = Some (JsonFile j1) -> clusters_of_json j1 = Some d1 ->
    dict_get fs0 p2 = Some (JsonFile j2) -> clusters_of_json j2 = Some d2 ->
    dict_get fs0 p3 = Some (JsonFile j3) -> clusters_of_json j3 = Some d3 ->
    dict_get fs0 p4 = Some (JsonFile j4) -> clusters_of_json j4 = Some d4 ->
    (forall p, In p [p1; p2; p3; p4] ->
               ~ In p (prot_dict_file G :: output_files G)) ->
    exists prot_dict filt_prot_dict fs' r fs1,
      create_prot_dict G (dataframe_of d1) (dataframe_of d2)
        (dataframe_of d3) (dataframe_of d4) fs0 = (inr prot_dict, fs') /\
      fst (filter_prot_dict G prot_dict fs') = inr filt_prot_dict /\
      main float_repr now args fs0 = (r, fs1) /\
      dict_get fs1 (filt_prot_dict_file G) =
        Some (JsonFile (json_of_prot_dict filt_prot_dict)) /\
      prot_dict_of_json (json_of_prot_dict filt_prot_dict) = Some filt_prot_dict /\
      main float_repr now
        (resume_from 3 args (filt_prot_dict_file G) (input_files args)) fs1 = (r, fs1).
Proof.
  intros SO float_repr now args G p1 p2 p3 p4 rest j1 j2 j3 j4 d1 d2 d3 d4 fs0
         Hall Hcp Hid Hfiles EG Hwf G1 C1 G2 C2 G3 C3 G4 C4 Hnames.
  set (pd := index_of d1 d2 d3 d4).
  set (filt := filter_loops pd).
  set (fsA := dict_set fs0 (prot_dict_file G) (JsonFile (json_of_prot_dict pd))).
  set (fsB := dict_set fsA (filt_prot_dict_file G) (JsonFile (json_of_prot_dict filt))).
  destruct (finish_from_3_writes float_repr G filt d1 d2 d3 d4) as (r & W & HW & Hrun).
  pose proof (@run_files_NoDup now args G EG) as Hnd.
  unfold output_files in Hnd.
  apply NoDup_cons_iff in Hnd. destruct Hnd as [Hprot Hnd].
  apply NoDup_cons_iff in Hnd. destruct Hnd as [Hfilt Hnd].
  assert (HwfB : dict_wf fsB) by (unfold fsB, fsA; now repeat apply dict_wf_set).
  assert (Hother : forall n, ~ In n [compare_file G; score_file G; membership_results G] ->
                     dict_get (apply_writes W fsB) n = dict_get fsB n).
  { intros n Hn. apply dict_get_apply_writes_other.
    intros w Hw E. apply Hn. rewrite <- E. now apply HW. }
  assert (Hinput : forall p, In p [p1; p2; p3; p4] ->
                     dict_get (apply_writes W fsB) p = dict_get fs0 p).
  { intros p Hp. specialize (Hnames p Hp). unfold output_files in Hnames.
    rewrite Hother by (intros Hin; apply Hnames; simpl in *; tauto).
    unfold fsB, fsA.
    rewrite !dict_get_set_other; [reflexivity| |];
      intros E; apply Hnames; simpl; tauto. }
  assert (Hckpt : dict_get (apply_writes W fsB) (filt_prot_dict_file G) =
                  Some (JsonFile (json_of_prot_dict filt))).
  { rewrite Hother by exact Hfilt. apply dict_get_set_same. }
  assert (Hround : prot_dict_of_json (json_of_prot_dict filt) = Some filt)
    by (apply prot_dict_roundtrip; apply filter_loops_wf).
  exists pd, filt, fsA, r, (apply_writes W fsB).
  split; [apply create_prot_dict_spec|]. split; [reflexivity|].
  split; [|split; [exact Hckpt|split; [exact Hround|]]].
  - rewrite (@main_run_all_from_3 SO float_repr now args G p1 p2 p3 p4 rest
               j1 j2 j3 j4 d1 d2 d3 d4 fs0); try assumption.
    apply Hrun.
  - rewrite (@main_checkpoint_3_eq SO float_repr now
               (resume_from 3 args (filt_prot_dict_file G) (input_files args)) G
               (filt_prot_dict_file G)
               p1 p2 p3 p4 rest (json_of_prot_dict filt) filt
               j1 j2 j3 j4 d1 d2 d3 d4 (apply_writes W fsB));
      try assumption; try reflexivity.
    + rewrite Hrun. f_equal. now apply apply_writes_idem.
    + rewrite Hinput; [exact G1|simpl; tauto].
    + rewrite Hinput; [exact G2|simpl; tauto].
    + rewrite Hinput; [exact G3|simpl; tauto].
    + rewrite Hinput; [exact G4|simpl; tauto].
Qed.

(** X12.  In a complete run on four cluster files the comparator returns;
    and on the store that the run leaves behind, the run resumed from
    checkpoint 4 with the file of the score lists and without cluster files
    ends with the same outcome and leaves every file as the complete
    run wrote it. *)
Theorem checkpoint_4_resume :
  forall (SO : SetOrder) (float_repr : Q -> string) (now : string)
         (args : Args) (G : Globals) (p1 p2 p3 p4 : string) (rest : list string)
         (j1 j2 j3 j4 : json) (d1 d2 d3 d4 : dict string (list string))
         (fs0 : files),
    run_all args = true -> checkpoint_num args = None ->
    given_str (test_identifier args) = true ->
    input_files args = Some (p1 :: p2 :: p3 :: p4 :: rest) ->
    set_globals now args = inr G ->
    dict_wf fs0 ->
    dict_get fs0 p1 = Some (JsonFile j1) -> clusters_of_json j1 = Some d1 ->
    dict_get fs0 p2 = Some (JsonFile j2) -> clusters_of_json j2 = Some d2 ->
    dict_get fs0 p3 = Some (JsonFile j3) -> clusters_of_json j3 = Some d3 ->
    dict_get fs0 p4 = Some (JsonFile j4) -> clusters_of_json j4 = Some d4 ->
    exists comparison_dict r fs1,
      main float_repr now args fs0 = (r, fs1) /\
      dict_get fs1 (compare_file G) =
        Some (JsonFile (json_of_comparison_dict comparison_dict)) /\
      comparison_dict_of_json (json_of_comparison_dict comparison_dict) =
        Some comparison_dict /\
      main float_repr now (resume_from 4 args (compare_file G) None) fs1 = (r, fs1).
Proof.
  intros SO float_repr now args G p1 p2 p3 p4 rest j1 j2 j3 j4 d1 d2 d3 d4 fs0
         Hall Hcp Hid Hfiles EG Hwf G1 C1 G2 C2 G3 C3 G4 C4.
  set (pd := index_of d1 d2 d3 d4).
  set (filt := filter_loops pd).
  set (fsA := dict_set fs0 (prot_dict_file G) (JsonFile (json_of_prot_dict pd))).
  set (fsB := dict_set fsA (filt_prot_dict_file G) (JsonFile (json_of_prot_dict filt))).
  destruct (@full_run_membership_test SO G d1 d2 d3 d4 fsB) as (cd & Hcd & Ecd).
  fold pd in Ecd. fold filt in Ecd.
  set (fsC := dict_set fsB (compare_file G) (JsonFile (json_of_comparison_dict cd))) in *.
  destruct (finish_from_4_writes float_repr G cd) as (r & W & HW & Hrun).
  pose proof (@run_files_NoDup now args G EG) as Hnd.
  unfold output_files in Hnd.
  apply NoDup_cons_iff in Hnd. destruct Hnd as [Hprot Hnd].
  apply NoDup_cons_iff in Hnd. destruct Hnd as [Hfilt Hnd].
  apply NoDup_cons_iff in Hnd. destruct Hnd as [Hcomp Hnd].
  assert (HwfC : dict_wf fsC) by (unfold fsC, fsB, fsA; now repeat apply dict_wf_set).
  assert (Hckpt : dict_get (apply_writes W fsC) (compare_file G) =
                  Some (JsonFile (json_of_comparison_dict cd))).
  { rewrite dict_get_apply_writes_other.
    - apply dict_get_set_same.
    - intros w Hw E. apply Hcomp. rewrite <- E. now apply HW. }
  assert (Hround : comparison_dict_of_json (json_of_comparison_dict cd) = Some cd)
    by (now apply comparison_dict_roundtrip).
  exists cd, r, (apply_writes W fsC).
  split; [|split; [exact Hckpt|split; [exact Hround|]]].
  - rewrite (@main_run_all_from_3 SO float_repr now args G p1 p2 p3 p4 rest
               j1 j2 j3 j4 d1 d2 d3 d4 fs0); try assumption.
    fold pd. fold filt. fold fsA. fold fsB.
    unfold finish_from_3. unfold io_bind at 1. rewrite Ecd.
    apply Hrun.
  - rewrite (@main_checkpoint_4_eq SO float_repr now _ G (compare_file G)
               (json_of_comparison_dict cd) cd (apply_writes W fsC));
      try assumption; try reflexivity.
    rewrite Hrun. f_equal. now apply apply_writes_idem.
Qed.

(** X13.  A complete run on four cluster files either stops in the
    aggregator with [StatisticsError], or writes the file of the means; in
    the second case the run resumed from checkpoint 5 with that file and
    without cluster files, on the store that the complete run leaves behind, ends with the same
    outcome and leaves every file as the complete run wrote it. *)
Theorem checkpoint_5_resume :
  forall (SO : SetOrder) (float_repr : Q -> string) (now : string)
         (args : Args) (G : Globals) (p1 p2 p3 p4 : string) (rest : list string)
         (j1 j2 j3 j4 : json) (d1 d2 d3 d4 : dict string (list string))
         (fs0 : files),
    run_all args = true -> checkpoint_num args = None ->
    given_str (test_identifier args) = true ->
    input_files args = Some (p1 :: p2 :: p3 :: p4 :: rest) ->
    set_globals now args = inr G ->
    dict_wf fs0 ->
    dict_get fs0 p1 = Some (JsonFile j1) -> clusters_of_json j1 = Some d1 ->
    dict_get fs0 p2 = Some (JsonFile j2) -> clusters_of_json j2 = Some d2 ->
    dict_get fs0 p3 = Some (JsonFile j3) -> clusters_of_json j3 = Some d3 ->
    dict_get fs0 p4 = Some (JsonFile j4) -> clusters_of_json j4 = Some d4 ->
    exists r fs1,
      main float_repr now args fs0 = (r, fs1) /\
      (r = inl StatisticsError \/
       exists og_score_dict,
         r = inr tt /\
         dict_get fs1 (score_file G) =
           Some (JsonFile (json_of_score_dict og_score_dict)) /\
         score_dict_of_json (json_of_score_dict og_score_dict) = Some og_score_dict /\
         main float_repr now (resume_from 5 args (score_file G) None) fs1 = (r, fs1)).
Proof.
  intros SO float_repr now args G p1 p2 p3 p4 rest j1 j2 j3 j4 d1 d2 d3 d4 fs0
         Hall Hcp Hid Hfiles EG Hwf G1 C1 G2 C2 G3 C3 G4 C4.
  set (pd := index_of d1 d2 d3 d4).
  set (filt := filter_loops pd).
  set (fsA := dict_set fs0 (prot_dict_file G) (JsonFile (json_of_prot_dict pd))).
  set (fsB := dict_set fsA (filt_prot_dict_file G) (JsonFile (json_of_prot_dict filt))).
  destruct (@full_run_membership_test SO G d1 d2 d3 d4 fsB) as (cd & Hcd & Ecd).
  fold pd in Ecd. fold filt in Ecd.
  set (fsC := dict_set fsB (compare_file G) (JsonFile (json_of_comparison_dict cd))) in *.
  pose proof (@run_files_NoDup now args G EG) as Hnd.
  unfold output_files in Hnd.
  apply NoDup_cons_iff in Hnd. destruct Hnd as [Hprot Hnd].
  apply NoDup_cons_iff in Hnd. destruct Hnd as [Hfilt Hnd].
  apply NoDup_cons_iff in Hnd. destruct Hnd as [Hcomp Hnd].
  apply NoDup_cons_iff in Hnd. destruct Hnd as [Hscore Hnd].
  assert (Emain : main float_repr now args fs0 =
                  finish_from_4 float_repr G cd fsC).
  { rewrite (@main_run_all_from_3 SO float_repr now args G p1 p2 p3 p4 rest
               j1 j2 j3 j4 d1 d2 d3 d4 fs0); try assumption.
    fold pd. fold filt. fold fsA. fold fsB.
    unfold finish_from_3. unfold io_bind at 1. now rewrite Ecd. }
  rewrite Emain. unfold finish_from_4, avg_membership_scores, io_bind, lift.
  destruct (avg_loop cd []) as [e|og] eqn:Eavg.
  - apply avg_loop_raises in Eavg. subst e.
    exists (inl StatisticsError), fsC. split; [reflexivity|now left].
  - unfold json_dump, io_ret, write_report, write_text.
    set (fsD := dict_set fsC (score_file G) (JsonFile (json_of_score_dict og))).
    set (text := TextFile (report_text float_repr G (threshold_test G og))).
    exists (inr tt), (dict_set fsD (membership_results G) text).
    split; [reflexivity|]. right. exists og.
    assert (Hog : dict_wf og) by (apply (@avg_loop_wf cd [] og Eavg); constructor).
    assert (Hround : score_dict_of_json (json_of_score_dict og) = Some og)
      by (now apply score_dict_roundtrip).
    assert (Hckpt : dict_get (dict_set fsD (membership_results G) text) (score_file G) =
                    Some (JsonFile (json_of_score_dict og))).
    { rewrite dict_get_set_other.
      - apply dict_get_set_same.
      - intros E. apply Hscore. rewrite <- E. simpl. tauto. }
    split; [reflexivity|]. split; [exact Hckpt|]. split; [exact Hround|].
    rewrite (@main_checkpoint_5_eq SO float_repr now _ G (score_file G)
               (json_of_score_dict og) og _);
      try assumption; try reflexivity.
    unfold write_report, write_text. fold text.
    rewrite dict_set_same_value by apply dict_get_set_same. reflexivity.
Qed.

Lemma checkpoint_3_resume_witness :
  (run_all example_args = true /\ checkpoint_num example_args = None /\
   given_str (test_identifier example_args) = true /\
   input_files example_args =
     Some ("prog1.json" :: "prog2.json" :: "prog3.json" :: "prog4.json" :: []) /\
   set_globals "now" example_args = inr example_globals /\
   dict_wf example_files /\
   (forall p, In p ["prog1.json"; "prog2.json"; "prog3.json"; "prog4.json"] ->
              ~ In p (prot_dict_file example_globals :: output_files example_globals))) /\
  exists prot_dict filt_prot_dict fs' r fs1,
    create_prot_dict example_globals (dataframe_of example_d1) (dataframe_of example_d)
      (dataframe_of example_d) (dataframe_of example_d) example_files =
      (inr prot_dict, fs') /\
    fst (filter_prot_dict example_globals prot_dict fs') = inr filt_prot_dict /\
    main example_float_repr "now" example_args example_files = (r, fs1) /\
    dict_get fs1 (filt_prot_dict_file example_globals) =
      Some (JsonFile (json_of_prot_dict filt_prot_dict)) /\
    prot_dict_of_json (json_of_prot_dict filt_prot_dict) = Some filt_prot_dict /\
    main example_float_repr "now"
      (resume_from 3 example_args (filt_prot_dict_file example_globals)
         (input_files example_args)) fs1 = (r, fs1).
Proof.
  assert (Hwf : dict_wf example_files).
  { unfold dict_wf. simpl.
    repeat (constructor; [simpl; intuition discriminate|]). constructor. }
  assert (Hnames : forall p,
             In p ["prog1.json"; "prog2.json"; "prog3.json"; "prog4.json"] ->
             ~ In p (prot_dict_file example_globals :: output_files example_globals)).
  { intros p [<-|[<-|[<-|[<-|[]]]]] Hin; vm_compute in Hin;
      intuition discriminate. }
  split.
  { split; [reflexivity|]. split; [reflexivity|]. split; [reflexivity|].
    split; [reflexivity|]. split; [reflexivity|]. split; [exact Hwf|exact Hnames]. }
  exact (@checkpoint_3_resume first_occurrence_order example_float_repr "now"
           example_args example_globals
           "prog1.json" "prog2.json" "prog3.json" "prog4.json" []
           (json_of_clusters example_d1) (json_of_clusters example_d)
           (json_of_clusters example_d) (json_of_clusters example_d)
           example_d1 example_d example_d example_d example_files
           eq_refl eq_refl eq_refl eq_refl eq_refl Hwf
           eq_refl eq_refl eq_refl eq_refl eq_refl eq_refl eq_refl eq_refl
           Hnames).
Defined.

Lemma checkpoint_4_resume_witness :
  (run_all example_args = true /\ checkpoint_num example_args = None /\
   given_str (test_identifier example_args) = true /\
   input_files example_args =
     Some ("prog1.json" :: "prog2.json" :: "prog3.json" :: "prog4.json" :: []) /\
   set_globals "now" example_args = inr example_globals /\
   dict_wf example_files) /\
  exists comparison_dict r fs1,
    main example_float_repr "now" example_args example_files = (r, fs1) /\
    dict_get fs1 (compare_file example_globals) =
      Some (JsonFile (json_of_comparison_dict comparison_dict)) /\
    comparison_dict_of_json (json_of_comparison_dict comparison_dict) =
      Some comparison_dict /\
    main example_float_repr "now"
      (resume_from 4 example_args (compare_file example_globals) None) fs1 = (r, fs1).
Proof.
  assert (Hwf : dict_wf example_files).
  { unfold dict_wf. simpl.
    repeat (constructor; [simpl; intuition discriminate|]). constructor. }
  split.
  { split; [reflexivity|]. split; [reflexivity|]. split; [reflexivity|].
    split; [reflexivity|]. split; [reflexivity|exact Hwf]. }
  exact (@checkpoint_4_resume first_occurrence_order example_float_repr "now"
           example_args example_globals
           "prog1.json" "prog2.json" "prog3.json" "prog4.json" []
           (json_of_clusters example_d1) (json_of_clusters example_d)
           (json_of_clusters example_d) (json_of_clusters example_d)
           example_d1 example_d example_d example_d example_files
           eq_refl eq_refl eq_refl eq_refl eq_refl Hwf
           eq_refl eq_refl eq_refl eq_refl eq_refl eq_refl eq_refl eq_refl).
Defined.

Lemma checkpoint_5_resume_witness :
  (run_all example_args = true /\ checkpoint_num example_args = None /\
   given_str (test_identifier example_args) = true /\
   input_files example_args =
     Some ("prog1.json" :: "prog2.json" :: "prog3.json" :: "prog4.json" :: []) /\
   set_globals "now" example_args = inr example_globals /\
   dict_wf example_files) /\
  exists r fs1,
    main example_float_repr "now" example_args example_files = (r, fs1) /\
    (r = inl StatisticsError \/
     exists og_score_dict,
       r = inr tt /\
       dict_get fs1 (score_file example_globals) =
         Some (JsonFile (json_of_score_dict og_score_dict)) /\
       score_dict_of_json (json_of_score_dict og_score_dict) = Some og_score_dict /\
       main example_float_repr "now"
         (resume_from 5 example_args (score_file example_globals) None) fs1 = (r, fs1)).
Proof.
  assert (Hwf : dict_wf example_files).
  { unfold dict_wf. simpl.
    repeat (constructor; [simpl; intuition discriminate|]). constructor. }
  split.
  { split; [reflexivity|]. split; [reflexivity|]. split; [reflexivity|].
    split; [reflexivity|]. split; [reflexivity|exact Hwf]. }
  exact (@checkpoint_5_resume first_occurrence_order example_float_repr "now"
           example_args example_globals
           "prog1.json" "prog2.json" "prog3.json" "prog4.json" []
           (json_of_clusters example_d1) (json_of_clusters example_d)
           (json_of_clusters example_d) (json_of_clusters example_d)
           example_d1 example_d example_d example_d example_files
           eq_refl eq_refl eq_refl eq_refl eq_refl Hwf
           eq_refl eq_refl eq_refl eq_refl eq_refl eq_refl eq_refl eq_refl).
Defined.

(** ** The complete run *)



(** ** Four identical cluster mappings *)

Lemma nodup_repeat (c : string) (n : nat) :
  nodup string_dec (repeat c (S n)) = [c].
Proof.
  induction n as [|n IH].
  - cbn [repeat nodup]. destruct (in_dec string_dec c []) as [[]|_]. reflexivity.
  - change (repeat c (S (S n))) with (c :: repeat c (S n)).
    cbn [nodup]. destruct (in_dec string_dec c (repeat c (S n))) as [_|Hn].
    + exact IH.
    + exfalso. apply Hn. simpl. tauto.
Qed.

Lemma py_set_len_same (c : string) : py_set_len [c; c; c; c] = 1.
Proof.
  unfold py_set_len. change [c; c; c; c] with (repeat c 4).
  now rewrite nodup_repeat.
Qed.

Lemma Qsum_ones (n : nat) :
  (Qsum (repeat 1%Q n) == inject_Z (Z.of_nat n))%Q.
Proof.
  induction n as [|n IH]; [reflexivity|].
  change (Qsum (repeat 1%Q (S n))) with (1 + Qsum (repeat 1%Q n))%Q.
  rewrite IH, Nat2Z.inj_succ. unfold Z.succ. rewrite inject_Z_plus. ring.
Qed.

Lemma mean_value_ones (n : nat) : n <> 0 -> mean_value (repeat 1%Q n) = 1%Q.
Proof.
  intros Hn. unfold mean_value. rewrite repeat_length.
  change 1%Q with (Qred 1) at 2. apply Qred_complete.
  rewrite Qsum_ones. field.
  intros E. unfold Qeq in E. simpl in E. lia.
Qed.

(** A dictionary is determined by its keys and the value of each key. *)
Lemma dict_of_keys {V} (f : string -> V) (d : dict string V) :
  dict_wf d ->
  (forall n, In n (dict_keys d) -> dict_get d n = Some (f n)) ->
  d = map (fun n => (n, f n)) (dict_keys d).
Proof.
  intros Hwf Hget. induction d as [|[k v] d IH]; [reflexivity|].
  simpl. assert (Hwf' : dict_wf d) by (now inversion Hwf).
  assert (Hk : ~ In k (dict_keys d)) by (now inversion Hwf).
  f_equal.
  - f_equal. specialize (Hget k (or_introl eq_refl)). simpl in Hget.
    unfold keqb in Hget. simpl in Hget. rewrite String.eqb_refl in Hget. congruence.
  - apply IH; [exact Hwf'|]. intros n Hn.
    specialize (Hget n (or_intror Hn)). simpl in Hget.
    unfold keqb in Hget. simpl in Hget.
    destruct (String.eqb_spec n k) as [E|_]; [subst; contradiction|exact Hget].
Qed.

Section IdenticalMappings.
Context {SO : SetOrder}.
Variable d : dict string (list string).
Hypothesis Hsentinel : ~ In sentinel (dict_keys d).

(** Every record of the index of four identical mappings holds the same
    cluster four times, and the cluster is one of the mapping. *)
Lemma index_identical key r :
  In (key, r) (index_of d d d d) ->
  exists c members,
    r = mk_slots c c c c /\ assigned c = true /\ dict_get d c = Some members.
Proof.
  intros Hin. unfold index_of in Hin. apply in_map_iff in Hin.
  destruct Hin as (p & E & Hp). injection E as <- <-.
  apply (proj1 (set_iter_In _ _)) in Hp. rewrite !in_app_iff in Hp.
  assert (Hp' : In p (proteins_of d)) by tauto.
  set (c := slot_of d p).
  assert (Hc : c <> sentinel).
  { intros E. apply (proj1 (@slot_of_sentinel d p Hsentinel)) in E. contradiction. }
  assert (Hkey : In c (dict_keys d)).
  { pose proof (@slot_of_present d p Hp') as Hf. apply first_cluster_of_In in Hf.
    destruct Hf as [m [Hm _]]. apply (in_map fst) in Hm. exact Hm. }
  destruct (dict_get d c) as [members|] eqn:Eg.
  - exists c, members. split; [reflexivity|]. split; [|exact Eg].
    now apply assigned_true_iff.
  - apply dict_get_None in Eg. contradiction.
Qed.

Lemma filter_loops_identical : filter_loops (index_of d d d d) = index_of d d d d.
Proof.
  rewrite filter_loops_spec by apply index_of_wf.
  apply filter_all. intros [key r] Hin.
  destruct (@index_identical key r Hin) as (c & m & -> & _ & _).
  unfold two_distinct. cbn [snd].
  change (slots_list (mk_slots c c c c)) with [c; c; c; c].
  now rewrite py_set_len_same.
Qed.

Lemma score_list_identical (first second : slots -> string) :
  (forall c, first (mk_slots c c c c) = c) ->
  (forall c, second (mk_slots c c c c) = c) ->
  score_list (index_of d d d d) first d second d =
  repeat 1%Q (length (index_of d d d d)).
Proof.
  intros Hf Hs. unfold score_list.
  assert (Hall : forall e, In e (index_of d d d d) ->
            exists c members, snd e = mk_slots c c c c /\ assigned c = true /\
                              dict_get d c = Some members).
  { intros [key r] Hin. now apply (@index_identical key r). }
  induction (index_of d d d d) as [|e l IH]; [reflexivity|].
  simpl. destruct (Hall e (or_introl eq_refl)) as (c & m & -> & Ha & Eg).
  rewrite Hf, Hs, Ha, Eg. simpl. rewrite ratio_self. f_equal.
  apply IH. intros e' He'. apply Hall. now right.
Qed.
End IdenticalMappings.

(** X15.  A complete run on four files that hold the same cluster mapping,
    with at least one protein and no cluster named ["-"], with pairwise
    different comparison names and a threshold of at most 100 percent,
    succeeds: every pair gets the mean 1, and all six pairs are reported. *)
Theorem main_identical_mappings :
  forall (SO : SetOrder) (float_repr : Q -> string) (now : string)
         (args : Args) (G : Globals) (p1 p2 p3 p4 : string) (rest : list string)
         (j1 j2 j3 j4 : json) (d : dict string (list string)) (fs0 : files),
    run_all args = true -> checkpoint_num args = None ->
    input_files args = Some (p1 :: p2 :: p3 :: p4 :: rest) ->
    set_globals now args = inr G ->
    dict_get fs0 p1 = Some (JsonFile j1) -> clusters_of_json j1 = Some d ->
    dict_get fs0 p2 = Some (JsonFile j2) -> clusters_of_json j2 = Some d ->
    dict_get fs0 p3 = Some (JsonFile j3) -> clusters_of_json j3 = Some d ->
    dict_get fs0 p4 = Some (JsonFile j4) -> clusters_of_json j4 = Some d ->
    ~ In sentinel (dict_keys d) ->
    proteins_of d <> [] ->
    NoDup (comparison_names G) ->
    (percent G <= 100)%Z ->
    let og_score_dict := map (fun name => (name, 1%Q)) (comparison_names G) in
    exists fs1,
      main float_repr now args fs0 = (inr tt, fs1) /\
      dict_get fs1 (score_file G) = Some (JsonFile (json_of_score_dict og_score_dict)) /\
      dict_get fs1 (membership_results G) =
        Some (TextFile (report_text float_repr G og_score_dict)).
Proof.
  intros SO float_repr now args G p1 p2 p3 p4 rest j1 j2 j3 j4 d fs0
         Hall Hcp Hfiles EG G1 C1 G2 C2 G3 C3 G4 C4 Hsent Hprot Hnd Hpct og.
  set (pd := index_of d d d d).
  set (fsA := dict_set fs0 (prot_dict_file G) (JsonFile (json_of_prot_dict pd))).
  set (fsB := dict_set fsA (filt_prot_dict_file G) (JsonFile (json_of_prot_dict pd))).
  assert (Hlen : length pd <> 0).
  { unfold pd, index_of. rewrite length_map.
    destruct (proteins_of d) as [|x l] eqn:E; [contradiction|].
    assert (Hx : In x (set_iter ((x :: l) ++ (x :: l) ++ (x :: l) ++ x :: l)))
      by (apply set_iter_In; simpl; tauto).
    destruct (set_iter _); [destruct Hx|simpl; lia]. }
  destruct (@full_run_membership_test SO G d d d d fsB) as (cd & Hcd & Ecd).
  rewrite (@filter_loops_identical SO d Hsent) in Ecd. fold pd in Ecd.
  assert (El : membership_loop G d d d d pd (empty_comparison_dict G) = inr cd).
  { unfold membership_test, io_bind, lift in Ecd.
    destruct (membership_loop G d d d d pd (empty_comparison_dict G));
      [discriminate|].
    unfold json_dump, io_ret in Ecd. now injection Ecd as <- _. }
  destruct (@membership_loop_score_lists G pd d d d d cd Hnd El)
    as (Hkeys & L1 & L2 & L3 & L4 & L5 & L6).
  unfold pd in L1, L2, L3, L4, L5, L6.
  rewrite (@score_list_identical SO d Hsent) in L1, L2, L3, L4, L5, L6 by reflexivity.
  fold pd in L1, L2, L3, L4, L5, L6.
  assert (Ecd' : cd = map (fun name => (name, repeat 1%Q (length pd))) (comparison_names G)).
  { rewrite <- Hkeys. apply dict_of_keys; [exact Hcd|].
    rewrite Hkeys. unfold comparison_names. simpl.
    intros n [<-|[<-|[<-|[<-|[<-|[<-|[]]]]]]]; assumption. }
  assert (Hfull : forall key, ~ In (key, []) cd).
  { intros key Hin. rewrite Ecd' in Hin. apply in_map_iff in Hin.
    destruct Hin as (n & E & _). injection E as _ E.
    destruct (length pd); [contradiction|discriminate]. }
  assert (Esum : summary_of cd = og).
  { rewrite Ecd'. unfold summary_of, og. rewrite map_map. apply map_ext.
    intros n. simpl. now rewrite mean_value_ones. }
  assert (Ethr : threshold_test G og = og).
  { assert (Hwf : dict_wf og).
    { unfold dict_wf, og, dict_keys. now rewrite map_map, map_id. }
    rewrite (threshold_test_filter G Hwf). apply filter_all.
    intros [n v] Hin. unfold og in Hin. apply in_map_iff in Hin.
    destruct Hin as (n' & E & _). injection E as _ <-. simpl.
    apply membership_decimal_le. unfold Qle. simpl. lia. }
  pose proof (@run_files_NoDup now args G EG) as Hfilesnd.
  unfold output_files in Hfilesnd.
  apply NoDup_cons_iff in Hfilesnd. destruct Hfilesnd as [_ Hfilesnd].
  apply NoDup_cons_iff in Hfilesnd. destruct Hfilesnd as [_ Hfilesnd].
  apply NoDup_cons_iff in Hfilesnd. destruct Hfilesnd as [_ Hfilesnd].
  apply NoDup_cons_iff in Hfilesnd. destruct Hfilesnd as [Hscore _].
  rewrite (@main_run_all_from_3 SO float_repr now args G p1 p2 p3 p4 rest
             j1 j2 j3 j4 d d d d fs0); try assumption.
  rewrite (@filter_loops_identical SO d Hsent). fold pd. fold fsA. fold fsB.
  unfold finish_from_3. unfold io_bind at 1. rewrite Ecd.
  unfold io_bind. rewrite (@avg_membership_scores_ok G cd _ Hcd Hfull).
  rewrite Esum, Ethr. unfold write_report, write_text.
  eexists. split; [reflexivity|]. split.
  - rewrite dict_get_set_other; [apply dict_get_set_same|].
    intros E. apply Hscore. rewrite <- E. simpl. tauto.
  - apply dict_get_set_same.
Qed.

Definition example_files_same : files :=
  [("prog1.json", JsonFile (json_of_clusters example_d));
   ("prog2.json", JsonFile (json_of_clusters example_d));
   ("prog3.json", JsonFile (json_of_clusters example_d));
   ("prog4.json", JsonFile (json_of_clusters example_d))].

Lemma main_identical_mappings_witness :
  (run_all example_args = true /\ checkpoint_num example_args = None /\
   input_files example_args =
     Some ("prog1.json" :: "prog2.json" :: "prog3.json" :: "prog4.json" :: []) /\
   set_globals "now" example_args = inr example_globals /\
   ~ In sentinel (dict_keys example_d) /\
   proteins_of example_d <> [] /\
   NoDup (comparison_names example_globals) /\
   (percent example_globals <= 100)%Z) /\
  exists fs1,
    main example_float_repr "now" example_args example_files_same = (inr tt, fs1) /\
    dict_get fs1 (score_file example_globals) =
      Some (JsonFile (json_of_score_dict
                        (map (fun name => (name, 1%Q))
                             (comparison_names example_globals)))) /\
    dict_get fs1 (membership_results example_globals) =
      Some (TextFile (report_text example_float_repr example_globals
                        (map (fun name => (name, 1%Q))
                             (comparison_names example_globals)))).
Proof.
  assert (Hsent : ~ In sentinel (dict_keys example_d))
    by (simpl; intuition discriminate).
  assert (Hprot : proteins_of example_d <> []) by discriminate.
  assert (Hnd : NoDup (comparison_names example_globals)).
  { unfold comparison_names.
    repeat (constructor; [vm_compute; intuition discriminate|]). constructor. }
  assert (Hpct : (percent example_globals <= 100)%Z) by (simpl; lia).
  split.
  { split; [reflexivity|]. split; [reflexivity|]. split; [reflexivity|].
    split; [reflexivity|]. split; [exact Hsent|]. split; [exact Hprot|].
    split; [exact Hnd|exact Hpct]. }
  exact (@main_identical_mappings first_occurrence_order example_float_repr "now"
           example_args example_globals
           "prog1.json" "prog2.json" "prog3.json" "prog4.json" []
           (json_of_clusters example_d) (json_of_clusters example_d)
           (json_of_clusters example_d) (json_of_clusters example_d)
           example_d example_files_same
           eq_refl eq_refl eq_refl eq_refl
           eq_refl eq_refl eq_refl eq_refl eq_refl eq_refl eq_refl eq_refl
           Hsent Hprot Hnd Hpct).
Defined.

(** ** The comma-separated arguments *)

(** [c in s] for a character *)
Fixpoint has_char (c : ascii) (s : string) : bool :=
  match s with
  | EmptyString => false
  | String c' s' => Ascii.eqb c' c || has_char c s'
  end.

Lemma split_on_nonempty sep s : split_on sep s <> [].
Proof.
  destruct s as [|c s]; simpl; [discriminate|].
  destruct (Ascii.eqb c sep); [discriminate|].
  destruct (split_on sep s); discriminate.
Qed.

Lemma concat_cons sep (p : string) (ps : list string) :
  ps <> [] ->
  String.concat sep (p :: ps) = (p ++ sep ++ String.concat sep ps)%string.
Proof. destruct ps; [contradiction|reflexivity]. Qed.

Lemma split_on_join sep s :
  String.concat (String sep EmptyString) (split_on sep s) = s.
Proof.
  induction s as [|c s IH]; [reflexivity|].
  pose proof (split_on_nonempty sep s) as Hn.
  cbn [split_on]. destruct (Ascii.eqb_spec c sep) as [->|Hne].
  - rewrite concat_cons by exact Hn. rewrite IH. reflexivity.
  - destruct (split_on sep s) as [|p ps]; [contradiction|].
    destruct ps as [|q qs].
    + simpl in IH |- *. now rewrite IH.
    + rewrite concat_cons by discriminate.
      rewrite concat_cons in IH by discriminate.
      simpl in IH |- *. now rewrite IH.
Qed.

Lemma split_on_pieces sep s :
  Forall (fun piece => has_char sep piece = false) (split_on sep s).
Proof.
  induction s as [|c s IH]; simpl; [repeat constructor|].
  destruct (Ascii.eqb c sep) eqn:E.
  - constructor; [reflexivity|exact IH].
  - destruct (split_on sep s) as [|p ps]; [repeat constructor; simpl; now rewrite E|].
    inversion IH; subst. constructor; [simpl; now rewrite E|assumption].
Qed.

Lemma split_on_piece sep piece :
  has_char sep piece = false -> split_on sep piece = [piece].
Proof.
  induction piece as [|c s IH]; simpl; [reflexivity|].
  intros H. apply orb_false_iff in H. destruct H as [Hc Hs].
  rewrite Hc, (IH Hs). reflexivity.
Qed.

Lemma split_on_app sep piece rest :
  has_char sep piece = false ->
  split_on sep (piece ++ String sep rest) = piece :: split_on sep rest.
Proof.
  induction piece as [|c s IH]; simpl.
  - intros _. now rewrite Ascii.eqb_refl.
  - intros H. apply orb_false_iff in H. destruct H as [Hc Hs].
    rewrite Hc, (IH Hs). reflexivity.
Qed.

(** X16.  [list_of_strings] and the join with commas are inverse to each
    other: joining the names of [list_of_strings(arg)] with commas gives
    [arg] back, no name contains a comma, and splitting the join of a
    non-empty list of names without commas gives the list back.  The result
    is never the empty list, so an argument [-d] or [-n] that is present,
    even as the empty string, counts as given in the argument checks. *)
Theorem list_of_strings_join :
  (forall arg : string,
     String.concat "," (list_of_strings arg) = arg /\
     Forall (fun name => has_char "," name = false) (list_of_strings arg) /\
     given_list (Some (list_of_strings arg)) = true) /\
  (forall names : list string,
     names <> [] ->
     Forall (fun name => has_char "," name = false) names ->
     list_of_strings (String.concat "," names) = names).
Proof.
  split.
  - intros arg. unfold list_of_strings.
    split; [apply split_on_join|]. split; [apply split_on_pieces|].
    pose proof (split_on_nonempty ","%char arg) as Hn.
    destruct (split_on ","%char arg); [contradiction|reflexivity].
  - intros names Hne Hall. unfold list_of_strings.
    induction names as [|n names IH]; [contradiction|].
    inversion Hall as [|? ? Hn Hrest]; subst.
    destruct names as [|m names].
    + simpl. now apply split_on_piece.
    + change (String.concat "," (n :: m :: names))
        with (n ++ String "," (String.concat "," (m :: names)))%string.
      rewrite split_on_app by exact Hn. f_equal.
      apply IH; [discriminate|exact Hrest].
Qed.

(** The argument [-d] of the examples, and an empty argument *)
Example list_of_strings_examples :
  list_of_strings "prog1.json,prog2.json,prog3.json,prog4.json" =
    ["prog1.json"; "prog2.json"; "prog3.json"; "prog4.json"] /\
  list_of_strings "" = [""] /\
  list_of_strings "a,,b," = ["a"; ""; "b"; ""].
Proof. repeat split. Qed.

(** ** When a complete run succeeds *)

(** A score list is empty exactly when no record has both slots assigned,
    provided the clusters of the records are clusters of the mappings. *)
Lemma score_list_nil (items : dict string slots)
    (first : slots -> string) (first_dict : dict string (list string))
    (second : slots -> string) (second_dict : dict string (list string)) :
  (forall key r, In (key, r) items -> assigned (first r) = true ->
                 In (first r) (dict_keys first_dict)) ->
  (forall key r, In (key, r) items -> assigned (second r) = true ->
                 In (second r) (dict_keys second_dict)) ->
  (score_list items first first_dict second second_dict = [] <->
   forall key r, In (key, r) items ->
                 assigned (first r) && assigned (second r) = false).
Proof.
  intros H1 H2. unfold score_list. induction items as [|[key r] items IH].
  - simpl. split; [intros _ key r []|reflexivity].
  - cbn [flat_map snd].
    assert (IH' := IH (fun k x Hin => H1 k x (or_intror Hin))
                      (fun k x Hin => H2 k x (or_intror Hin))).
    destruct (assigned (first r) && assigned (second r)) eqn:Ea.
    + apply andb_true_iff in Ea. destruct Ea as [Ea1 Ea2].
      pose proof (H1 key r (or_introl eq_refl) Ea1) as K1.
      pose proof (H2 key r (or_introl eq_refl) Ea2) as K2.
      destruct (dict_get first_dict (first r)) eqn:E1;
        [|apply dict_get_None in E1; contradiction].
      destruct (dict_get second_dict (second r)) eqn:E2;
        [|apply dict_get_None in E2; contradiction].
      split; [discriminate|].
      intros Hall. specialize (Hall key r (or_introl eq_refl)).
      rewrite Ea1, Ea2 in Hall. discriminate.
    + simpl. rewrite IH'. split.
      * intros Hall k x [E|Hin]; [injection E as <- <-; exact Ea|now apply (Hall k)].
      * intros Hall k x Hin. apply (Hall k). now right.
Qed.

Lemma classic_pair (items : dict string slots) (i j : nat) :
  (exists key r, In (key, r) items /\
                 slot_at i r <> sentinel /\ slot_at j r <> sentinel) \/
  ~ (exists key r, In (key, r) items /\
                   slot_at i r <> sentinel /\ slot_at j r <> sentinel).
Proof.
  induction items as [|[key r] items IH].
  - right. intros (k & x & [] & _).
  - destruct (assigned (slot_at i r)) eqn:Ei, (assigned (slot_at j r)) eqn:Ej;
      try (destruct IH as [(k & x & Hin & Hx)|Hno];
           [left; exists k, x; split; [now right|exact Hx]|
            right; intros (k & x & [E|Hin] & Hsi & Hsj);
            [injection E as <- <-;
             apply assigned_true_iff in Hsi; apply assigned_true_iff in Hsj;
             congruence|
             apply Hno; exists k, x; tauto]]).
    left. exists key, r. split; [now left|]. split; now apply assigned_true_iff.
Qed.

(** X17.  A complete run on four cluster files, with pairwise different
    comparison names, ends in one of two ways: it succeeds, or it stops in
    the aggregator with [StatisticsError].  It succeeds exactly when, for
    every two programs, some record of the filtered index has a cluster of
    both. *)
Theorem main_run_all_succeeds_iff :
  forall (SO : SetOrder) (float_repr : Q -> string) (now : string)
         (args : Args) (G : Globals) (p1 p2 p3 p4 : string) (rest : list string)
         (j1 j2 j3 j4 : json) (d1 d2 d3 d4 : dict string (list string))
         (fs0 : files),
    run_all args = true -> checkpoint_num args = None ->
    input_files args = Some (p1 :: p2 :: p3 :: p4 :: rest) ->
    set_globals now args = inr G ->
    dict_get fs0 p1 = Some (JsonFile j1) -> clusters_of_json j1 = Some d1 ->
    dict_get fs0 p2 = Some (JsonFile j2) -> clusters_of_json j2 = Some d2 ->
    dict_get fs0 p3 = Some (JsonFile j3) -> clusters_of_json j3 = Some d3 ->
    dict_get fs0 p4 = Some (JsonFile j4) -> clusters_of_json j4 = Some d4 ->
    NoDup (comparison_names G) ->
    exists prot_dict filt_prot_dict,
      fst (create_prot_dict G (dataframe_of d1) (dataframe_of d2)
             (dataframe_of d3) (dataframe_of d4) fs0) = inr prot_dict /\
      fst (filter_prot_dict G prot_dict fs0) = inr filt_prot_dict /\
      (fst (main float_repr now args fs0) = inr tt \/
       fst (main float_repr now args fs0) = inl StatisticsError) /\
      (fst (main float_repr now args fs0) = inr tt <->
       forall i j, i < j -> j < 4 ->
         exists key r, In (key, r) filt_prot_dict /\
                       slot_at i r <> sentinel /\ slot_at j r <> sentinel).
Proof.
  intros SO float_repr now args G p1 p2 p3 p4 rest j1 j2 j3 j4 d1 d2 d3 d4 fs0
         Hall Hcp Hfiles EG G1 C1 G2 C2 G3 C3 G4 C4 Hnd.
  set (pd := index_of d1 d2 d3 d4).
  set (filt := filter_loops pd).
  set (fsA := dict_set fs0 (prot_dict_file G) (JsonFile (json_of_prot_dict pd))).
  set (fsB := dict_set fsA (filt_prot_dict_file G) (JsonFile (json_of_prot_dict filt))).
  destruct (@full_run_membership_test SO G d1 d2 d3 d4 fsB) as (cd & Hcd & Ecd).
  fold pd in Ecd. fold filt in Ecd.
  assert (El : membership_loop G d1 d2 d3 d4 filt (empty_comparison_dict G) = inr cd).
  { unfold membership_test, io_bind, lift in Ecd.
    destruct (membership_loop G d1 d2 d3 d4 filt (empty_comparison_dict G));
      [discriminate|].
    unfold json_dump, io_ret in Ecd. now injection Ecd as <- _. }
  destruct (@membership_loop_score_lists G filt d1 d2 d3 d4 cd Hnd El)
    as (Hkeys & L1 & L2 & L3 & L4 & L5 & L6).
  assert (Emain : main float_repr now args fs0 =
                  finish_from_4 float_repr G cd
                    (dict_set fsB (compare_file G) (JsonFile (json_of_comparison_dict cd)))).
  { rewrite (@main_run_all_from_3 SO float_repr now args G p1 p2 p3 p4 rest
               j1 j2 j3 j4 d1 d2 d3 d4 fs0); try assumption.
    fold pd. fold filt. fold fsA. fold fsB.
    unfold finish_from_3. unfold io_bind at 1. now rewrite Ecd. }
  (* the clusters of the filtered records are clusters of the mappings *)
  assert (Hres : forall i key r, i < 4 -> In (key, r) filt ->
            assigned (slot_at i r) = true ->
            In (slot_at i r) (dict_keys (nth i [d1; d2; d3; d4] []))).
  { intros i key r Hi Hin Ha.
    apply (proj1 (filter_loops_In key r (index_of_wf d1 d2 d3 d4))) in Hin.
    apply (@index_of_resolves SO d1 d2 d3 d4 key r i); try tauto.
    now apply assigned_true_iff. }
  assert (Hnil : forall i j (di dj : dict string (list string)),
            i < 4 -> j < 4 ->
            di = nth i [d1; d2; d3; d4] [] -> dj = nth j [d1; d2; d3; d4] [] ->
            (score_list filt (slot_at i) di (slot_at j) dj = [] <->
             ~ exists key r, In (key, r) filt /\
                             slot_at i r <> sentinel /\ slot_at j r <> sentinel)).
  { intros i j di dj Hi Hj -> ->.
    rewrite score_list_nil.
    - split.
      + intros Hno (key & r & Hin & Hsi & Hsj).
        specialize (Hno key r Hin).
        apply assigned_true_iff in Hsi. apply assigned_true_iff in Hsj.
        rewrite Hsi, Hsj in Hno. discriminate.
      + intros Hno key r Hin.
        destruct (assigned (slot_at i r)) eqn:Ei, (assigned (slot_at j r)) eqn:Ej;
          try reflexivity.
        exfalso. apply Hno. exists key, r.
        split; [exact Hin|]. split; now apply assigned_true_iff.
    - intros key r. now apply Hres.
    - intros key r. now apply Hres. }
  (* the six lists, by the indices of their two slots *)
  assert (Hlists : forall n l, In (n, l) cd ->
            exists i j, i < j /\ j < 4 /\
              (l = [] <-> ~ exists key r, In (key, r) filt /\
                            slot_at i r <> sentinel /\ slot_at j r <> sentinel)).
  { intros n l Hin.
    assert (Hn : In n (comparison_names G)).
    { rewrite <- Hkeys. apply (in_map fst) in Hin. exact Hin. }
    pose proof (@dict_get_In _ _ _ cd n l Hcd Hin) as Eg.
    unfold comparison_names in Hn. simpl in Hn.
    destruct Hn as [<-|[<-|[<-|[<-|[<-|[<-|[]]]]]]].
    - exists 0, 1. split; [lia|]. split; [lia|].
      rewrite L1 in Eg. injection Eg as <-.
      apply (Hnil 0 1 d1 d2); try lia; reflexivity.
    - exists 0, 2. split; [lia|]. split; [lia|].
      rewrite L2 in Eg. injection Eg as <-.
      apply (Hnil 0 2 d1 d3); try lia; reflexivity.
    - exists 0, 3. split; [lia|]. split; [lia|].
      rewrite L3 in Eg. injection Eg as <-.
      apply (Hnil 0 3 d1 d4); try lia; reflexivity.
    - exists 1, 2. split; [lia|]. split; [lia|].
      rewrite L4 in Eg. injection Eg as <-.
      rewrite (Hnil 2 1 d3 d2); try lia; try reflexivity.
      split; intros Hno (key & r & Hin' & Ha & Hb); apply Hno; exists key, r; tauto.
    - exists 1, 3. split; [lia|]. split; [lia|].
      rewrite L5 in Eg. injection Eg as <-.
      rewrite (Hnil 3 1 d4 d2); try lia; try reflexivity.
      split; intros Hno (key & r & Hin' & Ha & Hb); apply Hno; exists key, r; tauto.
    - exists 2, 3. split; [lia|]. split; [lia|].
      rewrite L6 in Eg. injection Eg as <-.
      apply (Hnil 2 3 d3 d4); try lia; reflexivity. }
  assert (Hpairs : forall i j, i < j -> j < 4 ->
            exists n l, In (n, l) cd /\
              (l = [] <-> ~ exists key r, In (key, r) filt /\
                            slot_at i r <> sentinel /\ slot_at j r <> sentinel)).
  { intros i j Hij Hj.
    assert (Hcases : (i = 0 /\ j = 1) \/ (i = 0 /\ j = 2) \/ (i = 0 /\ j = 3) \/
                     (i = 1 /\ j = 2) \/ (i = 1 /\ j = 3) \/ (i = 2 /\ j = 3)) by lia.
    destruct Hcases as [[-> ->]|[[-> ->]|[[-> ->]|[[-> ->]|[[-> ->]|[-> ->]]]]]].
    - eexists; eexists. split; [apply (dict_get_Some_In _ _ L1)|].
      apply (Hnil 0 1 d1 d2); try lia; reflexivity.
    - eexists; eexists. split; [apply (dict_get_Some_In _ _ L2)|].
      apply (Hnil 0 2 d1 d3); try lia; reflexivity.
    - eexists; eexists. split; [apply (dict_get_Some_In _ _ L3)|].
      apply (Hnil 0 3 d1 d4); try lia; reflexivity.
    - eexists; eexists. split; [apply (dict_get_Some_In _ _ L4)|].
      rewrite (Hnil 2 1 d3 d2); try lia; try reflexivity.
      split; intros Hno (key & r & Hin' & Ha & Hb); apply Hno; exists key, r; tauto.
    - eexists; eexists. split; [apply (dict_get_Some_In _ _ L5)|].
      rewrite (Hnil 3 1 d4 d2); try lia; try reflexivity.
      split; intros Hno (key & r & Hin' & Ha & Hb); apply Hno; exists key, r; tauto.
    - eexists; eexists. split; [apply (dict_get_Some_In _ _ L6)|].
      apply (Hnil 2 3 d3 d4); try lia; reflexivity. }
  exists pd, filt.
  split; [now rewrite create_prot_dict_spec|]. split; [reflexivity|].
  rewrite Emain. unfold finish_from_4.
  destruct (empty_list_dec cd) as [Hempty|Hfull].
  - unfold io_bind. rewrite (@avg_membership_scores_err G cd _ Hempty). simpl.
    split; [now right|]. split; [discriminate|].
    intros Hall'. exfalso. destruct Hempty as [key Hk].
    destruct (Hlists key [] Hk) as (i & j & Hij & Hj & Hiff).
    apply (proj1 Hiff eq_refl). now apply Hall'.
  - unfold io_bind. rewrite (@avg_membership_scores_ok G cd _ Hcd Hfull).
    unfold write_report, write_text. simpl.
    split; [now left|]. split; [|reflexivity].
    intros _ i j Hij Hj.
    destruct (Hpairs i j Hij Hj) as (n & l & Hin & Hiff).
    destruct l as [|x l]; [exfalso; now apply (Hfull n)|].
    destruct (classic_pair filt i j) as [Hex|Hno]; [exact Hex|].
    exfalso. apply (proj2 Hiff) in Hno. discriminate.
Qed.

Lemma main_run_all_succeeds_iff_witness :
  (run_all example_args = true /\ checkpoint_num example_args = None /\
   input_files example_args =
     Some ("prog1.json" :: "prog2.json" :: "prog3.json" :: "prog4.json" :: []) /\
   set_globals "now" example_args = inr example_globals /\
   NoDup (comparison_names example_globals)) /\
  exists prot_dict filt_prot_dict,
    fst (create_prot_dict example_globals (dataframe_of example_d1)
           (dataframe_of example_d) (dataframe_of example_d) (dataframe_of example_d)
           example_files) = inr prot_dict /\
    fst (filter_prot_dict example_globals prot_dict example_files) = inr filt_prot_dict /\
    (fst (main example_float_repr "now" example_args example_files) = inr tt \/
     fst (main example_float_repr "now" example_args example_files) =
       inl StatisticsError) /\
    (fst (main example_float_repr "now" example_args example_files) = inr tt <->
     forall i j, i < j -> j < 4 ->
       exists key r, In (key, r) filt_prot_dict /\
                     slot_at i r <> sentinel /\ slot_at j r <> sentinel).
Proof.
  assert (Hnd : NoDup (comparison_names example_globals)).
  { unfold comparison_names.
    repeat (constructor; [vm_compute; intuition discriminate|]). constructor. }
  split.
  { split; [reflexivity|]. split; [reflexivity|]. split; [reflexivity|].
    split; [reflexivity|exact Hnd]. }
  exact (@main_run_all_succeeds_iff first_occurrence_order example_float_repr "now"
           example_args example_globals
           "prog1.json" "prog2.json" "prog3.json" "prog4.json" []
           (json_of_clusters example_d1) (json_of_clusters example_d)
           (json_of_clusters example_d) (json_of_clusters example_d)
           example_d1 example_d example_d example_d example_files
           eq_refl eq_refl eq_refl eq_refl
           eq_refl eq_refl eq_refl eq_refl eq_refl eq_refl eq_refl eq_refl Hnd).
Defined.

(** ** More on the score and on the cluster files *)

(** X18.  The score of two member lists is at most twice the length of
    the shorter list divided by the summed length of both: the score times
    the summed length is at most twice the shorter length. *)
Theorem ratio_length_bound :
  forall a b : list string,
    (ratio a b * inject_Z (Z.of_nat (length a + length b)) <=
     inject_Z (Z.of_nat (2 * Nat.min (length a) (length b))))%Q.
Proof.
  intros a b. unfold ratio.
  destruct (matches_le "" a b) as [La Lb].
  set (m := matches "" a b) in *.
  destruct (Nat.eq_dec (length a + length b) 0) as [Z|NZ].
  - rewrite Z. unfold calculate_ratio. simpl.
    assert (length a = 0) by lia. assert (length b = 0) by lia.
    replace (Nat.min (length a) (length b)) with 0 by lia.
    unfold Qle. simpl. lia.
  - rewrite (calculate_ratio_Qeq m NZ).
    assert (Hpos : ~ (inject_Z (Z.of_nat (length a + length b)) == 0)%Q).
    { unfold Qeq. simpl. lia. }
    unfold Qdiv. rewrite <- Qmult_assoc.
    rewrite (Qmult_comm (/ _)), Qmult_inv_r by exact Hpos.
    rewrite Qmult_1_r. rewrite <- Zle_Qle. lia.
Qed.

Lemma strings_of_items_map (l : list string) :
  strings_of_items (map JString l) = Some l.
Proof. induction l as [|s l IH]; simpl; [reflexivity|now rewrite IH]. Qed.

Lemma number_free_strings (l : list string) :
  forallb number_free (map JString l) = true.
Proof. induction l as [|s l IH]; simpl; [reflexivity|exact IH]. Qed.

Lemma number_free_clusters (d : dict string (list string)) :
  number_free (json_of_clusters d) = true.
Proof.
  unfold json_of_clusters, json_of_dict. simpl.
  induction d as [|[k l] d IH]; simpl; [reflexivity|].
  now rewrite number_free_strings.
Qed.

(** X19.  A cluster mapping written by [json.dump] is read back by
    [json.load] as the same mapping: the text of the JSON object whose
    members are the clusters, each with the array of its members, parses to
    that object, and the object gives the dictionary back, with its clusters
    in the same order and the members of each cluster in the same order. *)
Theorem clusters_text_roundtrip :
  forall (float_repr : Q -> string) (float_of_string : string -> Q)
         (prog_dict : dict string (list string)),
    dict_wf prog_dict ->
    json_loads float_of_string (json_dumps float_repr (json_of_clusters prog_dict)) =
      Some (json_of_clusters prog_dict) /\
    clusters_of_json (json_of_clusters prog_dict) = Some prog_dict.
Proof.
  intros float_repr float_of_string d Hwf. split.
  - apply json_loads_dumps. apply number_free_clusters.
  - unfold clusters_of_json, json_of_clusters.
    apply dict_of_json_of_dict; [|exact Hwf].
    intros l. simpl. apply strings_of_items_map.
Qed.

Lemma clusters_text_roundtrip_witness :
  dict_wf example_d1 /\
  json_loads example_float_of_string
    (json_dumps example_float_repr (json_of_clusters example_d1)) =
    Some (json_of_clusters example_d1) /\
  clusters_of_json (json_of_clusters example_d1) = Some example_d1.
Proof.
  assert (Hwf : dict_wf example_d1).
  { unfold dict_wf. simpl.
    repeat (constructor; [simpl; intuition discriminate|]). constructor. }
  split; [exact Hwf|].
  exact (@clusters_text_roundtrip example_float_repr example_float_of_string
           example_d1 Hwf).
Defined.

(* ===================================================================== *)
(** ** The scripts of [PublicationSupplement] *)
(* ===================================================================== *)

(** *** Strings: separators, white space and lines *)

Local Open Scope string_scope.

Lemma has_char_app c s t :
  has_char c (s ++ t) = has_char c s || has_char c t.
Proof.
  induction s as [|a s IH]; simpl; [reflexivity|].
  now rewrite IH, orb_assoc.
Qed.

Lemma has_char_last c s :
  has_char c s = true ->
  exists stem ext, s = stem ++ String c ext /\ has_char c ext = false.
Proof.
  induction s as [|a s IH]; simpl; [discriminate|].
  destruct (has_char c s) eqn:E.
  - intros _. destruct (IH eq_refl) as (stem & ext & -> & Hext).
    exists (String a stem), ext. split; [reflexivity|exact Hext].
  - rewrite orb_false_r. intros Ha. apply Ascii.eqb_eq in Ha. subst a.
    exists "", s. split; [reflexivity|exact E].
Qed.

Lemma split_on_sep_app sep s t :
  split_on sep (s ++ String sep t) = (split_on sep s ++ split_on sep t)%list.
Proof.
  induction s as [|c s IH]; simpl.
  - now rewrite Ascii.eqb_refl.
  - destruct (Ascii.eqb c sep); rewrite IH; [reflexivity|].
    pose proof (split_on_nonempty sep s) as Hn.
    destruct (split_on sep s) as [|p ps]; [contradiction|reflexivity].
Qed.

Lemma append_inj_l (s a b : string) : s ++ a = s ++ b -> a = b.
Proof.
  induction s as [|c s IH]; simpl; [trivial|].
  intros E. injection E as E. now apply IH.
Qed.

Lemma append_assoc (a b c : string) : (a ++ b) ++ c = a ++ b ++ c.
Proof. induction a as [|x a IH]; simpl; [reflexivity|now rewrite IH]. Qed.

Lemma append_nil_r (a : string) : a ++ "" = a.
Proof. induction a as [|x a IH]; simpl; [reflexivity|now rewrite IH]. Qed.

Fixpoint all_space (s : string) : bool :=
  match s with
  | EmptyString => true
  | String c s' => is_space c && all_space s'
  end.

Lemma lstrip_all_space t : all_space t = true -> lstrip t = "".
Proof.
  induction t as [|c t IH]; simpl; [reflexivity|].
  intros H. apply andb_true_iff in H. destruct H as [Hc Ht].
  rewrite Hc. now apply IH.
Qed.

Lemma rstrip_all_space t : all_space t = true -> rstrip t = "".
Proof.
  induction t as [|c t IH]; simpl; [reflexivity|].
  intros H. apply andb_true_iff in H. destruct H as [Hc Ht].
  now rewrite (IH Ht), Hc.
Qed.

Lemma rstrip_app_space s t : all_space t = true -> rstrip (s ++ t) = rstrip s.
Proof.
  intros Ht. induction s as [|c s IH]; simpl.
  - now apply rstrip_all_space.
  - now rewrite IH.
Qed.

Lemma py_strip_app_space s t : all_space t = true -> py_strip (s ++ t) = py_strip s.
Proof.
  intros Ht. unfold py_strip. induction s as [|c s IH]; simpl.
  - now rewrite (lstrip_all_space _ Ht).
  - destruct (is_space c); [exact IH|].
    exact (@rstrip_app_space (String c s) t Ht).
Qed.

Lemma rstrip_cons_not_space c s :
  is_space c = false -> rstrip (String c s) = String c (rstrip s).
Proof. intros Hc. simpl. destruct (rstrip s); [now rewrite Hc|reflexivity]. Qed.

(** A name that takes one line: no line feed and no carriage return *)
Definition one_line (s : string) : bool :=
  negb (has_char "010" s) && negb (has_char "013" s).

Lemma one_line_parts s :
  one_line s = true -> has_char "010" s = false /\ has_char "013" s = false.
Proof.
  unfold one_line. intros H. apply andb_true_iff in H. destruct H as [A B].
  split; [now destruct (has_char "010" s)|now destruct (has_char "013" s)].
Qed.

(** The text of the lines [ls], each followed by a line feed *)
Fixpoint write_lines (ls : list string) : string :=
  match ls with
  | [] => ""
  | l :: ls' => l ++ String "010" (write_lines ls')
  end.

Lemma write_lines_app l1 l2 :
  write_lines (l1 ++ l2) = write_lines l1 ++ write_lines l2.
Proof.
  induction l1 as [|l l1 IH]; simpl; [reflexivity|].
  now rewrite IH, append_assoc.
Qed.

Lemma universal_newlines_id s :
  has_char "013" s = false -> universal_newlines s = s.
Proof.
  induction s as [|c s IH]; simpl; [reflexivity|].
  intros H. apply orb_false_iff in H. destruct H as [Hc Hs].
  rewrite Hc. now rewrite (IH Hs).
Qed.

Lemma split_lines_app l rest :
  has_char "010" l = false ->
  split_lines (l ++ String "010" rest) = (l ++ String "010" "") :: split_lines rest.
Proof.
  induction l as [|c l IH]; simpl; [reflexivity|].
  intros H. apply orb_false_iff in H. destruct H as [Hc Hl].
  rewrite Hc. now rewrite (IH Hl).
Qed.

Lemma has_char_write_lines c ls :
  Forall (fun l => has_char c l = false) ls -> c <> "010"%char ->
  has_char c (write_lines ls) = false.
Proof.
  intros H Hc. induction H as [|l ls Hl _ IH]; [reflexivity|].
  cbn [write_lines]. rewrite has_char_app, Hl. cbn [has_char orb].
  rewrite IH, orb_false_r. apply Ascii.eqb_neq. congruence.
Qed.

Lemma lines_of_write_lines ls :
  Forall (fun l => one_line l = true) ls ->
  lines_of (write_lines ls) = map (fun l => l ++ String "010" "") ls.
Proof.
  intros H. unfold lines_of. rewrite universal_newlines_id.
  - induction H as [|l ls Hl _ IH]; simpl; [reflexivity|].
    rewrite split_lines_app by apply (one_line_parts _ Hl). now rewrite IH.
  - apply has_char_write_lines; [|discriminate].
    eapply Forall_impl; [|exact H]. intros l Hl. apply (one_line_parts _ Hl).
Qed.

Lemma py_strip_line l : py_strip (l ++ String "010" "") = py_strip l.
Proof. now apply py_strip_app_space. Qed.

(** *** The names of the output files of [checkFASTA_dupes.py] *)

Lemma output_file_ext stem ext suffix :
  has_char "." ext = false ->
  output_file (stem ++ String "." ext) suffix = stem ++ suffix.
Proof.
  intros Hext. unfold output_file.
  rewrite split_on_sep_app, (split_on_piece _ _ Hext), removelast_last.
  now rewrite split_on_join.
Qed.

Lemma output_file_no_dot name suffix :
  has_char "." name = false -> output_file name suffix = suffix.
Proof.
  intros Hn. unfold output_file. now rewrite (split_on_piece _ _ Hn).
Qed.

Lemma output_file_not_input input_file suffix rest :
  has_char "." suffix = true -> suffix = String "_" rest ->
  output_file input_file suffix <> input_file.
Proof.
  intros Hdot Hs. destruct (has_char "." input_file) eqn:E.
  - destruct (has_char_last _ _ E) as (stem & ext & -> & Hext).
    rewrite (@output_file_ext stem ext suffix Hext). intros Heq. apply append_inj_l in Heq.
    subst suffix. discriminate.
  - rewrite (@output_file_no_dot input_file suffix E). intros Heq. rewrite Heq in Hdot.
    congruence.
Qed.

Lemma output_file_true_false input_file :
  output_file input_file "_True.txt" <> output_file input_file "_False.txt".
Proof.
  unfold output_file. intros Heq. apply append_inj_l in Heq. discriminate.
Qed.

(** X20.  The names of the two output files of [checkFASTA_dupes.py]: the
    part of the input name after its last dot is replaced by the suffix, and
    for an input name without a dot the output name is the bare suffix.
    Neither output name is the name of the input file, and the two differ,
    so opening the output files for writing never empties the input table. *)
Theorem output_file_names :
  (forall stem ext suffix,
     has_char "." ext = false ->
     output_file (stem ++ String "." ext) suffix = stem ++ suffix) /\
  (forall name suffix,
     has_char "." name = false -> output_file name suffix = suffix) /\
  (forall input_file,
     output_file input_file "_True.txt" <> input_file /\
     output_file input_file "_False.txt" <> input_file /\
     output_file input_file "_True.txt" <> output_file input_file "_False.txt").
Proof.
  split; [exact output_file_ext|]. split; [exact output_file_no_dot|].
  intros input_file.
  split; [apply (@output_file_not_input _ _ "True.txt"); reflexivity|].
  split; [apply (@output_file_not_input _ _ "False.txt"); reflexivity|].
  apply output_file_true_false.
Qed.


(** *** The scan of a FASTA file in [checkFASTA_dupes.py] *)

(** The lines of a FASTA file with the records [recs]: for each record its
    header line, [>] and the header, and then its sequence lines *)
Definition fasta_lines (recs : list (string * list string)) : list string :=
  flat_map (fun r => String ">" (fst r) :: snd r) recs.

(** A record whose header and sequence lines take one line each, with at
    least one sequence line and no sequence line that starts with [>] *)
Definition fasta_record_ok (r : string * list string) : Prop :=
  one_line (fst r) = true /\ snd r <> [] /\
  Forall (fun l => one_line l = true /\ is_header l = false) (snd r).

Definition add_newline (l : string) : string := l ++ String "010" "".

Lemma is_header_add_newline l :
  is_header l = false -> is_header (add_newline l) = false.
Proof. destruct l; [reflexivity|trivial]. Qed.

Lemma scan_file_skip ls : forall rest dupe_header acc,
  Forall (fun l => is_header l = false) ls ->
  scan_file (map add_newline ls ++ rest)%list dupe_header acc =
  scan_file rest dupe_header acc.
Proof.
  induction ls as [|l ls IH]; intros rest dq acc H; [reflexivity|].
  inversion H as [|? ? Hl Hls]; subst. cbn [map app scan_file].
  rewrite (is_header_add_newline _ Hl). now apply IH.
Qed.

Lemma py_strip_header_line h :
  py_strip (add_newline (String ">" h)) = String ">" (rstrip h).
Proof.
  unfold add_newline. rewrite py_strip_line. unfold py_strip.
  cbn [lstrip]. change (is_space ">") with false. cbn iota.
  now apply rstrip_cons_not_space.
Qed.

Lemma eqb_header a b : String.eqb (String ">" a) (String ">" b) = String.eqb a b.
Proof. reflexivity. Qed.

Lemma scan_file_records recs : forall q acc,
  Forall fasta_record_ok recs ->
  scan_file (map add_newline (fasta_lines recs)) (String ">" q) acc =
  inr (acc ++ map (fun r => py_strip (hd "" (snd r)))
                  (filter (fun r => String.eqb (rstrip (fst r)) q) recs))%list.
Proof.
  induction recs as [|[h ls] recs IH]; intros q acc H.
  - simpl. now rewrite app_nil_r.
  - inversion H as [|? ? Hr Hrecs]; subst.
    destruct Hr as (Hh & Hne & Hls). cbn [fst snd] in *.
    destruct ls as [|l1 ls]; [contradiction|].
    inversion Hls as [|? ? [_ Hl1] Hls']; subst.
    assert (Hskip : Forall (fun l => is_header l = false) ls).
    { eapply Forall_impl; [|exact Hls']. now intros l [_ Hl]. }
    cbn [fasta_lines flat_map fst snd app map filter hd].
    change (flat_map (fun r => String ">" (fst r) :: snd r) recs)
      with (fasta_lines recs).
    rewrite map_app. cbn [scan_file].
    change (is_header (add_newline (String ">" h))) with true. cbn iota.
    rewrite py_strip_header_line, eqb_header.
    destruct (String.eqb (rstrip h) q) eqn:E.
    + rewrite (@scan_file_skip ls _ _ _ Hskip), (IH q _ Hrecs).
      unfold add_newline at 1. rewrite py_strip_line.
      cbn [map]. now rewrite <- app_assoc.
    + rewrite (is_header_add_newline _ Hl1).
      rewrite (@scan_file_skip ls _ _ _ Hskip). now apply IH.
Qed.

Lemma one_line_header h : one_line h = true -> one_line (String ">" h) = true.
Proof. trivial. Qed.

Lemma fasta_lines_one_line recs :
  Forall fasta_record_ok recs ->
  Forall (fun l => one_line l = true) (fasta_lines recs).
Proof.
  induction 1 as [|[h ls] recs (Hh & _ & Hls) _ IH]; [constructor|].
  cbn [fasta_lines flat_map fst snd] in *. constructor; [exact Hh|].
  apply Forall_app. split; [|exact IH].
  eapply Forall_impl; [|exact Hls]. now intros l [Hl _].
Qed.

(** X21.  The scan of a well-formed FASTA file: when every record has a
    header and sequence lines of one line each, at least one sequence line
    and no sequence line starting with [>], the sequences collected for a
    header are, in file order, the stripped FIRST sequence lines of the
    records whose header, without its trailing white space, is the wanted
    one.  The later lines of a sequence are never compared. *)
Theorem scan_file_fasta :
  forall (recs : list (string * list string)) (seq_header : string),
    Forall fasta_record_ok recs ->
    scan_file (lines_of (write_lines (fasta_lines recs)))
              (String ">" seq_header) [] =
    inr (map (fun r => py_strip (hd "" (snd r)))
             (filter (fun r => String.eqb (rstrip (fst r)) seq_header) recs)).
Proof.
  intros recs q H.
  rewrite lines_of_write_lines by now apply fasta_lines_one_line.
  exact (@scan_file_records recs q [] H).
Qed.

Definition example_fasta : list (string * list string) :=
  [("p1 first", ["MKV"; "LLA"]); ("p2", ["MST"]); ("p1 first  ", [" MKV "; "GGG"])].

Lemma scan_file_fasta_witness :
  Forall fasta_record_ok example_fasta /\
  scan_file (lines_of (write_lines (fasta_lines example_fasta)))
            ">p1 first" [] = inr ["MKV"; "MKV"].
Proof.
  assert (H : Forall fasta_record_ok example_fasta).
  { unfold example_fasta, fasta_record_ok.
    repeat constructor; simpl; discriminate. }
  split; [exact H|].
  exact (@scan_file_fasta example_fasta "p1 first" H).
Defined.

Lemma scan_file_stop_len n : forall lines dupe_header acc l last,
  length lines <= n ->
  scan_file lines dupe_header acc = inr l ->
  is_header last = true -> py_strip last = dupe_header ->
  scan_file (lines ++ [last])%list dupe_header acc = inl StopIteration.
Proof.
  induction n as [|n IH]; intros lines dq acc l last Hlen Hscan Hh Hs.
  - destruct lines; [|simpl in Hlen; lia].
    cbn [app scan_file]. rewrite Hh, Hs, String.eqb_refl. reflexivity.
  - destruct lines as [|line rest].
    + cbn [app scan_file]. rewrite Hh, Hs, String.eqb_refl. reflexivity.
    + cbn [app scan_file] in *. simpl in Hlen.
      destruct (is_header line);
        [|apply (IH rest dq acc l last); [lia|exact Hscan|exact Hh|exact Hs]].
      destruct (String.eqb (py_strip line) dq);
        [|apply (IH rest dq acc l last); [lia|exact Hscan|exact Hh|exact Hs]].
      destruct rest as [|next_line rest']; [discriminate|].
      cbn [app]. simpl in Hlen.
      apply (IH rest' dq _ l last); [lia|exact Hscan|exact Hh|exact Hs].
Qed.

(** X22.  A file that ends with the wanted header stops the scan: when the
    scan of the lines before succeeds and the last line is a header line
    that, stripped, is the wanted header, [next(search_file)] finds no line
    and the scan raises [StopIteration]. *)
Theorem scan_file_header_last :
  forall (lines : list string) (dupe_header last : string)
         (seq_list : list string),
    scan_file lines dupe_header [] = inr seq_list ->
    is_header last = true ->
    py_strip last = dupe_header ->
    scan_file (lines ++ [last])%list dupe_header [] = inl StopIteration.
Proof.
  intros lines dq last l Hscan Hh Hs.
  exact (@scan_file_stop_len (length lines) lines dq [] l last
           (Nat.le_refl _) Hscan Hh Hs).
Qed.

Definition example_fasta_lines : list string :=
  [add_newline ">a"; add_newline "MKV"].

Lemma scan_file_header_last_witness :
  scan_file example_fasta_lines ">a" [] = inr ["MKV"] /\
  is_header ">a" = true /\ py_strip ">a" = ">a" /\
  scan_file (example_fasta_lines ++ [">a"])%list ">a" [] = inl StopIteration.
Proof.
  split; [reflexivity|]. split; [reflexivity|]. split; [reflexivity|].
  apply (@scan_file_header_last example_fasta_lines ">a" ">a" ["MKV"]);
    reflexivity.
Defined.


(** *** A run of [checkFASTA_dupes.py] *)

(** The sequences that the scan collects for a row of the table, read from
    the store [fs] *)
Definition row_sequences (fs : texts) (row : string * string)
  : py_error + list string :=
  match dict_get fs (snd row) with
  | Some text => scan_file (lines_of text) (String ">" (fst row)) []
  | None => inl (FileNotFound (snd row))
  end.

(** The rows that go to the [_True.txt] file: one sequence, however often *)
Definition same_sequence (fs : texts) (row : string * string) : bool :=
  match row_sequences fs row with
  | inr seq_list => Nat.eqb (py_set_len seq_list) 1
  | inl _ => false
  end.

(** The rows that go to the [_False.txt] file: two sequences or more *)
Definition different_sequences (fs : texts) (row : string * string) : bool :=
  match row_sequences fs row with
  | inr seq_list => Nat.ltb 1 (py_set_len seq_list)
  | inl _ => false
  end.

(** A row whose FASTA file is not one of the two output files *)
Definition row_apart (out_true out_false : string) (row : string * string)
  : Prop :=
  snd row <> out_true /\ snd row <> out_false.

Section CheckRowsFacts.
Variables (out_true out_false : string) (fs0 : texts).
Hypothesis Hout : out_true <> out_false.

Definition outputs_hold (fs : texts) (a b : string) : Prop :=
  dict_get fs out_true = Some a /\ dict_get fs out_false = Some b /\
  forall name, name <> out_true -> name <> out_false ->
               dict_get fs name = dict_get fs0 name.

Lemma file_write_true fs a b text :
  outputs_hold fs a b ->
  exists fs', file_write out_true text fs = (inr tt, fs') /\
              outputs_hold fs' (a ++ text) b.
Proof.
  intros (Ha & Hb & Ho). unfold file_write, dict_get_default. rewrite Ha.
  eexists. split; [reflexivity|]. split; [apply dict_get_set_same|].
  split; [rewrite dict_get_set_other by exact Hout; exact Hb|].
  intros name Ht Hf. rewrite dict_get_set_other by congruence. now apply Ho.
Qed.

Lemma file_write_false fs a b text :
  outputs_hold fs a b ->
  exists fs', file_write out_false text fs = (inr tt, fs') /\
              outputs_hold fs' a (b ++ text).
Proof.
  intros (Ha & Hb & Ho). unfold file_write, dict_get_default. rewrite Hb.
  eexists. split; [reflexivity|].
  split; [rewrite dict_get_set_other by congruence; exact Ha|].
  split; [apply dict_get_set_same|].
  intros name Ht Hf. rewrite dict_get_set_other by congruence. now apply Ho.
Qed.

Definition row_line (b : bool) (row : string * string) : string :=
  if b then fst row ++ String "010" "" else "".

Lemma check_row_ok row fs a b l :
  row_apart out_true out_false row -> row_sequences fs0 row = inr l ->
  outputs_hold fs a b ->
  exists fs', check_row out_true out_false row fs = (inr tt, fs') /\
              outputs_hold fs' (a ++ row_line (same_sequence fs0 row) row)
                               (b ++ row_line (different_sequences fs0 row) row).
Proof.
  intros [Ht Hf] Hl Hfs. pose proof Hfs as (Ha & Hb & Ho).
  unfold same_sequence, different_sequences. rewrite Hl.
  unfold row_sequences in Hl. destruct row as [h f]. cbn [fst snd] in *.
  unfold check_row, tio_bind, open_read, tio_lift.
  rewrite (Ho f Ht Hf).
  destruct (dict_get fs0 f) as [text|]; [|discriminate]. rewrite Hl.
  destruct (Nat.eqb (py_set_len l) 1) eqn:E1.
  - apply Nat.eqb_eq in E1. rewrite E1. cbn [Nat.ltb Nat.leb row_line fst].
    rewrite (append_nil_r b). now apply file_write_true.
  - destruct (Nat.ltb 1 (py_set_len l)); cbn [row_line fst].
    + rewrite (append_nil_r a). now apply file_write_false.
    + rewrite (append_nil_r a), (append_nil_r b).
      eexists. split; [reflexivity|exact Hfs].
Qed.

Lemma check_row_fail row fs a b e :
  row_apart out_true out_false row -> row_sequences fs0 row = inl e ->
  outputs_hold fs a b ->
  check_row out_true out_false row fs = (inl e, fs).
Proof.
  intros [Ht Hf] He (Ha & Hb & Ho).
  unfold row_sequences in He. destruct row as [h f]. cbn [fst snd] in *.
  unfold check_row, tio_bind, open_read, tio_lift.
  rewrite (Ho f Ht Hf).
  destruct (dict_get fs0 f) as [text|]; [|congruence]. now rewrite He.
Qed.

Lemma write_lines_filter_cons (f : string * string -> bool) row rows :
  write_lines (map fst (filter f (row :: rows))) =
  row_line (f row) row ++ write_lines (map fst (filter f rows)).
Proof.
  cbn [filter]. unfold row_line. destruct (f row); [|reflexivity].
  cbn [map write_lines]. rewrite append_assoc. reflexivity.
Qed.

Lemma check_rows_ok rows : forall fs a b,
  Forall (row_apart out_true out_false) rows ->
  Forall (fun row => exists l, row_sequences fs0 row = inr l) rows ->
  outputs_hold fs a b ->
  exists fs', check_rows out_true out_false rows fs = (inr tt, fs') /\
    outputs_hold fs'
      (a ++ write_lines (map fst (filter (same_sequence fs0) rows)))
      (b ++ write_lines (map fst (filter (different_sequences fs0) rows))).
Proof.
  induction rows as [|row rows IH]; intros fs a b Hap Hok Hfs.
  - cbn [filter map write_lines]. rewrite (append_nil_r a), (append_nil_r b).
    eexists. split; [reflexivity|exact Hfs].
  - inversion Hap as [|? ? Hrow Hap']; subst.
    inversion Hok as [|? ? [l Hl] Hok']; subst.
    destruct (@check_row_ok row fs a b l Hrow Hl Hfs) as (fs1 & E1 & H1).
    destruct (IH fs1 _ _ Hap' Hok' H1) as (fs2 & E2 & H2).
    exists fs2. split.
    + cbn [check_rows]. unfold tio_bind. rewrite E1. exact E2.
    + rewrite !write_lines_filter_cons, <- !append_assoc. exact H2.
Qed.

Lemma check_rows_stop rows bad rest e : forall fs a b,
  Forall (row_apart out_true out_false) rows ->
  Forall (fun row => exists l, row_sequences fs0 row = inr l) rows ->
  row_apart out_true out_false bad -> row_sequences fs0 bad = inl e ->
  outputs_hold fs a b ->
  exists fs', check_rows out_true out_false (rows ++ bad :: rest)%list fs =
                (inl e, fs') /\
    outputs_hold fs'
      (a ++ write_lines (map fst (filter (same_sequence fs0) rows)))
      (b ++ write_lines (map fst (filter (different_sequences fs0) rows))).
Proof.
  induction rows as [|row rows IH]; intros fs a b Hap Hok Hbad He Hfs.
  - cbn [filter map write_lines app check_rows]. unfold tio_bind.
    rewrite (@check_row_fail bad fs a b e Hbad He Hfs).
    rewrite (append_nil_r a), (append_nil_r b).
    eexists. split; [reflexivity|exact Hfs].
  - inversion Hap as [|? ? Hrow Hap']; subst.
    inversion Hok as [|? ? [l Hl] Hok']; subst.
    destruct (@check_row_ok row fs a b l Hrow Hl Hfs) as (fs1 & E1 & H1).
    destruct (IH fs1 _ _ Hap' Hok' Hbad He H1) as (fs2 & E2 & H2).
    exists fs2. split.
    + cbn [app check_rows]. unfold tio_bind. rewrite E1. exact E2.
    + rewrite !write_lines_filter_cons, <- !append_assoc. exact H2.
Qed.
End CheckRowsFacts.

Lemma outputs_opened input_file fs :
  outputs_hold (output_file input_file "_True.txt")
               (output_file input_file "_False.txt") fs
    (dict_set (dict_set fs (output_file input_file "_True.txt") "")
              (output_file input_file "_False.txt") "") "" "".
Proof.
  pose proof (output_file_true_false input_file) as Hout.
  split; [rewrite dict_get_set_other by congruence; apply dict_get_set_same|].
  split; [apply dict_get_set_same|].
  intros name Ht Hf. now rewrite !dict_get_set_other by congruence.
Qed.

(** X23.  A run of [checkFASTA_dupes.py] in which every row can be scanned:
    when the input file exists, no FASTA file of the table is one of the two
    output files and the scan of every row's FASTA file succeeds, the run
    succeeds; the [_True.txt] file holds, in table order and one per line,
    the headers of the rows whose collected sequences are all the same, the
    [_False.txt] file those of the rows with two or more different
    sequences; a row for which the scan collects nothing is written to
    neither file, and no other file is changed. *)
Theorem checkFASTA_dupes_outputs :
  forall (input_file : string) (ref_df : list (string * string)) (fs : texts),
    dict_get fs input_file <> None ->
    Forall (row_apart (output_file input_file "_True.txt")
                      (output_file input_file "_False.txt")) ref_df ->
    Forall (fun row => exists l, row_sequences fs row = inr l) ref_df ->
    exists fs',
      checkFASTA_dupes input_file ref_df fs = (inr tt, fs') /\
      dict_get fs' (output_file input_file "_True.txt") =
        Some (write_lines (map fst (filter (same_sequence fs) ref_df))) /\
      dict_get fs' (output_file input_file "_False.txt") =
        Some (write_lines (map fst (filter (different_sequences fs) ref_df))) /\
      forall name,
        name <> output_file input_file "_True.txt" ->
        name <> output_file input_file "_False.txt" ->
        dict_get fs' name = dict_get fs name.
Proof.
  intros input_file ref_df fs Hin Hap Hok.
  destruct (@check_rows_ok _ _ fs (output_file_true_false input_file)
              ref_df _ "" "" Hap Hok (outputs_opened input_file fs))
    as (fs' & E & Ht & Hf & Ho).
  exists fs'. split; [|split; [exact Ht|split; [exact Hf|exact Ho]]].
  unfold checkFASTA_dupes, tio_bind, open_read, open_write.
  destruct (dict_get fs input_file); [exact E|congruence].
Qed.

Definition example_texts : texts :=
  [("dupes.tsv", "p1" ++ String "009" "a.fasta" ++ String "010" "");
   ("a.fasta", write_lines [">p1"; "MKV"; ">p2"; "MST"; ">p1"; "MKV"])].

Lemma checkFASTA_dupes_outputs_witness :
  exists fs',
    checkFASTA_dupes "dupes.tsv" [("p1", "a.fasta")] example_texts =
      (inr tt, fs') /\
    dict_get fs' (output_file "dupes.tsv" "_True.txt") =
      Some (write_lines (map fst (filter (same_sequence example_texts)
                                         [("p1", "a.fasta")]))) /\
    dict_get fs' (output_file "dupes.tsv" "_False.txt") =
      Some (write_lines (map fst (filter (different_sequences example_texts)
                                         [("p1", "a.fasta")]))) /\
    forall name,
      name <> output_file "dupes.tsv" "_True.txt" ->
      name <> output_file "dupes.tsv" "_False.txt" ->
      dict_get fs' name = dict_get example_texts name.
Proof.
  apply (@checkFASTA_dupes_outputs "dupes.tsv" [("p1", "a.fasta")] example_texts).
  - discriminate.
  - repeat constructor; vm_compute; discriminate.
  - repeat constructor. eexists. vm_compute. reflexivity.
Defined.

(** X24.  A run of [checkFASTA_dupes.py] stops at the first row that cannot
    be scanned: when the rows before it can be scanned and its own FASTA file
    is missing ([FileNotFoundError]) or ends with the wanted header
    ([StopIteration]), the run ends with that error; the two output files
    exist and hold the headers of the rows before, the rows after it are
    never looked at, and no other file is changed. *)
Theorem checkFASTA_dupes_stops :
  forall (input_file : string) (rows : list (string * string))
         (bad : string * string) (rest : list (string * string))
         (e : py_error) (fs : texts),
    dict_get fs input_file <> None ->
    Forall (row_apart (output_file input_file "_True.txt")
                      (output_file input_file "_False.txt")) (rows ++ [bad]) ->
    Forall (fun row => exists l, row_sequences fs row = inr l) rows ->
    row_sequences fs bad = inl e ->
    exists fs',
      checkFASTA_dupes input_file (rows ++ bad :: rest) fs = (inl e, fs') /\
      dict_get fs' (output_file input_file "_True.txt") =
        Some (write_lines (map fst (filter (same_sequence fs) rows))) /\
      dict_get fs' (output_file input_file "_False.txt") =
        Some (write_lines (map fst (filter (different_sequences fs) rows))) /\
      forall name,
        name <> output_file input_file "_True.txt" ->
        name <> output_file input_file "_False.txt" ->
        dict_get fs' name = dict_get fs name.
Proof.
  intros input_file rows bad rest e fs Hin Hap Hok He.
  apply Forall_app in Hap. destruct Hap as [Hap Hbad].
  inversion Hbad as [|? ? Hb _]; subst.
  destruct (@check_rows_stop _ _ fs (output_file_true_false input_file)
              rows bad rest e _ "" "" Hap Hok Hb He
              (outputs_opened input_file fs))
    as (fs' & E & Ht & Hf & Ho).
  exists fs'. split; [|split; [exact Ht|split; [exact Hf|exact Ho]]].
  unfold checkFASTA_dupes, tio_bind, open_read, open_write.
  destruct (dict_get fs input_file); [exact E|congruence].
Qed.

Lemma checkFASTA_dupes_stops_witness :
  exists fs',
    checkFASTA_dupes "dupes.tsv"
      ([("p1", "a.fasta")] ++ ("p3", "b.fasta") :: [("p2", "a.fasta")])
      example_texts = (inl (FileNotFound "b.fasta"), fs') /\
    dict_get fs' (output_file "dupes.tsv" "_True.txt") =
      Some (write_lines (map fst (filter (same_sequence example_texts)
                                         [("p1", "a.fasta")]))) /\
    dict_get fs' (output_file "dupes.tsv" "_False.txt") =
      Some (write_lines (map fst (filter (different_sequences example_texts)
                                         [("p1", "a.fasta")]))) /\
    forall name,
      name <> output_file "dupes.tsv" "_True.txt" ->
      name <> output_file "dupes.tsv" "_False.txt" ->
      dict_get fs' name = dict_get example_texts name.
Proof.
  apply (@checkFASTA_dupes_stops "dupes.tsv" [("p1", "a.fasta")]
           ("p3", "b.fasta") [("p2", "a.fasta")] (FileNotFound "b.fasta")
           example_texts).
  - discriminate.
  - repeat constructor; vm_compute; discriminate.
  - repeat constructor. eexists. vm_compute. reflexivity.
  - reflexivity.
Defined.


(** *** The list files of [subsample_list.py] *)

(** The names that [subsample_list.py] reads from the text of a list file:
    its lines, stripped *)
Definition file_names (text : string) : list string :=
  map py_strip (lines_of text).

Lemma has_char_lstrip c s :
  has_char c s = false -> has_char c (lstrip s) = false.
Proof.
  induction s as [|a s IH]; [trivial|].
  intros H. cbn [lstrip]. destruct (is_space a); [|exact H].
  cbn [has_char] in H. apply orb_false_iff in H. now apply IH.
Qed.

Lemma has_char_rstrip c s :
  has_char c s = false -> has_char c (rstrip s) = false.
Proof.
  induction s as [|a s IH]; [trivial|].
  intros H. cbn [has_char] in H. apply orb_false_iff in H.
  destruct H as [Ha Hs]. specialize (IH Hs). cbn [rstrip].
  destruct (rstrip s) as [|b t].
  - destruct (is_space a); [reflexivity|].
    cbn [has_char]. now rewrite Ha.
  - cbn [has_char] in *. now rewrite Ha.
Qed.

Lemma has_char_py_strip c s :
  has_char c s = false -> has_char c (py_strip s) = false.
Proof. intros H. apply has_char_rstrip. now apply has_char_lstrip. Qed.

Lemma rstrip_idem s : rstrip (rstrip s) = rstrip s.
Proof.
  induction s as [|a s IH]; [reflexivity|].
  cbn [rstrip]. destruct (rstrip s) as [|b t] eqn:E.
  - destruct (is_space a) eqn:Ea; [reflexivity|].
    cbn [rstrip]. now rewrite Ea.
  - change (rstrip (String a (String b t)))
      with (match rstrip (String b t) with
            | EmptyString =>
                if is_space a then EmptyString else String a EmptyString
            | String c' t' => String a (String c' t')
            end).
    now rewrite IH.
Qed.

Lemma lstrip_head s :
  lstrip s = "" \/ exists c t, lstrip s = String c t /\ is_space c = false.
Proof.
  induction s as [|a s IH]; [now left|].
  cbn [lstrip]. destruct (is_space a) eqn:Ea; [exact IH|].
  right. now exists a, s.
Qed.

Lemma py_strip_idem s : py_strip (py_strip s) = py_strip s.
Proof.
  unfold py_strip. destruct (lstrip_head s) as [E|(c & t & E & Hc)].
  - now rewrite E.
  - rewrite E, (@rstrip_cons_not_space c t Hc). cbn [lstrip]. rewrite Hc.
    rewrite (@rstrip_cons_not_space c (rstrip t) Hc). now rewrite rstrip_idem.
Qed.

Lemma universal_newlines_cr s :
  universal_newlines (String "013" s) =
  match s with
  | String "010" _ => universal_newlines s
  | _ => String "010" (universal_newlines s)
  end.
Proof.
  cbn [universal_newlines]. change (Ascii.eqb "013" "013") with true.
  cbn iota. destruct s as [|c s]; [reflexivity|].
  destruct (Ascii.eqb_spec c "010") as [->|Hne].
  - reflexivity.
  - destruct c as [[] [] [] [] [] [] [] []]; try reflexivity.
    now contradiction Hne.
Qed.

Lemma universal_newlines_no_cr s :
  has_char "013" (universal_newlines s) = false.
Proof.
  induction s as [|c s IH]; [reflexivity|].
  destruct (Ascii.eqb_spec c "013") as [->|Hne].
  - rewrite universal_newlines_cr.
    destruct s as [|c s]; [reflexivity|].
    destruct (Ascii.eqb_spec c "010") as [->|Hne].
    + exact IH.
    + assert (E : forall (A : Type) (x y : A),
                match c with "010"%char => x | _ => y end = y).
      { intros A x y.
        destruct c as [[] [] [] [] [] [] [] []]; try reflexivity.
        now contradiction Hne. }
      rewrite E. cbn [has_char]. now rewrite IH.
  - cbn [universal_newlines].
    apply Ascii.eqb_neq in Hne. rewrite Hne. cbn [has_char].
    now rewrite Hne, IH.
Qed.

Lemma split_lines_no_char c s :
  has_char c s = false ->
  Forall (fun l => has_char c l = false) (split_lines s).
Proof.
  induction s as [|a s IH]; [constructor|].
  intros H. cbn [has_char] in H. apply orb_false_iff in H.
  destruct H as [Ha Hs]. specialize (IH Hs). cbn [split_lines].
  destruct (Ascii.eqb a "010").
  - constructor; [cbn [has_char]; now rewrite Ha|exact IH].
  - destruct (split_lines s) as [|l ls].
    + repeat constructor. cbn [has_char]. now rewrite Ha.
    + inversion IH; subst. constructor; [|assumption].
      cbn [has_char]. rewrite Ha. assumption.
Qed.

Lemma split_lines_body s :
  Forall (fun l => exists body,
            has_char "010" body = false /\
            (l = body ++ String "010" "" \/ l = body))
         (split_lines s).
Proof.
  induction s as [|a s IH]; [constructor|].
  cbn [split_lines]. destruct (Ascii.eqb a "010") eqn:Ea.
  - apply Ascii.eqb_eq in Ea. subst a.
    constructor; [|exact IH]. exists "". split; [reflexivity|now left].
  - destruct (split_lines s) as [|l ls].
    + repeat constructor. exists (String a ""). split; [|now right].
      cbn [has_char]. now rewrite Ea.
    + inversion IH as [|? ? (body & Hb & Hl) Hls]; subst.
      constructor; [|exact Hls]. exists (String a body).
      split; [cbn [has_char]; now rewrite Ea|].
      destruct Hl as [->| ->]; [now left|now right].
Qed.

Lemma file_names_one_line text :
  Forall (fun n => one_line n = true) (file_names text).
Proof.
  unfold file_names, lines_of. apply Forall_map.
  pose proof (split_lines_no_char _ _ (universal_newlines_no_cr text)) as Hcr.
  pose proof (split_lines_body (universal_newlines text)) as Hlf.
  rewrite Forall_forall in *. intros l Hl.
  specialize (Hcr l Hl). destruct (Hlf l Hl) as (body & Hb & E).
  unfold one_line. rewrite (has_char_py_strip _ _ Hcr).
  destruct E as [->| ->].
  - rewrite py_strip_line. now rewrite (has_char_py_strip _ _ Hb).
  - now rewrite (has_char_py_strip _ _ Hb).
Qed.

Lemma file_names_stripped text :
  Forall (fun n => py_strip n = n) (file_names text).
Proof.
  unfold file_names. apply Forall_map. apply Forall_forall.
  intros l _. apply py_strip_idem.
Qed.

(** X25.  A list file written from names that were read from a list file
    is read back unchanged: for any selection [names] of the names that
    [subsample_list.py] reads from some text, in any order and with
    repetitions, the text with each of them followed by a line feed, which
    is what the script writes, is read as exactly [names]. *)
Theorem file_names_written :
  forall (text : string) (names : list string),
    Forall (fun j => In j (file_names text)) names ->
    file_names (write_lines names) = names.
Proof.
  intros text names H.
  pose proof (file_names_one_line text) as H1.
  pose proof (file_names_stripped text) as H2.
  rewrite Forall_forall in H, H1, H2.
  unfold file_names at 1. rewrite lines_of_write_lines.
  - rewrite map_map. rewrite <- (map_id names) at 2.
    apply map_ext_in. intros j Hj. rewrite py_strip_line.
    apply H2. now apply H.
  - apply Forall_forall. intros j Hj. apply H1. now apply H.
Qed.

Definition example_list_text : string :=
  " a.fasta" ++ String "013" (String "010" ("b.fasta  " ++ String "010" "c.fasta")).

Lemma file_names_written_witness :
  Forall (fun j => In j (file_names example_list_text)) ["c.fasta"; "a.fasta"] /\
  file_names (write_lines ["c.fasta"; "a.fasta"]) = ["c.fasta"; "a.fasta"].
Proof.
  assert (H : Forall (fun j => In j (file_names example_list_text))
                     ["c.fasta"; "a.fasta"]).
  { repeat constructor; vm_compute; tauto. }
  split; [exact H|].
  exact (@file_names_written example_list_text ["c.fasta"; "a.fasta"] H).
Defined.


(** *** A run of [subsample_list.py] *)

(** The command line: the script, the list file, the output file, the seed
    and the number of files, and possibly a file that must be kept *)
Definition subsample_argv (script input_list output_name seed_arg count_arg : string)
    (required : option string) : list string :=
  ([script; input_list; output_name; seed_arg; count_arg] ++
   match required with Some r => [r] | None => [] end)%list.

(** The names to sample from: all but the required file *)
Definition sample_pool (required : option string) (names : list string)
  : list string :=
  match required with
  | Some r => filter (fun i => negb (String.eqb i r)) names
  | None => names
  end.

(** The number of names to sample: one less when a file is required *)
Definition sample_size (required : option string) (out_count : Z) : Z :=
  match required with
  | Some _ => (out_count - 1)%Z
  | None => out_count
  end.

(** The names of the output file *)
Definition with_required (required : option string) (out_list : list string)
  : list string :=
  match required with
  | Some r => r :: out_list
  | None => out_list
  end.

Lemma sample_length {SA : Sampler} seed population k :
  k <= length population -> length (sample seed population k) = k.
Proof.
  intros Hk. destruct (@sample_positions SA seed population k Hk)
    as (ps & _ & _ & Hlen & ->).
  now rewrite length_map.
Qed.

Lemma sample_In {SA : Sampler} seed population k :
  k <= length population ->
  Forall (fun j => In j population) (sample seed population k).
Proof.
  intros Hk. destruct (@sample_positions SA seed population k Hk)
    as (ps & _ & Hin & _ & ->).
  apply Forall_map. eapply Forall_impl; [|exact Hin].
  intros i Hi. now apply nth_In.
Qed.

Lemma NoDup_map_nth (l : list string) ps :
  NoDup l -> NoDup ps -> Forall (fun i => i < length l) ps ->
  NoDup (map (fun i => nth i l "") ps).
Proof.
  intros Hl Hps Hin. induction Hps as [|p ps Hp Hps IH]; [constructor|].
  inversion Hin as [|? ? Hlt Hin']; subst. cbn [map].
  constructor; [|now apply IH].
  intros H. apply in_map_iff in H. destruct H as (i & Hi & Hips).
  rewrite Forall_forall in Hin'.
  assert (i = p).
  { apply (proj1 (NoDup_nth l "") Hl); [now apply Hin'|exact Hlt|exact Hi]. }
  subst i. contradiction.
Qed.

Lemma sample_NoDup {SA : Sampler} seed population k :
  k <= length population -> NoDup population ->
  NoDup (sample seed population k).
Proof.
  intros Hk Hnd. destruct (@sample_positions SA seed population k Hk)
    as (ps & Hps & Hin & _ & ->).
  now apply NoDup_map_nth.
Qed.

Lemma write_names output_name names : forall (m : TIO unit) fs fs1 a,
  m fs = (inr tt, fs1) -> dict_get fs1 output_name = Some a ->
  exists fs2,
    fold_left (fun (m : TIO unit) (j : string) =>
                 tio_bind m (fun _ => file_write output_name (j ++ String "010" "")))
              names m fs = (inr tt, fs2) /\
    dict_get fs2 output_name = Some (a ++ write_lines names) /\
    forall name, name <> output_name -> dict_get fs2 name = dict_get fs1 name.
Proof.
  induction names as [|j names IH]; intros m fs fs1 a Hm Ha.
  - exists fs1. cbn [fold_left write_lines]. rewrite append_nil_r.
    split; [exact Hm|]. split; [exact Ha|trivial].
  - cbn [fold_left].
    destruct (IH (tio_bind m (fun _ => file_write output_name (j ++ String "010" "")))
                 fs (dict_set fs1 output_name (a ++ j ++ String "010" ""))
                 (a ++ j ++ String "010" "")) as (fs2 & E & Hout & Ho).
    + unfold tio_bind. rewrite Hm. unfold file_write, dict_get_default.
      now rewrite Ha.
    + apply dict_get_set_same.
    + exists fs2. split; [exact E|]. split.
      * rewrite Hout. cbn [write_lines].
        now rewrite !append_assoc.
      * intros name Hn. rewrite (Ho name Hn).
        apply dict_get_set_other. congruence.
Qed.

Lemma filter_not_In (r : string) names :
  ~ In r (filter (fun i => negb (String.eqb i r)) names).
Proof.
  intros H. apply filter_In in H. destruct H as [_ H].
  now rewrite String.eqb_refl in H.
Qed.

Section SubsampleFacts.
Context {SA : Sampler}.
Variable py_int : string -> option Z.
Variables (script input_list output_name seed_arg count_arg : string).
Variables (required : option string) (seed_no out_count : Z).
Variables (text : string) (fs : texts).
Hypothesis Hseed : py_int seed_arg = Some seed_no.
Hypothesis Hcount : py_int count_arg = Some out_count.
Hypothesis Htext : dict_get fs input_list = Some text.

Definition opened_output : texts :=
  match required with
  | Some r =>
      dict_set (dict_set fs output_name "") output_name
        (dict_get_default (dict_set fs output_name "") output_name "" ++
         r ++ String "010" "")
  | None => dict_set fs output_name ""
  end.

Lemma subsample_list_run :
  subsample_list py_int
    (subsample_argv script input_list output_name seed_arg count_arg required)
    fs =
  match random_sample seed_no (sample_pool required (file_names text))
                      (sample_size required out_count) with
  | inl e => (inl e, fs)
  | inr out_list =>
      fold_left
        (fun (m : TIO unit) (j : string) =>
           tio_bind m (fun _ => file_write output_name (j ++ String "010" "")))
        out_list (tio_ret tt) opened_output
  end.
Proof.
  unfold subsample_list, subsample_argv, argv_int, argv_get, opened_output,
    sample_pool, sample_size, file_names.
  unfold tio_bind, tio_ret, tio_lift, open_read, open_write, file_write.
  destruct required as [r|]; cbn [app length Nat.eqb nth_error];
    rewrite Hseed, Hcount, Htext;
    destruct (random_sample seed_no _ _) as [e|out_list]; reflexivity.
Qed.

Lemma opened_output_holds :
  dict_get opened_output output_name =
    Some (write_lines (with_required required [])) /\
  forall name, name <> output_name ->
               dict_get opened_output name = dict_get fs name.
Proof.
  unfold opened_output. destruct required as [r|]; split.
  - rewrite dict_get_set_same. unfold dict_get_default.
    now rewrite dict_get_set_same.
  - intros name Hn. now rewrite !dict_get_set_other by congruence.
  - now rewrite dict_get_set_same.
  - intros name Hn. now rewrite !dict_get_set_other by congruence.
Qed.

Lemma subsample_list_sampling :
  match random_sample seed_no (sample_pool required (file_names text))
                      (sample_size required out_count) with
  | inl e =>
      subsample_list py_int
        (subsample_argv script input_list output_name seed_arg count_arg required)
        fs = (inl e, fs)
  | inr out_list =>
      exists fs1,
        dict_get fs1 output_name = Some (write_lines (with_required required [])) /\
        (forall name, name <> output_name -> dict_get fs1 name = dict_get fs name) /\
        subsample_list py_int
          (subsample_argv script input_list output_name seed_arg count_arg required)
          fs =
        fold_left
          (fun (m : TIO unit) (j : string) =>
             tio_bind m (fun _ => file_write output_name (j ++ String "010" "")))
          out_list (tio_ret tt) fs1
  end.
Proof.
  rewrite subsample_list_run.
  destruct (random_sample seed_no _ _) as [e|out_list]; [reflexivity|].
  exists opened_output. destruct opened_output_holds as [H1 H2].
  split; [exact H1|]. split; [exact H2|reflexivity].
Qed.
End SubsampleFacts.

(** X26.  A run of [subsample_list.py] that can sample: with integers for
    the seed and the number of files, an input list that exists and a number
    to sample (one less when a file is required) between 0 and the number of
    names left after the required file is taken out, the run succeeds and the
    output file holds, one per line, the required file first (also when the
    list does not name it) and then the sampled names.  The output has as
    many names as were asked for, every sampled name is a name of the list,
    the required file is not sampled again, and when the list names no file
    twice the output names no file twice.  No other file is changed. *)
Theorem subsample_list_output :
  forall (SA : Sampler) (py_int : string -> option Z)
         (script input_list output_name seed_arg count_arg : string)
         (required : option string) (seed_no out_count : Z)
         (text : string) (fs : texts),
    py_int seed_arg = Some seed_no ->
    py_int count_arg = Some out_count ->
    dict_get fs input_list = Some text ->
    (0 <= sample_size required out_count <=
     Z.of_nat (length (sample_pool required (file_names text))))%Z ->
    exists (out_list : list string) (fs' : texts),
      subsample_list py_int
        (subsample_argv script input_list output_name seed_arg count_arg required)
        fs = (inr tt, fs') /\
      out_list = sample seed_no (sample_pool required (file_names text))
                        (Z.to_nat (sample_size required out_count)) /\
      dict_get fs' output_name =
        Some (write_lines (with_required required out_list)) /\
      (forall name, name <> output_name -> dict_get fs' name = dict_get fs name) /\
      length (with_required required out_list) = Z.to_nat out_count /\
      Forall (fun j => In j (file_names text)) out_list /\
      (forall r, required = Some r -> ~ In r out_list) /\
      (NoDup (file_names text) -> NoDup (with_required required out_list)).
Proof.
  intros SA py_int script input_list output_name seed_arg count_arg required
         seed_no out_count text fs Hseed Hcount Htext Hk.
  set (pool := sample_pool required (file_names text)) in *.
  set (k := sample_size required out_count) in *.
  assert (Hle : Z.to_nat k <= length pool) by lia.
  assert (Hpool : Forall (fun j => In j (file_names text)) pool).
  { apply Forall_forall. intros j Hj. unfold pool, sample_pool in Hj.
    destruct required; [|exact Hj]. apply filter_In in Hj. apply Hj. }
  pose proof (@subsample_list_sampling SA py_int script input_list output_name
                seed_arg count_arg required seed_no out_count text fs
                Hseed Hcount Htext) as Hrun.
  fold pool k in Hrun. unfold random_sample in Hrun.
  replace ((k <? 0)%Z || (Z.of_nat (length pool) <? k)%Z) with false in Hrun
    by (symmetry; apply orb_false_iff; split; apply Z.ltb_ge; lia).
  destruct Hrun as (fs1 & Hout1 & Ho1 & Hrun).
  destruct (@write_names output_name (sample seed_no pool (Z.to_nat k))
              (tio_ret tt) fs1 fs1 _ eq_refl Hout1) as (fs2 & E & Hout2 & Ho2).
  exists (sample seed_no pool (Z.to_nat k)), fs2.
  split; [now rewrite Hrun|]. split; [reflexivity|].
  split; [|split; [|split; [|split; [|split]]]].
  - rewrite Hout2. destruct required as [r|]; cbn [with_required]; [|reflexivity].
    now rewrite <- write_lines_app.
  - intros name Hn. rewrite (Ho2 name Hn). now apply Ho1.
  - pose proof (@sample_length SA seed_no pool (Z.to_nat k) Hle) as Hlen.
    unfold k, sample_size in *. destruct required as [r|]; cbn [with_required length].
    + rewrite Hlen. lia.
    + exact Hlen.
  - pose proof (@sample_In SA seed_no pool (Z.to_nat k) Hle) as Hin.
    rewrite Forall_forall in *. intros j Hj. apply Hpool. now apply Hin.
  - intros r -> Hr.
    pose proof (@sample_In SA seed_no pool (Z.to_nat k) Hle) as Hin.
    rewrite Forall_forall in Hin. apply Hin in Hr.
    now apply filter_not_In in Hr.
  - intros Hnd.
    assert (Hndp : NoDup pool).
    { unfold pool, sample_pool. destruct required; [|exact Hnd].
      now apply NoDup_filter. }
    pose proof (@sample_NoDup SA seed_no pool (Z.to_nat k) Hle Hndp) as Hs.
    destruct required as [r|] eqn:Er; cbn [with_required]; [|exact Hs].
    constructor; [|exact Hs].
    intros Hr. pose proof (@sample_In SA seed_no pool (Z.to_nat k) Hle) as Hin.
    rewrite Forall_forall in Hin. apply Hin in Hr.
    now apply filter_not_In in Hr.
Qed.

(** [int(s)] for a string of decimal digits with an optional sign *)
Definition example_py_int (s : string) : option Z :=
  option_map Z.of_int (NilZero.int_of_string s).

Definition example_list_fs : texts :=
  [("list.txt", write_lines ["a.fasta"; "b.fasta"; "c.fasta"; "d.fasta"])].

Lemma subsample_list_output_witness :
  exists (out_list : list string) (fs' : texts),
    subsample_list example_py_int
      (subsample_argv "subsample_list.py" "list.txt" "out.txt" "42" "3"
                      (Some "c.fasta"))
      example_list_fs = (inr tt, fs') /\
    out_list = sample 42%Z (sample_pool (Some "c.fasta")
                                        (file_names (write_lines
                                           ["a.fasta"; "b.fasta"; "c.fasta"; "d.fasta"])))
                      (Z.to_nat (sample_size (Some "c.fasta") 3%Z)) /\
    dict_get fs' "out.txt" =
      Some (write_lines (with_required (Some "c.fasta") out_list)) /\
    (forall name, name <> "out.txt" ->
                  dict_get fs' name = dict_get example_list_fs name) /\
    length (with_required (Some "c.fasta") out_list) = Z.to_nat 3%Z /\
    Forall (fun j => In j (file_names (write_lines
                             ["a.fasta"; "b.fasta"; "c.fasta"; "d.fasta"])))
           out_list /\
    (forall r, Some "c.fasta" = Some r -> ~ In r out_list) /\
    (NoDup (file_names (write_lines ["a.fasta"; "b.fasta"; "c.fasta"; "d.fasta"])) ->
     NoDup (with_required (Some "c.fasta") out_list)).
Proof.
  apply (@subsample_list_output first_elements_sampler example_py_int
           "subsample_list.py" "list.txt" "out.txt" "42" "3" (Some "c.fasta")
           42%Z 3%Z
           (write_lines ["a.fasta"; "b.fasta"; "c.fasta"; "d.fasta"])
           example_list_fs).
  - reflexivity.
  - reflexivity.
  - reflexivity.
  - vm_compute. split; discriminate.
Defined.

(** X27.  A run of [subsample_list.py] that asks for more names than there
    are, or for fewer than none: with integers for the seed and the number of
    files and an input list that exists, when the number to sample (one less
    when a file is required) is negative or larger than the number of names
    left after the required file is taken out, [random.sample] raises
    [ValueError] and no file is created or changed.  So asking for 0 files
    together with a required file fails: the number to sample is -1. *)
Theorem subsample_list_value_error :
  forall (SA : Sampler) (py_int : string -> option Z)
         (script input_list output_name seed_arg count_arg : string)
         (required : option string) (seed_no out_count : Z)
         (text : string) (fs : texts),
    py_int seed_arg = Some seed_no ->
    py_int count_arg = Some out_count ->
    dict_get fs input_list = Some text ->
    (sample_size required out_count < 0 \/
     Z.of_nat (length (sample_pool required (file_names text))) <
       sample_size required out_count)%Z ->
    subsample_list py_int
      (subsample_argv script input_list output_name seed_arg count_arg required)
      fs = (inl ValueError, fs).
Proof.
  intros SA py_int script input_list output_name seed_arg count_arg required
         seed_no out_count text fs Hseed Hcount Htext Hk.
  pose proof (@subsample_list_sampling SA py_int script input_list output_name
                seed_arg count_arg required seed_no out_count text fs
                Hseed Hcount Htext) as Hrun.
  unfold random_sample in Hrun.
  replace ((sample_size required out_count <? 0)%Z ||
           (Z.of_nat (length (sample_pool required (file_names text))) <?
            sample_size required out_count)%Z) with true in Hrun; [exact Hrun|].
  symmetry. apply orb_true_iff.
  destruct Hk as [Hk|Hk]; [left|right]; now apply Z.ltb_lt.
Qed.

Lemma subsample_list_value_error_witness :
  subsample_list example_py_int
    (subsample_argv "subsample_list.py" "list.txt" "out.txt" "42" "0"
                    (Some "c.fasta"))
    example_list_fs = (inl ValueError, example_list_fs).
Proof.
  apply (@subsample_list_value_error first_elements_sampler example_py_int
           "subsample_list.py" "list.txt" "out.txt" "42" "0" (Some "c.fasta")
           42%Z 0%Z
           (write_lines ["a.fasta"; "b.fasta"; "c.fasta"; "d.fasta"])
           example_list_fs).
  - reflexivity.
  - reflexivity.
  - reflexivity.
  - left. vm_compute. reflexivity.
Defined.

